(** * ForgeryNet_FHE: the artwork ledger client and the confidence heuristic

    A shallow embedding of
    - [src/contracts/ForgeryNetFHE.sol]: the plaintext post-processing of a
      decrypted aggregate ([computeConfidence], [onAggregatesDecrypted]);
    - [src/frontend/web/src/App.tsx]: the four operations of the React
      component that talk to the key/value contract ([loadArtworks],
      [uploadArtwork], [markAsAuthentic], [markAsForgery]) and the part of
      the view that decides which buttons a record card carries.

    Strings and byte sequences are both [string] (sequences of 8-bit
    characters).  Numbers are integers ([Z]); JSON texts with a fraction or
    an exponent are outside the model. *)

From Stdlib Require Import ZArith String Ascii List Lia DecimalString Sorted.
From stdpp Require Import base option gmap strings list.

Set Warnings "-register-all".
Local Open Scope string_scope.
Local Open Scope list_scope.
Local Open Scope Z_scope.

(* ===================================================================== *)
(** ** The contract: plaintext post-processing *)
(* ===================================================================== *)

Module ForgeryNetFHE.

(** [uint32] values are integers in [0, 2^32). *)
Definition uint32_max : Z := 2 ^ 32 - 1.
Definition is_uint32 (x : Z) : Prop := 0 <= x <= uint32_max.

(** [function computeConfidence(uint32 aggregated) internal pure returns (uint32)] *)
Definition computeConfidence (aggregated : Z) : Z :=
  let value := aggregated in
  if value >? 100 then 100 else value.

(** The result container written by the decryption callback. *)
Record AggregatedResult := {
  artworkId : Z;
  verdict : string;
  confidence : Z;
  revealed : bool
}.

(** The part of [onAggregatesDecrypted] after the cleartext has been
    decoded to [aggregateValue]: the verdict and the confidence stored in
    [results[artworkId]]. *)
Definition deriveResult (artwork : Z) (aggregateValue : Z) : AggregatedResult :=
  {| artworkId := artwork;
     verdict := if aggregateValue >? 0 then "likely_forgery" else "likely_authentic";
     confidence := computeConfidence aggregateValue;
     revealed := true |}.

End ForgeryNetFHE.

(* ===================================================================== *)
(** ** JavaScript values met by the front-end *)
(* ===================================================================== *)

(** What [JSON.parse] can return. An object is the list of its own
    properties in property order. *)
Inductive json : Type :=
| JNull
| JBool (b : bool)
| JNum (n : Z)
| JStr (s : string)
| JArr (l : list json)
| JObj (o : list (string * json)).

(** A value read from a property: [undefined] when the property is missing. *)
Inductive value : Type :=
| undefined
| val (j : json).

(** Numbers produced by arithmetic on values. *)
Inductive number : Type :=
| NaN
| Num (z : Z).

(** A thrown [Error]; only its [message] is ever inspected. *)
Record exn := Error { message : string }.

Inductive outcome (A : Type) : Type :=
| Ret (a : A)
| Throw (e : exn).
Arguments Ret {A} a.
Arguments Throw {A} e.

(** Truthiness, as used by [artworkData.status || "pending"]. *)
Definition truthy (v : value) : bool :=
  match v with
  | undefined => false
  | val JNull => false
  | val (JBool b) => b
  | val (JNum n) => negb (Z.eqb n 0)
  | val (JStr s) => negb (String.eqb s EmptyString)
  | val (JArr _) => true
  | val (JObj _) => true
  end.

(** [a || b] *)
Definition or_else (a b : value) : value := if truthy a then a else b.

(** [v === "s"] for a string literal [s]. *)
Definition strict_eq_str (v : value) (s : string) : bool :=
  match v with
  | val (JStr t) => String.eqb t s
  | _ => false
  end.

(** First own property called [k]. *)
Fixpoint own_prop (o : list (string * json)) (k : string) : value :=
  match o with
  | [] => undefined
  | (k', v) :: o' => if String.eqb k' k then val v else own_prop o' k
  end.

(** Property read [v.k], for the names the component reads ([data],
    [timestamp], [owner], [artworkName], [status]): none of them exists on a
    built-in prototype, so a non-object yields [undefined]; reading a
    property of [null] throws a TypeError. *)
Definition get_prop (v : json) (k : string) : outcome value :=
  match v with
  | JNull => Throw (Error ("Cannot read properties of null (reading '" +:+ k +:+ "')"))
  | JObj o => Ret (own_prop o k)
  | _ => Ret undefined
  end.

(** Decimal rendering of an integer, as [String(n)] does. *)
Definition string_of_Z (n : Z) : string := NilZero.string_of_int (Z.to_int n).

(** [String(v)] for a JSON value, as a template literal [`${v}`] computes it. *)
Fixpoint toString (v : json) : string :=
  match v with
  | JNull => "null"
  | JBool true => "true"
  | JBool false => "false"
  | JNum n => string_of_Z n
  | JStr s => s
  | JArr l =>
      (fix join (l : list json) : string :=
         match l with
         | [] => EmptyString
         | [x] => match x with JNull => EmptyString | _ => toString x end
         | x :: l' => (match x with JNull => EmptyString | _ => toString x end) +:+ "," +:+ join l'
         end) l
  | JObj _ => "[object Object]"
  end.

(** Is [k] an array index (a canonical decimal numeral below 2^32 - 1)?
    Such keys come first, in ascending order, in the property order. *)
Definition is_digit (c : ascii) : bool :=
  (48 <=? Z.of_nat (nat_of_ascii c)) && (Z.of_nat (nat_of_ascii c) <=? 57).

Fixpoint digits_value (acc : Z) (s : string) : option Z :=
  match s with
  | EmptyString => Some acc
  | String c s' =>
      if is_digit c then digits_value (10 * acc + (Z.of_nat (nat_of_ascii c) - 48)) s'
      else None
  end.

Definition array_index (k : string) : option Z :=
  match k with
  | EmptyString => None
  | String c k' =>
      if (Ascii.eqb c "0") && negb (String.eqb k' EmptyString) then None
      else match digits_value 0 k with
           | Some n => if n <? 2 ^ 32 - 1 then Some n else None
           | None => None
           end
  end.

(** Where a new property [k] goes: before the first property that is not an
    array index, or whose index is larger, when [k] is an array index; at
    the end otherwise. *)
Fixpoint add_prop (o : list (string * json)) (k : string) (v : json) : list (string * json) :=
  match o with
  | [] => [(k, v)]
  | (k', v') :: o' =>
      match array_index k, array_index k' with
      | Some n, Some n' => if n <? n' then (k, v) :: o else (k', v') :: add_prop o' k v
      | Some _, None => (k, v) :: o
      | None, _ => (k', v') :: add_prop o' k v
      end
  end.

Fixpoint replace_prop (o : list (string * json)) (k : string) (v : json) : list (string * json) :=
  match o with
  | [] => []
  | (k', v') :: o' => if String.eqb k' k then (k, v) :: o' else (k', v') :: replace_prop o' k v
  end.

(** Defining a property by assignment, [o[k] = v] on a plain object: an
    existing property keeps its place and takes the new value, a new one is
    added. *)
Definition set_prop (o : list (string * json)) (k : string) (v : json) : list (string * json) :=
  match own_prop o k with
  | undefined => add_prop o k v
  | val _ => replace_prop o k v
  end.

Fixpoint indexed (i : Z) (l : list json) : list (string * json) :=
  match l with
  | [] => []
  | x :: l' => (string_of_Z i, x) :: indexed (i + 1) l'
  end.

Fixpoint chars (s : string) : list json :=
  match s with
  | EmptyString => []
  | String c s' => JStr (String c EmptyString) :: chars s'
  end.

(** The own enumerable properties that an object spread [{...v}] copies. *)
Definition spread (v : json) : list (string * json) :=
  match v with
  | JObj o => o
  | JArr l => indexed 0 l
  | JStr s => indexed 0 (chars s)
  | _ => []
  end.

(** The values a [for (const x of v)] loop visits; a value that is not
    iterable throws a TypeError. *)
Definition iterate (v : json) : outcome (list json) :=
  match v with
  | JArr l => Ret l
  | JStr s => Ret (chars s)
  | _ => Throw (Error "keys is not iterable")
  end.

(** [keys.push(x)]: only an array has the method. *)
Definition push (v : json) (x : json) : outcome json :=
  match v with
  | JArr l => Ret (JArr (l ++ [x]))
  | _ => Throw (Error "keys.push is not a function")
  end.

(** [s.toLowerCase()] on 8-bit characters: the letters A-Z are lowered. *)
Definition lower_char (c : ascii) : ascii :=
  let n := nat_of_ascii c in
  if (65 <=? Z.of_nat n) && (Z.of_nat n <=? 90) then ascii_of_nat (n + 32) else c.

Fixpoint toLowerCase (s : string) : string :=
  match s with
  | EmptyString => EmptyString
  | String c s' => String (lower_char c) (toLowerCase s')
  end.

(** [v.toLowerCase()] on a value: only strings have the method. *)
Definition value_toLowerCase (v : value) : outcome string :=
  match v with
  | val (JStr s) => Ret (toLowerCase s)
  | undefined => Throw (Error "Cannot read properties of undefined (reading 'toLowerCase')")
  | val JNull => Throw (Error "Cannot read properties of null (reading 'toLowerCase')")
  | val _ => Throw (Error "address.toLowerCase is not a function")
  end.

(** [s.includes(sub)] *)
Fixpoint includes (s sub : string) : bool :=
  String.prefix sub s ||
  match s with
  | EmptyString => false
  | String _ s' => includes s' sub
  end.

(* ===================================================================== *)
(** ** The platform *)
(* ===================================================================== *)

(** The library functions the component calls: [JSON.parse] and
    [JSON.stringify], ethers' [toUtf8String] and [toUtf8Bytes], [btoa], and
    the conversion to a number that [-] applies to its operands. The
    operations are defined over any such platform; [js] below is a concrete
    one. *)
Class Runtime := {
  JSON_parse : string -> outcome json;
  JSON_stringify : json -> string;
  toUtf8String : string -> outcome string;
  toUtf8Bytes : string -> string;
  btoa : string -> outcome string;
  toNumber : value -> number
}.

(** [x - y] *)
Definition minus `{Runtime} (x y : value) : number :=
  match toNumber x, toNumber y with
  | Num p, Num q => Num (p - q)
  | _, _ => NaN
  end.

(* ===================================================================== *)
(** ** Component state *)
(* ===================================================================== *)

(** [interface ArtworkRecord]. The fields hold whatever the parsed blob
    held, so they are values, not the types the interface declares. *)
Module Artwork.
Record t := {
  id : json;
  encryptedData : value;
  timestamp : value;
  owner : value;
  artworkName : value;
  status : value
}.
End Artwork.

(** The [transactionStatus] state. *)
Module Tx.
Inductive kind := pending | success | error.
Record t := { visible : bool; status : kind; message : string }.
End Tx.

(** The [newArtworkData] state. *)
Module Form.
Record t := { artworkName : string; description : string; hyperspectralData : string }.

(** The object that [JSON.stringify(newArtworkData)] serialises. *)
Definition to_json (f : t) : json :=
  JObj [("artworkName", JStr (artworkName f));
        ("description", JStr (description f));
        ("hyperspectralData", JStr (hyperspectralData f))].
End Form.

(** The [useState] cells of [App] that the operations read or write.
    [provider] is [true] when the provider is not [null]. *)
Record AppState := {
  account : string;
  provider : bool;
  loading : bool;
  artworks : list Artwork.t;
  isRefreshing : bool;
  showUploadModal : bool;
  uploading : bool;
  transactionStatus : Tx.t;
  newArtworkData : Form.t
}.

Definition with_loading (b : bool) (s : AppState) : AppState :=
  {| account := account s; provider := provider s; loading := b;
     artworks := artworks s; isRefreshing := isRefreshing s;
     showUploadModal := showUploadModal s; uploading := uploading s;
     transactionStatus := transactionStatus s; newArtworkData := newArtworkData s |}.

Definition with_artworks (l : list Artwork.t) (s : AppState) : AppState :=
  {| account := account s; provider := provider s; loading := loading s;
     artworks := l; isRefreshing := isRefreshing s;
     showUploadModal := showUploadModal s; uploading := uploading s;
     transactionStatus := transactionStatus s; newArtworkData := newArtworkData s |}.

Definition with_isRefreshing (b : bool) (s : AppState) : AppState :=
  {| account := account s; provider := provider s; loading := loading s;
     artworks := artworks s; isRefreshing := b;
     showUploadModal := showUploadModal s; uploading := uploading s;
     transactionStatus := transactionStatus s; newArtworkData := newArtworkData s |}.

Definition with_uploading (b : bool) (s : AppState) : AppState :=
  {| account := account s; provider := provider s; loading := loading s;
     artworks := artworks s; isRefreshing := isRefreshing s;
     showUploadModal := showUploadModal s; uploading := b;
     transactionStatus := transactionStatus s; newArtworkData := newArtworkData s |}.

Definition with_transactionStatus (t : Tx.t) (s : AppState) : AppState :=
  {| account := account s; provider := provider s; loading := loading s;
     artworks := artworks s; isRefreshing := isRefreshing s;
     showUploadModal := showUploadModal s; uploading := uploading s;
     transactionStatus := t; newArtworkData := newArtworkData s |}.

(* ===================================================================== *)
(** ** The ledger client *)
(* ===================================================================== *)

(** Modelled from the spec: the module [./contract] and the deployed
    key/value contract are not part of the sources. Section 6 of the
    specification gives the client's contract: [get] returns the empty byte
    sequence for an absent key and does not throw, [set] acknowledges or
    fails with an error that carries a reason, [isAvailable] is a probe.
    [has_reader] and [has_signer] tell whether [getContractReadOnly()] and
    [getContractWithSigner()] yield a contract rather than [null];
    [write_faults] scripts the outcome of the coming [setData] calls, oldest
    first: [None] acknowledges, [Some m] throws an error with message [m],
    and past the end of the script every write is acknowledged. *)
Record Ledger := {
  has_reader : bool;
  has_signer : bool;
  available : bool;
  store : gmap string string;
  write_faults : list (option string)
}.

Variant Contract := contract_handle.

(** What the outside world can observe of a run. *)
Inductive event : Type :=
| isAvailable_call (result : bool)
| getData_call (key : string) (result : string)
| setData_call (key : string) (bytes : string) (failure : option string)
| alert_call (msg : string)
| console_error (msg : string).

(** [log] holds the events of the run so far, most recent first. *)
Record World := {
  app : AppState;
  ledger : Ledger;
  log : list event
}.

(** The events in the order in which they happened. *)
Definition trace (w : World) : list event := rev (log w).

(* ===================================================================== *)
(** ** Sequential code with state and exceptions *)
(* ===================================================================== *)

Definition M (A : Type) : Type := World -> outcome A * World.

#[global] Instance outcome_ret : MRet outcome := fun A a => Ret a.
#[global] Instance outcome_bind : MBind outcome := fun A B f o =>
  match o with
  | Ret a => f a
  | Throw e => Throw e
  end.

#[global] Instance M_ret : MRet M := fun A a w => (Ret a, w).
#[global] Instance M_bind : MBind M := fun A B f m w =>
  match m w with
  | (Ret a, w') => f a w'
  | (Throw e, w') => (Throw e, w')
  end.

Definition throw {A} (e : exn) : M A := fun w => (Throw e, w).

Definition lift {A} (o : outcome A) : M A := fun w => (o, w).

(** [try { body } catch (e) { handler }] *)
Definition try_catch {A} (body : M A) (handler : exn -> M A) : M A := fun w =>
  match body w with
  | (Ret a, w') => (Ret a, w')
  | (Throw e, w') => handler e w'
  end.

(** [try { body } finally { fin }] *)
Definition try_finally {A} (body : M A) (fin : M unit) : M A := fun w =>
  match body w with
  | (r, w') =>
      match fin w' with
      | (Ret _, w'') => (r, w'')
      | (Throw e, w'') => (Throw e, w'')
      end
  end.

(** The body of a [for ... of] loop that threads a local variable. *)
Fixpoint for_of {A B} (l : list A) (body : B -> A -> M B) (acc : B) : M B :=
  match l with
  | [] => mret acc
  | x :: l' => acc' ← body acc x; for_of l' body acc'
  end.

Definition get_app : M AppState := fun w => (Ret (app w), w).

Definition modify_app (f : AppState -> AppState) : M unit := fun w =>
  (Ret tt, {| app := f (app w); ledger := ledger w; log := log w |}).

Definition emit (e : event) : M unit := fun w =>
  (Ret tt, {| app := app w; ledger := ledger w; log := e :: log w |}).

Definition setLoading b := modify_app (with_loading b).
Definition setArtworks l := modify_app (with_artworks l).
Definition setIsRefreshing b := modify_app (with_isRefreshing b).
Definition setUploading b := modify_app (with_uploading b).
Definition setTransactionStatus t := modify_app (with_transactionStatus t).

Definition alert (msg : string) : M unit := emit (alert_call msg).
Definition console_error_ (msg : string) : M unit := emit (console_error msg).

(** *** Calls on the contract *)

Definition getContractReadOnly : M (option Contract) := fun w =>
  (Ret (if has_reader (ledger w) then Some contract_handle else None), w).

Definition getContractWithSigner : M (option Contract) := fun w =>
  (Ret (if has_signer (ledger w) then Some contract_handle else None), w).

Definition isAvailable (c : Contract) : M bool := fun w =>
  let b := available (ledger w) in
  (Ret b, {| app := app w; ledger := ledger w; log := isAvailable_call b :: log w |}).

Definition read (L : Ledger) (key : string) : string := default EmptyString (store L !! key).

Definition getData (c : Contract) (key : string) : M string := fun w =>
  let v := read (ledger w) key in
  (Ret v, {| app := app w; ledger := ledger w; log := getData_call key v :: log w |}).

Definition write (L : Ledger) (key bytes : string) : Ledger :=
  {| has_reader := has_reader L; has_signer := has_signer L; available := available L;
     store := <[key := bytes]> (store L); write_faults := tail (write_faults L) |}.

Definition refuse (L : Ledger) : Ledger :=
  {| has_reader := has_reader L; has_signer := has_signer L; available := available L;
     store := store L; write_faults := tail (write_faults L) |}.

Definition setData (c : Contract) (key bytes : string) : M unit := fun w =>
  match write_faults (ledger w) with
  | Some m :: _ =>
      (Throw (Error m),
       {| app := app w; ledger := refuse (ledger w);
          log := setData_call key bytes (Some m) :: log w |})
  | _ =>
      (Ret tt,
       {| app := app w; ledger := write (ledger w) key bytes;
          log := setData_call key bytes None :: log w |})
  end.

(* ===================================================================== *)
(** ** The operations of [App] *)
(* ===================================================================== *)

Section Operations.
Context `{Runtime}.

(** [(a, b) => b.timestamp - a.timestamp] *)
Definition byTimestampDesc (a b : Artwork.t) : number :=
  minus (Artwork.timestamp b) (Artwork.timestamp a).

(** [list.sort(cmp)]: a stable sort; [x] moves behind [y] only when
    [cmp(x, y) > 0], and a [NaN] result counts as 0. For a comparator
    that is a consistent ordering every stable sort gives this result.
    When a timestamp does not convert to a number the comparator is not
    consistent and the order an engine produces is implementation-defined:
    the properties below rely on the order only for timestamps that
    convert to numbers, and otherwise only on the result being a
    permutation of the input. *)
Definition goes_after (cmp : Artwork.t -> Artwork.t -> number) (x y : Artwork.t) : bool :=
  match cmp x y with
  | Num d => 0 <? d
  | NaN => false
  end.

Fixpoint sort_insert cmp (x : Artwork.t) (l : list Artwork.t) : list Artwork.t :=
  match l with
  | [] => [x]
  | y :: l' => if goes_after cmp x y then y :: sort_insert cmp x l' else x :: l
  end.

Definition Array_sort cmp (l : list Artwork.t) : list Artwork.t :=
  foldr (sort_insert cmp) [] l.

(** [JSON.parse(ethers.toUtf8String(bytes))] *)
Definition decode (bytes : string) : outcome json :=
  s ← toUtf8String bytes; JSON_parse s.

(** [ethers.toUtf8Bytes(JSON.stringify(v))] *)
Definition encode (v : json) : string := toUtf8Bytes (JSON_stringify v).

(** The object literal pushed on [list] (lines 111-118): the five property
    reads happen before the push. *)
Definition toRecord (key : json) (artworkData : json) : outcome Artwork.t :=
  data ← get_prop artworkData "data";
  timestamp ← get_prop artworkData "timestamp";
  owner ← get_prop artworkData "owner";
  artworkName ← get_prop artworkData "artworkName";
  status ← get_prop artworkData "status";
  mret {| Artwork.id := key;
          Artwork.encryptedData := data;
          Artwork.timestamp := timestamp;
          Artwork.owner := owner;
          Artwork.artworkName := artworkName;
          Artwork.status := or_else status (val (JStr "pending")) |}.

(** The body of the loop over [keys] (lines 106-125); [lst] is the
    local array [list]. *)
Definition loadOne (contract : Contract) (lst : list Artwork.t) (key : json)
  : M (list Artwork.t) :=
  try_catch
    (artworkBytes ← getData contract ("artwork_" +:+ toString key);
     if (0 <? String.length artworkBytes)%nat then
       try_catch
         (artworkData ← lift (decode artworkBytes);
          r ← lift (toRecord key artworkData);
          mret (lst ++ [r]))
         (fun e =>
            console_error_ ("Error parsing artwork data for " +:+ toString key +:+ ":");;
            mret lst)
     else mret lst)
    (fun e =>
       console_error_ ("Error loading artwork " +:+ toString key +:+ ":");;
       mret lst).

(** Lines 92-101 and 176-185: the index blob, parsed when it is not
    empty; [keys] stays [[]] when it is empty or does not parse. *)
Definition readKeys (contract : Contract) (complaint : string) : M json :=
  keysBytes ← getData contract "artwork_keys";
  if (0 <? String.length keysBytes)%nat then
    try_catch
      (lift (decode keysBytes))
      (fun e => console_error_ complaint;; mret (JArr []))
  else mret (JArr []).

(** [const loadArtworks = async () => ...] (lines 79-136). The early
    [return]s inside the [try] leave through the [finally] block. *)
Definition loadArtworks : M unit :=
  setIsRefreshing true;;
  try_finally
    (try_catch
       (contract ← getContractReadOnly;
        match contract with
        | None => mret tt
        | Some contract =>
            isAvail ← isAvailable contract;
            if negb isAvail then console_error_ "Contract is not available"
            else
              keys ← readKeys contract "Error parsing artwork keys:";
              ks ← lift (iterate keys);
              lst ← for_of ks (loadOne contract) [];
              setArtworks (Array_sort byTimestampDesc lst)
        end)
       (fun e => console_error_ "Error loading artworks:"))
    (setIsRefreshing false;; setLoading false).

(** [e.message || "Unknown error"] *)
Definition message_or_unknown (e : exn) : string :=
  if String.eqb (message e) EmptyString then "Unknown error" else message e.

(** [const uploadArtwork = async () => ...] (lines 138-228).
    [now_id] and [now_ts] are what [Date.now()] returns at lines 160 and
    164, [suffix] is [Math.random().toString(36).substring(2, 9)]. The
    [setTimeout] callbacks run after the operation has finished and only
    reset the notification and the form; they are not part of it. *)
Definition uploadArtwork (now_id now_ts : Z) (suffix : string) : M unit :=
  st ← get_app;
  if negb (provider st) then alert "Please connect wallet first"
  else
    setUploading true;;
    setTransactionStatus
      {| Tx.visible := true; Tx.status := Tx.pending;
         Tx.message := "Encrypting hyperspectral data with FHE..." |};;
    try_finally
      (try_catch
         (b64 ← lift (btoa (JSON_stringify (Form.to_json (newArtworkData st))));
          let encryptedData := "FHE-" +:+ b64 in
          contract ← getContractWithSigner;
          match contract with
          | None => throw (Error "Failed to get contract with signer")
          | Some contract =>
              let artworkId := string_of_Z now_id +:+ "-" +:+ suffix in
              let artworkData :=
                JObj [("data", JStr encryptedData);
                      ("timestamp", JNum (now_ts / 1000));
                      ("owner", JStr (account st));
                      ("artworkName", JStr (Form.artworkName (newArtworkData st)));
                      ("status", JStr "pending")] in
              setData contract ("artwork_" +:+ artworkId) (encode artworkData);;
              keys ← readKeys contract "Error parsing keys:";
              keys' ← lift (push keys (JStr artworkId));
              setData contract "artwork_keys" (encode keys');;
              setTransactionStatus
                {| Tx.visible := true; Tx.status := Tx.success;
                   Tx.message := "Encrypted data submitted securely!" |};;
              loadArtworks
          end)
         (fun e =>
            let errorMessage :=
              if includes (message e) "user rejected transaction"
              then "Transaction rejected by user"
              else "Submission failed: " +:+ message_or_unknown e in
            setTransactionStatus
              {| Tx.visible := true; Tx.status := Tx.error;
                 Tx.message := errorMessage |}))
      (setUploading false).

(** [markAsAuthentic] (lines 230-290) and [markAsForgery] (lines 292-352)
    are the same code up to the status written and the two messages.
    The three-second wait at the start of the [try] changes nothing, and
    the [setTimeout] callbacks that hide the notification run after the
    operation has finished. *)
Definition markAs (newStatus done failed : string) (artworkId : json) : M unit :=
  st ← get_app;
  if negb (provider st) then alert "Please connect wallet first"
  else
    setTransactionStatus
      {| Tx.visible := true; Tx.status := Tx.pending;
         Tx.message := "Processing encrypted data with FHE..." |};;
    try_catch
      (contract ← getContractWithSigner;
       match contract with
       | None => throw (Error "Failed to get contract with signer")
       | Some contract =>
           artworkBytes ← getData contract ("artwork_" +:+ toString artworkId);
           if (String.length artworkBytes =? 0)%nat then throw (Error "Artwork not found")
           else
             artworkData ← lift (decode artworkBytes);
             let updatedArtwork :=
               JObj (set_prop (spread artworkData) "status" (JStr newStatus)) in
             setData contract ("artwork_" +:+ toString artworkId) (encode updatedArtwork);;
             setTransactionStatus
               {| Tx.visible := true; Tx.status := Tx.success; Tx.message := done |};;
             loadArtworks
       end)
      (fun e =>
         setTransactionStatus
           {| Tx.visible := true; Tx.status := Tx.error;
              Tx.message := failed +:+ message_or_unknown e |}).

Definition markAsAuthentic : json -> M unit :=
  markAs "authentic" "FHE verification completed - Artwork is authentic!"
         "Verification failed: ".

Definition markAsForgery : json -> M unit :=
  markAs "forgery" "FHE analysis completed - Artwork is a forgery!"
         "Analysis failed: ".

(** *** The view *)

(** [const isOwner = (address) => account.toLowerCase() === address.toLowerCase()] *)
Definition isOwner (st : AppState) (address : value) : outcome bool :=
  a ← value_toLowerCase address;
  mret (String.eqb (toLowerCase (account st)) a).

(** The buttons of a record card. *)
Inductive button : Type :=
| MarkAuthentic (artworkId : json)
| MarkForgery (artworkId : json).

(** The [artwork-actions] block of a card (lines 534-549):
    [isOwner(artwork.owner) && artwork.status === "pending" && (...)]. *)
Definition artworkActions (st : AppState) (artwork : Artwork.t) : outcome (list button) :=
  own ← isOwner st (Artwork.owner artwork);
  if own && strict_eq_str (Artwork.status artwork) "pending"
  then mret [MarkAuthentic (Artwork.id artwork); MarkForgery (Artwork.id artwork)]
  else mret [].

(** The [onClick] handlers of the two buttons. *)
Definition onClick (b : button) : M unit :=
  match b with
  | MarkAuthentic artworkId => markAsAuthentic artworkId
  | MarkForgery artworkId => markAsForgery artworkId
  end.

End Operations.

(* ===================================================================== *)
(** ** A concrete platform *)
(* ===================================================================== *)

(** The library functions on 8-bit strings and integer numbers. A JSON
    text with a fraction, an exponent or a [\u] escape of a surrogate is
    outside this model and is rejected; [toUtf8String] and [toUtf8Bytes]
    are the identity. *)
Module JS.

Definition code (c : ascii) : Z := Z.of_nat (nat_of_ascii c).
Definition char_of (n : Z) : ascii := ascii_of_nat (Z.to_nat n).

Definition is_ws (c : ascii) : bool :=
  Z.eqb (code c) 32 || Z.eqb (code c) 9 || Z.eqb (code c) 10 || Z.eqb (code c) 13.

Fixpoint skip_ws (s : string) : string :=
  match s with
  | String c s' => if is_ws c then skip_ws s' else s
  | EmptyString => s
  end.

Definition hex_value (c : ascii) : option Z :=
  let n := code c in
  if (48 <=? n) && (n <=? 57) then Some (n - 48)
  else if (97 <=? n) && (n <=? 102) then Some (n - 87)
  else if (65 <=? n) && (n <=? 70) then Some (n - 55)
  else None.

(** The UTF-8 bytes of a code point of the basic plane. *)
Definition utf8 (cp : Z) : option string :=
  if cp <? 128 then Some (String (char_of cp) EmptyString)
  else if cp <? 2048 then
    Some (String (char_of (192 + cp / 64)) (String (char_of (128 + cp mod 64)) EmptyString))
  else if (55296 <=? cp) && (cp <=? 57343) then None
  else
    Some (String (char_of (224 + cp / 4096))
            (String (char_of (128 + (cp / 64) mod 64))
               (String (char_of (128 + cp mod 64)) EmptyString))).

Definition simple_escape (c : ascii) : option ascii :=
  let n := code c in
  if Z.eqb n 34 then Some (char_of 34)
  else if Z.eqb n 92 then Some (char_of 92)
  else if Z.eqb n 47 then Some (char_of 47)
  else if Z.eqb n 98 then Some (char_of 8)
  else if Z.eqb n 102 then Some (char_of 12)
  else if Z.eqb n 110 then Some (char_of 10)
  else if Z.eqb n 114 then Some (char_of 13)
  else if Z.eqb n 116 then Some (char_of 9)
  else None.

(** The characters of a string literal after its opening quote, and what
    follows the closing quote. *)
Fixpoint string_body (s : string) : option (string * string) :=
  match s with
  | EmptyString => None
  | String c r =>
      if Z.eqb (code c) 34 then Some (EmptyString, r)
      else if Z.eqb (code c) 92 then
        match r with
        | String e r' =>
            match simple_escape e with
            | Some ch =>
                match string_body r' with
                | Some (t, rest) => Some (String ch t, rest)
                | None => None
                end
            | None =>
                if Z.eqb (code e) 117 then
                  match r' with
                  | String h1 (String h2 (String h3 (String h4 r''))) =>
                      match hex_value h1, hex_value h2, hex_value h3, hex_value h4 with
                      | Some a, Some b, Some c', Some d =>
                          match utf8 (((a * 16 + b) * 16 + c') * 16 + d), string_body r'' with
                          | Some u, Some (t, rest) => Some (u +:+ t, rest)
                          | _, _ => None
                          end
                      | _, _, _, _ => None
                      end
                  | _ => None
                  end
                else None
            end
        | EmptyString => None
        end
      else if code c <? 32 then None
      else
        match string_body r with
        | Some (t, rest) => Some (String c t, rest)
        | None => None
        end
  end.

Fixpoint span_digits (s : string) : string * string :=
  match s with
  | String c r =>
      if is_digit c then let '(d, rest) := span_digits r in (String c d, rest)
      else (EmptyString, s)
  | EmptyString => (EmptyString, s)
  end.

Definition starts_fraction (s : string) : bool :=
  match s with
  | String c _ => Z.eqb (code c) 46 || Z.eqb (code c) 101 || Z.eqb (code c) 69
  | EmptyString => false
  end.

(** An integer literal: an optional minus sign and digits without a
    leading zero. *)
Definition number_literal (s : string) : option (Z * string) :=
  let '(neg, s1) :=
    match s with
    | String c r => if Z.eqb (code c) 45 then (true, r) else (false, s)
    | EmptyString => (false, s)
    end in
  let '(d, rest) := span_digits s1 in
  match d with
  | EmptyString => None
  | String c d' =>
      if Z.eqb (code c) 48 && negb (String.eqb d' EmptyString) then None
      else if starts_fraction rest then None
      else match digits_value 0 d with
           | Some n => Some (if neg then - n else n, rest)
           | None => None
           end
  end.

Definition keyword (k : string) (v : json) (s : string) : option (json * string) :=
  if String.prefix k s
  then Some (v, String.substring (String.length k) (String.length s - String.length k) s)
  else None.

Fixpoint parse_value (fuel : nat) (s : string) {struct fuel} : option (json * string) :=
  match fuel with
  | O => None
  | S fuel' =>
      match skip_ws s with
      | EmptyString => None
      | String c r =>
          let n := code c in
          if Z.eqb n 110 then keyword "null" JNull (String c r)
          else if Z.eqb n 116 then keyword "true" (JBool true) (String c r)
          else if Z.eqb n 102 then keyword "false" (JBool false) (String c r)
          else if Z.eqb n 34 then
            match string_body r with
            | Some (t, rest) => Some (JStr t, rest)
            | None => None
            end
          else if Z.eqb n 91 then
            match skip_ws r with
            | String c' r' =>
                if Z.eqb (code c') 93 then Some (JArr [], r')
                else parse_elements fuel' r []
            | EmptyString => None
            end
          else if Z.eqb n 123 then
            match skip_ws r with
            | String c' r' =>
                if Z.eqb (code c') 125 then Some (JObj [], r')
                else parse_members fuel' r []
            | EmptyString => None
            end
          else
            match number_literal (String c r) with
            | Some (z, rest) => Some (JNum z, rest)
            | None => None
            end
      end
  end
with parse_elements (fuel : nat) (s : string) (acc : list json) {struct fuel}
  : option (json * string) :=
  match fuel with
  | O => None
  | S fuel' =>
      match parse_value fuel' s with
      | Some (v, rest) =>
          match skip_ws rest with
          | String c r =>
              if Z.eqb (code c) 44 then parse_elements fuel' r (acc ++ [v])
              else if Z.eqb (code c) 93 then Some (JArr (acc ++ [v]), r)
              else None
          | EmptyString => None
          end
      | None => None
      end
  end
with parse_members (fuel : nat) (s : string) (acc : list (string * json)) {struct fuel}
  : option (json * string) :=
  match fuel with
  | O => None
  | S fuel' =>
      match skip_ws s with
      | String q r =>
          if Z.eqb (code q) 34 then
            match string_body r with
            | Some (k, rest) =>
                match skip_ws rest with
                | String colon r1 =>
                    if Z.eqb (code colon) 58 then
                      match parse_value fuel' r1 with
                      | Some (v, rest') =>
                          match skip_ws rest' with
                          | String c r2 =>
                              if Z.eqb (code c) 44 then parse_members fuel' r2 (set_prop acc k v)
                              else if Z.eqb (code c) 125 then Some (JObj (set_prop acc k v), r2)
                              else None
                          | EmptyString => None
                          end
                      | None => None
                      end
                    else None
                | EmptyString => None
                end
            | None => None
            end
          else None
      | EmptyString => None
      end
  end.

Definition parse (s : string) : outcome json :=
  match parse_value (S (String.length s)) s with
  | Some (v, rest) =>
      match skip_ws rest with
      | EmptyString => Ret v
      | _ => Throw (Error "Unexpected non-whitespace character after JSON")
      end
  | None => Throw (Error "Unexpected token in JSON")
  end.

Definition hex_digit (n : Z) : ascii :=
  if n <? 10 then char_of (48 + n) else char_of (87 + n).

Definition escape_char (c : ascii) : string :=
  let n := code c in
  if Z.eqb n 34 then String (char_of 92) (String (char_of 34) EmptyString)
  else if Z.eqb n 92 then "\\"
  else if Z.eqb n 8 then "\b"
  else if Z.eqb n 12 then "\f"
  else if Z.eqb n 10 then "\n"
  else if Z.eqb n 13 then "\r"
  else if Z.eqb n 9 then "\t"
  else if n <? 32 then "\u00" +:+ String (hex_digit (n / 16)) (String (hex_digit (n mod 16)) EmptyString)
  else String c EmptyString.

Fixpoint escape (s : string) : string :=
  match s with
  | EmptyString => EmptyString
  | String c s' => escape_char c +:+ escape s'
  end.

Definition quote (s : string) : string :=
  String (char_of 34) (escape s) +:+ String (char_of 34) EmptyString.

Fixpoint commas (l : list string) : string :=
  match l with
  | [] => EmptyString
  | [x] => x
  | x :: l' => x +:+ "," +:+ commas l'
  end.

Fixpoint stringify (v : json) : string :=
  match v with
  | JNull => "null"
  | JBool true => "true"
  | JBool false => "false"
  | JNum n => string_of_Z n
  | JStr s => quote s
  | JArr l => "[" +:+ commas (map stringify l) +:+ "]"
  | JObj o =>
      "{" +:+ commas (map (fun kv => quote (fst kv) +:+ ":" +:+ stringify (snd kv)) o) +:+ "}"
  end.

Definition alphabet : string :=
  "ABCDEFGHIJKLMNOPQRSTUVWXYZabcdefghijklmnopqrstuvwxyz0123456789+/".

Definition sextet (n : Z) : ascii :=
  match String.get (Z.to_nat (n mod 64)) alphabet with
  | Some c => c
  | None => char_of 61
  end.

Fixpoint base64 (s : string) : string :=
  match s with
  | String a (String b (String c r)) =>
      let n := (code a * 256 + code b) * 256 + code c in
      String (sextet (n / 262144)) (String (sextet (n / 4096))
        (String (sextet (n / 64)) (String (sextet n) (base64 r))))
  | String a (String b EmptyString) =>
      let n := (code a * 256 + code b) * 256 in
      String (sextet (n / 262144)) (String (sextet (n / 4096))
        (String (sextet (n / 64)) "="))
  | String a EmptyString =>
      let n := code a * 65536 in
      String (sextet (n / 262144)) (String (sextet (n / 4096)) "==")
  | EmptyString => EmptyString
  end.

Fixpoint trim_left (s : string) : string :=
  match s with
  | String c s' => if is_ws c then trim_left s' else s
  | EmptyString => s
  end.

Fixpoint trim_right (s : string) : string :=
  match s with
  | String c s' =>
      match trim_right s' with
      | EmptyString => if is_ws c then EmptyString else String c EmptyString
      | t => String c t
      end
  | EmptyString => EmptyString
  end.

(** A string as a number: blank is 0, a signed run of decimal digits is
    its value, anything else is [NaN]. *)
Definition string_to_number (s : string) : number :=
  match trim_right (trim_left s) with
  | EmptyString => Num 0
  | String c r =>
      let '(neg, d) :=
        if Z.eqb (code c) 45 then (true, r)
        else if Z.eqb (code c) 43 then (false, r)
        else (false, String c r) in
      match d with
      | EmptyString => NaN
      | _ => match digits_value 0 d with
             | Some n => Num (if neg then - n else n)
             | None => NaN
             end
      end
  end.

Definition to_number (v : value) : number :=
  match v with
  | undefined => NaN
  | val JNull => Num 0
  | val (JBool b) => Num (if b then 1 else 0)
  | val (JNum n) => Num n
  | val (JStr s) => string_to_number s
  | val (JArr l) => string_to_number (toString (JArr l))
  | val (JObj _) => NaN
  end.

End JS.

Definition js : Runtime :=
  {| JSON_parse := JS.parse;
     JSON_stringify := JS.stringify;
     toUtf8String := fun bytes => Ret bytes;
     toUtf8Bytes := fun s => s;
     btoa := fun s => Ret (JS.base64 s);
     toNumber := JS.to_number |}.

(* ===================================================================== *)
(** ** Observing a run *)
(* ===================================================================== *)

(** The events of a run from [w] to [w'], most recent first. *)
Definition new_events (w w' : World) : list event :=
  take (length (log w') - length (log w)) (log w').

(** Is [e] a [setData] call? *)
Definition is_write (e : event) : bool :=
  match e with
  | setData_call _ _ _ => true
  | _ => false
  end.

(** The [setData] calls among the events [evs] (most recent first), in the
    order in which they were made. *)
Definition writes (evs : list event) : list event := List.filter is_write (rev evs).

(** What the next [setData] call will meet. *)
Definition next_fault (L : Ledger) : option string :=
  match write_faults L with
  | Some m :: _ => Some m
  | _ => None
  end.

(** The ledger after a [setData] call. *)
Definition after_write (L : Ledger) (key bytes : string) : Ledger :=
  match next_fault L with
  | Some _ => refuse L
  | None => write L key bytes
  end.

(** The message [uploadArtwork] shows for a caught error. *)
Definition submissionError (e : exn) : string :=
  if includes (message e) "user rejected transaction"
  then "Transaction rejected by user"
  else "Submission failed: " +:+ message_or_unknown e.

(** The object [uploadArtwork] stores for a new record. *)
Definition uploadedRecord (st : AppState) (encoded : string) (now_ts : Z) : json :=
  JObj [("data", JStr ("FHE-" +:+ encoded));
        ("timestamp", JNum (now_ts / 1000));
        ("owner", JStr (account st));
        ("artworkName", JStr (Form.artworkName (newArtworkData st)));
        ("status", JStr "pending")].

(** Does [s] contain a dash? *)
Fixpoint has_dash (s : string) : bool :=
  match s with
  | EmptyString => false
  | String c s' => Ascii.eqb c "-" || has_dash s'
  end.

(** The notification is visible with status [k] and text [msg]. *)
Definition shows (s : AppState) (k : Tx.kind) (msg : string) : Prop :=
  transactionStatus s = {| Tx.visible := true; Tx.status := k; Tx.message := msg |}.

(* ===================================================================== *)
(** ** What a refresh is meant to compute *)
(* ===================================================================== *)

(** The specification describes a refresh as a fold of a pure
    "parse the record of this id" over the index that keeps the successes
    (sections 4.1 and 9). These definitions follow that description; the
    theorems below compare them with [loadArtworks]. *)
Section Refresh.
Context `{Runtime}.

(** The record of one id: nothing when the blob is absent, when it does
    not decode, or when the decoded value has no properties to read. *)
Definition fetched (L : Ledger) (key : json) : option Artwork.t :=
  let bytes := read L ("artwork_" +:+ toString key) in
  if (0 <? String.length bytes)%nat then
    match decode bytes ≫= toRecord key with
    | Ret r => Some r
    | Throw _ => None
    end
  else None.

(** The index: empty when the blob is absent or does not decode. *)
Definition index (L : Ledger) : json :=
  let bytes := read L "artwork_keys" in
  if (0 <? String.length bytes)%nat then
    match decode bytes with
    | Ret keys => keys
    | Throw _ => JArr []
    end
  else JArr [].

(** The record store a refresh installs; [None] when the refresh gives up
    before installing one. *)
Definition refreshed (L : Ledger) : option (list Artwork.t) :=
  if has_reader L && available L then
    match iterate (index L) with
    | Ret ks => Some (Array_sort byTimestampDesc (omap (fetched L) ks))
    | Throw _ => None
    end
  else None.

(** [a] is listed before [b] by the comparator: both timestamps convert
    to numbers and the one of [a] is not the smaller. *)
Definition not_older (a b : Artwork.t) : Prop :=
  exists p q,
    toNumber (Artwork.timestamp a) = Num p
    /\ toNumber (Artwork.timestamp b) = Num q
    /\ q <= p.

(** The component state after a refresh. *)
Definition refresh_app (L : Ledger) (s : AppState) : AppState :=
  with_loading false
    (with_isRefreshing false
       (match refreshed L with
        | Some l => with_artworks l (with_isRefreshing true s)
        | None => with_isRefreshing true s
        end)).


(** The ways a call of [uploadArtwork] with a connected provider can end:
    [w] is the world before, [w'] the world after, [evs] the events of
    the call, [artworkId] the fresh id and [now_ts] the clock reading
    stamped on the record. *)
Inductive upload_end (w : World) (artworkId : string) (now_ts : Z)
          (w' : World) (evs : list event) : Prop :=
| upload_aborted (e : exn) :
    writes evs = [] ->
    ledger w' = ledger w ->
    artworks (app w') = artworks (app w) ->
    shows (app w') Tx.error (submissionError e) ->
    upload_end w artworkId now_ts w' evs
| upload_record_refused (b64 m : string) :
    next_fault (ledger w) = Some m ->
    writes evs
    = [setData_call ("artwork_" +:+ artworkId)
         (encode (uploadedRecord (app w) b64 now_ts)) (Some m)] ->
    ledger w' = refuse (ledger w) ->
    artworks (app w') = artworks (app w) ->
    shows (app w') Tx.error (submissionError (Error m)) ->
    upload_end w artworkId now_ts w' evs
| upload_index_unusable (b64 : string) (e : exn) :
    next_fault (ledger w) = None ->
    writes evs
    = [setData_call ("artwork_" +:+ artworkId)
         (encode (uploadedRecord (app w) b64 now_ts)) None] ->
    ledger w'
    = write (ledger w) ("artwork_" +:+ artworkId)
        (encode (uploadedRecord (app w) b64 now_ts)) ->
    push (index (ledger w')) (JStr artworkId) = Throw e ->
    artworks (app w') = artworks (app w) ->
    shows (app w') Tx.error (submissionError e) ->
    upload_end w artworkId now_ts w' evs
| upload_index_refused (b64 : string) (keys' : json) (m : string) :
    let L1 := write (ledger w) ("artwork_" +:+ artworkId)
                (encode (uploadedRecord (app w) b64 now_ts)) in
    next_fault (ledger w) = None ->
    push (index L1) (JStr artworkId) = Ret keys' ->
    next_fault L1 = Some m ->
    writes evs
    = [setData_call ("artwork_" +:+ artworkId)
         (encode (uploadedRecord (app w) b64 now_ts)) None;
       setData_call "artwork_keys" (encode keys') (Some m)] ->
    ledger w' = refuse L1 ->
    artworks (app w') = artworks (app w) ->
    shows (app w') Tx.error (submissionError (Error m)) ->
    upload_end w artworkId now_ts w' evs
| upload_done (b64 : string) (keys' : json) :
    let L1 := write (ledger w) ("artwork_" +:+ artworkId)
                (encode (uploadedRecord (app w) b64 now_ts)) in
    next_fault (ledger w) = None ->
    push (index L1) (JStr artworkId) = Ret keys' ->
    next_fault L1 = None ->
    writes evs
    = [setData_call ("artwork_" +:+ artworkId)
         (encode (uploadedRecord (app w) b64 now_ts)) None;
       setData_call "artwork_keys" (encode keys') None] ->
    ledger w' = write L1 "artwork_keys" (encode keys') ->
    artworks (app w') = default (artworks (app w)) (refreshed (ledger w')) ->
    shows (app w') Tx.success "Encrypted data submitted securely!" ->
    upload_end w artworkId now_ts w' evs.

End Refresh.

(* ===================================================================== *)
(** ** The rest of the component *)
(* ===================================================================== *)

Definition with_account (a : string) (s : AppState) : AppState :=
  {| account := a; provider := provider s; loading := loading s;
     artworks := artworks s; isRefreshing := isRefreshing s;
     showUploadModal := showUploadModal s; uploading := uploading s;
     transactionStatus := transactionStatus s; newArtworkData := newArtworkData s |}.


Definition setAccount a := modify_app (with_account a).


(** [accounts[0]], or the empty string when there is none. *)
Definition first_account (accounts : list string) : string :=
  match accounts with
  | a :: _ => a
  | [] => EmptyString
  end.


(** The [accountsChanged] listener (lines 64-67). *)
Definition onAccountsChanged (accounts : list string) : M unit :=
  setAccount (first_account accounts).

(** [artworks.filter(a => a.status === s).length] (lines 41-43). *)
Definition count_status (s : string) (l : list Artwork.t) : nat :=
  length (List.filter (fun a => strict_eq_str (Artwork.status a) s) l).

Definition authenticCount (st : AppState) : nat := count_status "authentic" (artworks st).
Definition forgeryCount (st : AppState) : nat := count_status "forgery" (artworks st).
Definition pendingCount (st : AppState) : nat := count_status "pending" (artworks st).

(** [const total = artworks.length || 1] in [renderStatusChart] (line 382). *)
Definition chartTotal (st : AppState) : nat :=
  if (length (artworks st) =? 0)%nat then 1%nat else length (artworks st).

(** The predicate of [filteredArtworks] (lines 46-49):
    [artwork.artworkName.toLowerCase().includes(searchTerm.toLowerCase()) ||
     artwork.owner.toLowerCase().includes(searchTerm.toLowerCase())].
    The owner is looked at only when the name does not match. *)
Definition matchesSearch (searchTerm : string) (artwork : Artwork.t) : outcome bool :=
  name ← value_toLowerCase (Artwork.artworkName artwork);
  if includes name (toLowerCase searchTerm) then Ret true
  else
    owner ← value_toLowerCase (Artwork.owner artwork);
    Ret (includes owner (toLowerCase searchTerm)).

(** [l.filter(p)] for a predicate that may throw. *)
Fixpoint Array_filter {A} (p : A -> outcome bool) (l : list A) : outcome (list A) :=
  match l with
  | [] => Ret []
  | x :: l' =>
      match p x with
      | Throw e => Throw e
      | Ret keep =>
          match Array_filter p l' with
          | Throw e => Throw e
          | Ret rest => Ret (if keep then x :: rest else rest)
          end
      end
  end.

(** [const filteredArtworks = artworks.filter(...)] *)
Definition filteredArtworks (searchTerm : string) (st : AppState) : outcome (list Artwork.t) :=
  Array_filter (matchesSearch searchTerm) (artworks st).

Section Modal.
Context `{Runtime}.

(** [handleSubmit] of [ModalUpload] (lines 638-645), whose [artworkData] is
    [newArtworkData] and whose [onSubmit] is [uploadArtwork]; a string is
    falsy exactly when it is empty. *)
Definition handleSubmit (now_id now_ts : Z) (suffix : string) : M unit :=
  st ← get_app;
  if String.eqb (Form.artworkName (newArtworkData st)) EmptyString
     || String.eqb (Form.hyperspectralData (newArtworkData st)) EmptyString
  then alert "Please fill required fields"
  else uploadArtwork now_id now_ts suffix.

End Modal.

(* ===================================================================== *)
(** ** The contract: state and transactions *)
(* ===================================================================== *)

(** [src/contracts/ForgeryNetFHE.sol] as a state machine. Integers of type
    [uint256] are [Z] with the checked increment written out; a mapping is
    a finite map read with the zero value of its type as default; a call
    that reverts leaves the state as it was. Gas is not modelled. *)
Module Consortium.

Definition uint256_max : Z := 2 ^ 256 - 1.

(** The library [@fhevm/solidity] and the [abi.decode] of the callback are
    not part of the sources: an encrypted integer is an opaque handle,
    [euint32_zero] and [euint64_zero] are the handles read from a storage
    slot never written, [checkSignatures] is [false] when the library
    reverts and [abi_decode_uint32] is [None] when the decoding reverts. *)
Class FHE := {
  euint32 : Type;
  euint64 : Type;
  euint32_zero : euint32;
  euint64_zero : euint64;
  isInitialized : euint32 -> bool;
  asEuint32 : Z -> euint32;
  FHE_add : euint32 -> euint32 -> euint32;
  toBytes32 : euint32 -> Z;
  checkSignatures : Z -> string -> string -> bool;
  abi_decode_uint32 : string -> option Z
}.

Section Contract.
Context `{FHE}.

Record EncryptedArtwork := {
  id : Z;
  encryptedFingerprint : euint64;
  encryptedMeta : euint64;
  uploadedAt : Z
}.

Record EncryptedModelShare := {
  artworkId : Z;
  submitter : Z;
  encryptedDecision : euint32;
  submittedAt : Z
}.

Record State := {
  artworkCounter : Z;
  artworks : gmap Z EncryptedArtwork;
  shareCounter : Z;
  modelShares : gmap Z EncryptedModelShare;
  sharesByArtwork : gmap Z (list Z);
  results : gmap Z ForgeryNetFHE.AggregatedResult;
  encryptedAggregates : gmap Z euint32;
  decryptionRequestToArtwork : gmap Z Z
}.

(** The state after deployment. *)
Definition deployed : State :=
  {| artworkCounter := 0; artworks := ∅; shareCounter := 0; modelShares := ∅;
     sharesByArtwork := ∅; results := ∅; encryptedAggregates := ∅;
     decryptionRequestToArtwork := ∅ |}.

(** [msg.sender] and [block.timestamp] of a transaction. *)
Record Env := { sender : Z; timestamp : Z }.

Inductive Event : Type :=
| ArtworkUploaded (artwork time : Z)
| ModelShareSubmitted (share artwork from : Z)
| AggregateDecryptionRequested (artwork request : Z)
| AggregateDecrypted (artwork : Z) (verdict : string) (confidence : Z).

Inductive result (A : Type) : Type :=
| Ok (value : A) (st : State) (events : list Event)
| Revert (reason : string).
Arguments Ok {A} value st events.
Arguments Revert {A} reason.

(** Reads of the mappings. *)
Definition aggregateOf (st : State) (artwork : Z) : euint32 :=
  default euint32_zero (encryptedAggregates st !! artwork).

Definition sharesOf (st : State) (artwork : Z) : list Z :=
  default [] (sharesByArtwork st !! artwork).

Definition requestOf (st : State) (request : Z) : Z :=
  default 0 (decryptionRequestToArtwork st !! request).

Definition resultOf (st : State) (artwork : Z) : ForgeryNetFHE.AggregatedResult :=
  default {| ForgeryNetFHE.artworkId := 0; ForgeryNetFHE.verdict := EmptyString;
             ForgeryNetFHE.confidence := 0; ForgeryNetFHE.revealed := false |}
          (results st !! artwork).

(** [function uploadEncryptedArtwork(euint64, euint64) public onlyConsortium
    returns (uint256)]; the modifier is the placeholder [_;]. *)
Definition uploadEncryptedArtwork (env : Env) (fingerprint meta : euint64) (st : State)
  : result Z :=
  if artworkCounter st =? uint256_max then Revert "Panic(0x11)"
  else
    let id := artworkCounter st + 1 in
    Ok id
       {| artworkCounter := id;
          artworks := <[id := {| id := id; encryptedFingerprint := fingerprint;
                                 encryptedMeta := meta; uploadedAt := timestamp env |}]>
                        (artworks st);
          shareCounter := shareCounter st; modelShares := modelShares st;
          sharesByArtwork := sharesByArtwork st; results := results st;
          encryptedAggregates := encryptedAggregates st;
          decryptionRequestToArtwork := decryptionRequestToArtwork st |}
       [ArtworkUploaded id (timestamp env)].

(** [function submitEncryptedModelShare(uint256, euint32) public returns (uint256)] *)
Definition submitEncryptedModelShare (env : Env) (artwork : Z) (decision : euint32)
           (st : State) : result Z :=
  if negb ((0 <? artwork) && (artwork <=? artworkCounter st)) then Revert "Invalid artwork"
  else if shareCounter st =? uint256_max then Revert "Panic(0x11)"
  else
    let sid := shareCounter st + 1 in
    let started :=
      if negb (isInitialized (aggregateOf st artwork)) then asEuint32 0
      else aggregateOf st artwork in
    Ok sid
       {| artworkCounter := artworkCounter st; artworks := artworks st;
          shareCounter := sid;
          modelShares := <[sid := {| artworkId := artwork; submitter := sender env;
                                     encryptedDecision := decision;
                                     submittedAt := timestamp env |}]> (modelShares st);
          sharesByArtwork := <[artwork := sharesOf st artwork ++ [sid]]> (sharesByArtwork st);
          results := results st;
          encryptedAggregates := <[artwork := FHE_add started decision]>
                                   (encryptedAggregates st);
          decryptionRequestToArtwork := decryptionRequestToArtwork st |}
       [ModelShareSubmitted sid artwork (sender env)].

(** [function requestAggregatedResultDecryption(uint256) public onlyConsortium];
    [reqId] is the request id that [FHE.requestDecryption] returns. *)
Definition requestAggregatedResultDecryption (reqId : Z) (artwork : Z) (st : State)
  : result unit :=
  if negb (isInitialized (aggregateOf st artwork)) then Revert "No aggregate"
  else
    Ok tt
       {| artworkCounter := artworkCounter st; artworks := artworks st;
          shareCounter := shareCounter st; modelShares := modelShares st;
          sharesByArtwork := sharesByArtwork st; results := results st;
          encryptedAggregates := encryptedAggregates st;
          decryptionRequestToArtwork := <[reqId := artwork]> (decryptionRequestToArtwork st) |}
       [AggregateDecryptionRequested artwork reqId].

(** [function onAggregatesDecrypted(uint256, bytes memory, bytes memory) public] *)
Definition onAggregatesDecrypted (requestId : Z) (cleartexts proof : string) (st : State)
  : result unit :=
  let artwork := requestOf st requestId in
  if artwork =? 0 then Revert "Unknown request"
  else if negb (checkSignatures requestId cleartexts proof) then Revert "checkSignatures"
  else
    match abi_decode_uint32 cleartexts with
    | None => Revert "abi.decode"
    | Some aggregateValue =>
        let r := ForgeryNetFHE.deriveResult artwork aggregateValue in
        Ok tt
           {| artworkCounter := artworkCounter st; artworks := artworks st;
              shareCounter := shareCounter st; modelShares := modelShares st;
              sharesByArtwork := sharesByArtwork st;
              results := <[artwork := r]> (results st);
              encryptedAggregates := encryptedAggregates st;
              decryptionRequestToArtwork := decryptionRequestToArtwork st |}
           [AggregateDecrypted artwork (ForgeryNetFHE.verdict r) (ForgeryNetFHE.confidence r)]
    end.

(** [function getEncryptedAggregate(uint256) public view returns (euint32)] *)
Definition getEncryptedAggregate (artwork : Z) (st : State) : euint32 :=
  aggregateOf st artwork.

(** [function listSharesForArtwork(uint256) public view returns (uint256[] memory)] *)
Definition listSharesForArtwork (artwork : Z) (st : State) : list Z :=
  sharesOf st artwork.

(** [function getAggregatedResult(uint256) public view returns (bool, string memory, uint32)] *)
Definition getAggregatedResult (artwork : Z) (st : State) : bool * string * Z :=
  let r := resultOf st artwork in
  (ForgeryNetFHE.revealed r, ForgeryNetFHE.verdict r, ForgeryNetFHE.confidence r).

(** [function pruneShares(uint256) public onlyConsortium]: the loop deletes
    the share of every listed id, then the list itself is deleted. *)
Definition pruneShares (artwork : Z) (st : State) : result unit :=
  let ids := sharesOf st artwork in
  Ok tt
     {| artworkCounter := artworkCounter st; artworks := artworks st;
        shareCounter := shareCounter st;
        modelShares := foldl (fun shares sid => delete sid shares) (modelShares st) ids;
        sharesByArtwork := delete artwork (sharesByArtwork st);
        results := results st;
        encryptedAggregates := encryptedAggregates st;
        decryptionRequestToArtwork := decryptionRequestToArtwork st |}
     [].

(** The state-changing calls, and the state they leave. *)
Inductive call : Type :=
| Upload (fingerprint meta : euint64)
| Submit (artwork : Z) (decision : euint32)
| Request (reqId artwork : Z)
| Callback (requestId : Z) (cleartexts proof : string)
| Prune (artwork : Z).

Definition state_after {A} (st : State) (r : result A) : State :=
  match r with
  | Ok _ st' _ => st'
  | Revert _ => st
  end.

Definition exec (env : Env) (c : call) (st : State) : State :=
  match c with
  | Upload fingerprint meta => state_after st (uploadEncryptedArtwork env fingerprint meta st)
  | Submit artwork decision => state_after st (submitEncryptedModelShare env artwork decision st)
  | Request reqId artwork => state_after st (requestAggregatedResultDecryption reqId artwork st)
  | Callback requestId cleartexts proof =>
      state_after st (onAggregatesDecrypted requestId cleartexts proof st)
  | Prune artwork => state_after st (pruneShares artwork st)
  end.

(** The states the contract can be in. *)
Inductive reachable : State -> Prop :=
| reachable_deployed : reachable deployed
| reachable_exec (st : State) (env : Env) (c : call) :
    reachable st -> reachable (exec env c st).

(** Submitting the decisions [ds] for [artwork] one after the other. *)
Fixpoint submit_all (env : Env) (artwork : Z) (ds : list euint32) (st : State) : State :=
  match ds with
  | [] => st
  | d :: ds' => submit_all env artwork ds' (exec env (Submit artwork d) st)
  end.

(** The shape of the stored artworks and shares. *)
Record well_formed (st : State) : Prop := {
  wf_artworkCounter : 0 <= artworkCounter st <= uint256_max;
  wf_shareCounter : 0 <= shareCounter st <= uint256_max;
  wf_artworks :
    forall i a, artworks st !! i = Some a -> 1 <= i <= artworkCounter st /\ id a = i;
  wf_artworks_all :
    forall i, 1 <= i <= artworkCounter st -> is_Some (artworks st !! i);
  wf_shares :
    forall sid s, modelShares st !! sid = Some s ->
                  1 <= sid <= shareCounter st /\ 1 <= artworkId s <= artworkCounter st;
  wf_lists :
    forall a l, sharesByArtwork st !! a = Some l ->
                NoDup l
                /\ forall sid, sid ∈ l ->
                               exists s, modelShares st !! sid = Some s /\ artworkId s = a
}.

(** What the aggregates, the requests and the results refer to. *)
Record grounded (st : State) : Prop := {
  gr_aggregates :
    forall a, isInitialized (aggregateOf st a) = true -> 1 <= a <= artworkCounter st;
  gr_requests :
    forall r a, decryptionRequestToArtwork st !! r = Some a -> 1 <= a <= artworkCounter st;
  gr_results :
    forall a r, results st !! a = Some r ->
                1 <= a <= artworkCounter st
                /\ exists cleartexts v,
                    abi_decode_uint32 cleartexts = Some v
                    /\ r = ForgeryNetFHE.deriveResult a v
}.

End Contract.

Arguments Ok {_ _} value st events.
Arguments Revert {_ _} reason.

(** A library whose handles are the plaintexts: [None] is the handle of an
    unwritten slot, addition wraps at 32 bits and reads an unwritten
    operand as 0; every signature is accepted and the cleartext is a
    decimal numeral. *)
Definition plain : FHE :=
  {| euint32 := option Z;
     euint64 := option Z;
     euint32_zero := None;
     euint64_zero := None;
     isInitialized := fun h => match h with Some _ => true | None => false end;
     asEuint32 := fun v => Some (v mod 2 ^ 32);
     FHE_add := fun a b => Some ((default 0 a + default 0 b) mod 2 ^ 32);
     toBytes32 := fun h => default 0 h;
     checkSignatures := fun _ _ _ => true;
     abi_decode_uint32 := fun s =>
       match s with
       | EmptyString => None
       | _ => match digits_value 0 s with
              | Some v => if v <? 2 ^ 32 then Some v else None
              | None => None
              end
       end |}.

End Consortium.

(* ===================================================================== *)
(** ** Example worlds *)
(* ===================================================================== *)

Definition quiet : Tx.t :=
  {| Tx.visible := false; Tx.status := Tx.pending; Tx.message := EmptyString |}.

(** The component of a connected visitor who has filled in the upload form. *)
Definition visitor (acct : string) (cache : list Artwork.t) : AppState :=
  {| account := acct; provider := true; loading := false; artworks := cache;
     isRefreshing := false; showUploadModal := false; uploading := false;
     transactionStatus := quiet;
     newArtworkData := {| Form.artworkName := "Starry Night";
                          Form.description := EmptyString;
                          Form.hyperspectralData := "abc" |} |}.

(** A stored record owned by [0xAAA]. *)
Definition mona_lisa (status : string) : json :=
  JObj [("data", JStr "FHE-e30=");
        ("timestamp", JNum 1700000000);
        ("owner", JStr "0xAAA");
        ("artworkName", JStr "Mona Lisa");
        ("status", JStr status)].

(** The same record without a [status]. *)
Definition unlabelled : json :=
  JObj [("data", JStr "FHE-e30=");
        ("timestamp", JNum 1700000000);
        ("owner", JStr "0xAAA");
        ("artworkName", JStr "Mona Lisa")].

(** The record as the component caches it. *)
Definition mona_lisa_card (status : string) : Artwork.t :=
  {| Artwork.id := JStr "a";
     Artwork.encryptedData := val (JStr "FHE-e30=");
     Artwork.timestamp := val (JNum 1700000000);
     Artwork.owner := val (JStr "0xAAA");
     Artwork.artworkName := val (JStr "Mona Lisa");
     Artwork.status := val (JStr status) |}.

Definition chain (up : bool) (blobs : list (string * string))
           (faults : list (option string)) : Ledger :=
  {| has_reader := true; has_signer := true; available := up;
     store := list_to_map blobs; write_faults := faults |}.

(** A ledger whose index is [["a"]] and whose record [a] is [blob]. *)
Definition gallery (up : bool) (blob : string) (faults : list (option string)) : Ledger :=
  chain up [("artwork_keys", JS.stringify (JArr [JStr "a"])); ("artwork_a", blob)] faults.

Definition world_of (st : AppState) (L : Ledger) : World :=
  {| app := st; ledger := L; log := [] |}.

(** A stranger looks at the pending record of [0xAAA]. *)
Definition stranger_world : World :=
  world_of (visitor "0xBBB" [mona_lisa_card "pending"])
           (gallery true (JS.stringify (mona_lisa "pending")) []).

(** The record is already authentic on the ledger; the cache of the owner
    still shows it pending. *)
Definition settled_world : World :=
  world_of (visitor "0xaaa" [mona_lisa_card "pending"])
           (gallery true (JS.stringify (mona_lisa "authentic")) []).

(** The owner looks at the pending record. *)
Definition owner_world : World :=
  world_of (visitor "0xaaa" [mona_lisa_card "pending"])
           (gallery true (JS.stringify (mona_lisa "pending")) []).

(** The ledger stops answering after the record has been cached. *)
Definition cut_off_world : World :=
  world_of (visitor "0xaaa" [mona_lisa_card "pending"])
           (gallery false (JS.stringify (mona_lisa "pending")) []).

(** Scenario A of the specification: the index names [a], the record is
    missing. *)
Definition dangling_world : World :=
  world_of (visitor "0xaaa" [mona_lisa_card "pending"])
           (chain true [("artwork_keys", JS.stringify (JArr [JStr "a"]))] []).

(** Scenario A over a ledger that reports itself unavailable, with one
    record in the cache. *)
Definition dangling_cut_off_world : World :=
  world_of (visitor "0xaaa" [mona_lisa_card "pending"])
           (chain false [("artwork_keys", JS.stringify (JArr [JStr "a"]))] []).

(** The record blob is the JSON text [null]. *)
Definition null_world : World :=
  world_of (visitor "0xaaa" []) (gallery true "null" []).

(** The record blob has no [status]. *)
Definition unlabelled_world : World :=
  world_of (visitor "0xaaa" []) (gallery true (JS.stringify unlabelled) []).

(** Scenario B of the specification: [0xABC] uploads "Starry Night" to an
    empty ledger. *)
Definition empty_world : World :=
  world_of (visitor "0xABC" []) (chain true [] []).

(** The clock readings and the random suffix of the example uploads. *)
Definition example_now_id : Z := 1700000000123.
Definition example_now_ts : Z := 1700000000124.
Definition example_suffix : string := "k3j9x2a".

(** The same upload when the wallet user declines the first transaction. *)
Definition declined_world : World :=
  world_of (visitor "0xABC" [])
           (chain true [] [Some "user rejected transaction (action=sendTransaction)"]).


(** A connected visitor who has left the hyperspectral data empty. *)
Definition blank_form_world : World :=
  world_of {| account := "0xABC"; provider := true; loading := false; artworks := [];
              isRefreshing := false; showUploadModal := true; uploading := false;
              transactionStatus := quiet;
              newArtworkData := {| Form.artworkName := "Starry Night";
                                   Form.description := EmptyString;
                                   Form.hyperspectralData := EmptyString |} |}
           (chain true [] []).

(** The index blob is not JSON. *)
Definition corrupt_index_world : World :=
  world_of (visitor "0xABC" [mona_lisa_card "pending"])
           (chain true [("artwork_keys", "oops");
                        ("artwork_a", JS.stringify (mona_lisa "pending"))] []).

(** The index blob is the JSON number 5. *)
Definition number_index_world : World :=
  world_of (visitor "0xaaa" [mona_lisa_card "pending"])
           (chain true [("artwork_keys", "5");
                        ("artwork_a", JS.stringify (mona_lisa "pending"))] []).

(** There is no index blob, but a record is cached. *)
Definition no_index_world : World :=
  world_of (visitor "0xaaa" [mona_lisa_card "pending"]) (chain true [] []).

(** The record write is acknowledged, the index write is refused. *)
Definition index_refused_world : World :=
  world_of (visitor "0xABC" [])
           (gallery true (JS.stringify (mona_lisa "pending")) [None; Some "nonce too low"]).

(** Scenario D of the specification: two cached records. *)
Definition the_scream_card : Artwork.t :=
  {| Artwork.id := JStr "b";
     Artwork.encryptedData := val (JStr "FHE-e30=");
     Artwork.timestamp := val (JNum 1600000000);
     Artwork.owner := val (JStr "0xBBB");
     Artwork.artworkName := val (JStr "The Scream");
     Artwork.status := val (JStr "forgery") |}.

Definition two_cards : AppState :=
  visitor "0xaaa" [mona_lisa_card "pending"; the_scream_card].

(** A cached record that came from the blob [{}]. *)
Definition nameless_card : Artwork.t :=
  {| Artwork.id := JStr "c";
     Artwork.encryptedData := undefined;
     Artwork.timestamp := undefined;
     Artwork.owner := undefined;
     Artwork.artworkName := undefined;
     Artwork.status := val (JStr "pending") |}.

(** A run of the contract over the plaintext library: two artworks are
    uploaded, three decisions are submitted for the first and one for the
    second, the aggregate of the first is requested and revealed. *)
Definition example_env : Consortium.Env :=
  {| Consortium.sender := 7; Consortium.timestamp := 1700000000 |}.

Definition example_calls : list (@Consortium.call Consortium.plain) :=
  [@Consortium.Upload Consortium.plain None None;
   @Consortium.Upload Consortium.plain None None;
   @Consortium.Submit Consortium.plain 1 (Some 1);
   @Consortium.Submit Consortium.plain 1 (Some 0);
   @Consortium.Submit Consortium.plain 2 (Some 1);
   @Consortium.Submit Consortium.plain 1 (Some 1);
   @Consortium.Request Consortium.plain 9 1;
   @Consortium.Callback Consortium.plain 9 "2" EmptyString].

Definition run_calls (cs : list (@Consortium.call Consortium.plain))
           (st : @Consortium.State Consortium.plain) : @Consortium.State Consortium.plain :=
  fold_left (fun st c => Consortium.exec example_env c st) cs st.

Definition example_state : @Consortium.State Consortium.plain :=
  run_calls example_calls Consortium.deployed.

(** A stored record owned by [0xBBB], older than [mona_lisa]. *)
Definition the_scream : json :=
  JObj [("data", JStr "FHE-e30=");
        ("timestamp", JNum 1600000000);
        ("owner", JStr "0xBBB");
        ("artworkName", JStr "The Scream");
        ("status", JStr "forgery")].

(** The index names the older record first; the cache is empty. *)
Definition two_record_world : World :=
  world_of (visitor "0xaaa" [])
           (chain true
              [("artwork_keys", JS.stringify (JArr [JStr "b"; JStr "a"]));
               ("artwork_b", JS.stringify the_scream);
               ("artwork_a", JS.stringify (mona_lisa "pending"))] []).

(** The decisions submitted for the first artwork in that run. *)
Definition example_decisions : list (@Consortium.euint32 Consortium.plain) :=
  (Some 1 : @Consortium.euint32 Consortium.plain) :: Some 0 :: Some 1 :: nil.

(* ===================================================================== *)
(** ** Properties *)
(* ===================================================================== *)

Lemma new_events_app (w w' : World) (evs : list event) :
  log w' = evs ++ log w -> new_events w w' = evs.
Proof.
  intros E. unfold new_events. rewrite E, length_app.
  replace (length evs + length (log w) - length (log w))%nat with (length evs) by lia.
  apply take_app_length.
Qed.

(** *** Object properties *)

Lemma own_prop_replace_prop_eq (o : list (string * json)) (k : string) (v : json) :
  own_prop o k <> undefined -> own_prop (replace_prop o k v) k = val v.
Proof.
  induction o as [|[k' v'] o IH]; cbn; [congruence|].
  destruct (String.eqb_spec k' k) as [->|Hne]; cbn.
  - rewrite String.eqb_refl. reflexivity.
  - intros Hd. apply String.eqb_neq in Hne. rewrite Hne. auto.
Qed.

Lemma own_prop_replace_prop_ne (o : list (string * json)) (k k' : string) (v : json) :
  k' <> k -> own_prop (replace_prop o k v) k' = own_prop o k'.
Proof.
  intros Hne. induction o as [|[k0 v0] o IH]; cbn; [reflexivity|].
  destruct (String.eqb_spec k0 k) as [->|Hk]; cbn.
  - assert (E : String.eqb k k' = false) by (apply String.eqb_neq; congruence).
    rewrite E. reflexivity.
  - rewrite IH. reflexivity.
Qed.

Lemma replace_prop_keys (o : list (string * json)) (k : string) (v : json) :
  map fst (replace_prop o k v) = map fst o.
Proof.
  induction o as [|[k0 v0] o IH]; cbn; [reflexivity|].
  destruct (String.eqb_spec k0 k) as [->|Hk]; cbn; [reflexivity|].
  rewrite IH. reflexivity.
Qed.

Lemma add_prop_not_index (o : list (string * json)) (k : string) (v : json) :
  array_index k = None -> add_prop o k v = o ++ [(k, v)].
Proof.
  intros Hk. induction o as [|[k0 v0] o IH]; cbn; [reflexivity|].
  rewrite Hk, IH. reflexivity.
Qed.

Lemma own_prop_app (o1 o2 : list (string * json)) (k : string) :
  own_prop (o1 ++ o2) k
  = match own_prop o1 k with undefined => own_prop o2 k | val v => val v end.
Proof.
  induction o1 as [|[k0 v0] o1 IH]; cbn; [reflexivity|].
  destruct (String.eqb k0 k); [reflexivity | apply IH].
Qed.

(** Overlaying [status] on an object: the property reads back as the new
    value, every other property is untouched, and the properties keep
    their order, a missing [status] being added at the end. *)
Lemma set_status_spec (o : list (string * json)) (v : json) :
  own_prop (set_prop o "status" v) "status" = val v
  /\ (forall k, k <> "status" -> own_prop (set_prop o "status" v) k = own_prop o k)
  /\ (own_prop o "status" <> undefined -> map fst (set_prop o "status" v) = map fst o)
  /\ (own_prop o "status" = undefined -> set_prop o "status" v = o ++ [("status", v)]).
Proof.
  unfold set_prop. destruct (own_prop o "status") as [|j] eqn:E.
  - rewrite add_prop_not_index by reflexivity. repeat split.
    + rewrite own_prop_app, E. reflexivity.
    + intros k Hk. rewrite own_prop_app. destruct (own_prop o k); [|reflexivity].
      cbn [own_prop].
      assert (E' : String.eqb "status" k = false) by (apply String.eqb_neq; congruence).
      rewrite E'. reflexivity.
    + congruence.
  - repeat split.
    + apply own_prop_replace_prop_eq. congruence.
    + intros k Hk. apply own_prop_replace_prop_ne. assumption.
    + intros _. apply replace_prop_keys.
    + discriminate.
Qed.

(** *** Identifiers *)

Lemma has_dash_app (a b : string) : has_dash (a +:+ "-" +:+ b) = true.
Proof.
  induction a as [|c a IH]; simpl; [reflexivity|]. rewrite IH. apply orb_true_r.
Qed.

(** The key of a fresh record is never the key of the index. *)
Lemma record_key_not_index (n : Z) (suffix : string) :
  "artwork_" +:+ (string_of_Z n +:+ "-" +:+ suffix) <> "artwork_keys".
Proof.
  intros E. simpl in E. injection E as E.
  change (string_of_Z n +:+ "-" +:+ suffix = "keys") in E.
  pose proof (has_dash_app (string_of_Z n) suffix) as D.
  rewrite E in D. discriminate.
Qed.

(** *** The ledger *)

Lemma read_write_eq (L : Ledger) (key bytes : string) :
  read (write L key bytes) key = bytes.
Proof. unfold read, write. cbn. rewrite lookup_insert_eq. reflexivity. Qed.

Lemma read_write_ne (L : Ledger) (key key' bytes : string) :
  key <> key' -> read (write L key bytes) key' = read L key'.
Proof. intros Hne. unfold read, write. cbn. rewrite lookup_insert_ne by exact Hne. reflexivity. Qed.

Lemma after_write_other (L : Ledger) (key key' bytes : string) :
  key <> key' -> store (after_write L key bytes) !! key' = store L !! key'.
Proof.
  intros Hne. unfold after_write. destruct (next_fault L); cbn; [reflexivity|].
  apply lookup_insert_ne. exact Hne.
Qed.

Lemma length_zero_empty (s : string) : (String.length s =? 0)%nat = true -> s = EmptyString.
Proof. destruct s; [reflexivity | discriminate]. Qed.

Lemma In_writes (e : event) (evs : list event) :
  In e evs -> is_write e = true -> In e (writes evs).
Proof.
  intros Hin Hw. unfold writes. apply List.filter_In. split; [|exact Hw].
  apply in_rev. rewrite rev_involutive. exact Hin.
Qed.

Lemma event_cons_inj (a b : event) (l l' : list event) :
  a :: l = b :: l' -> a = b /\ l = l'.
Proof. intros E. injection E. auto. Qed.

Lemma setData_call_inj (k k' b b' : string) (f f' : option string) :
  setData_call k b f = setData_call k' b' f' -> k = k' /\ b = b' /\ f = f'.
Proof. intros E. injection E. auto. Qed.

Lemma strict_eq_str_true (v : value) (s : string) :
  strict_eq_str v s = true -> v = val (JStr s).
Proof.
  destruct v as [|[]]; cbn; try discriminate.
  intros E. apply String.eqb_eq in E. subst. reflexivity.
Qed.

Section Properties.
Context `{Runtime}.

#[local] Arguments String.append : simpl never.
#[local] Arguments String.length : simpl never.
#[local] Arguments toString : simpl never.
#[local] Arguments decode : simpl never.
#[local] Arguments toRecord : simpl never.
#[local] Arguments read : simpl never.
#[local] Arguments Array_sort : simpl never.
#[local] Arguments Nat.ltb : simpl never.
#[local] Arguments refresh_app : simpl never.
#[local] Arguments new_events : simpl never.

(** Symbolic execution of the monadic code, one layer at a time. *)
Ltac run :=
  unfold try_catch, try_finally, getData, isAvailable, getContractReadOnly,
    getContractWithSigner, lift, throw, alert, console_error_, emit,
    setLoading, setArtworks, setIsRefreshing, setUploading,
    setTransactionStatus, modify_app, get_app,
    mbind, M_bind, mret, M_ret; cbn.

Lemma loadOne_run (c : Contract) (lst : list Artwork.t) (key : json) (w : World) :
  exists evs,
    loadOne c lst key w
    = (Ret (lst ++ option_list (fetched (ledger w) key)),
       {| app := app w; ledger := ledger w; log := evs ++ log w |})
    /\ Forall (fun e => is_write e = false) evs.
Proof.
  unfold loadOne, fetched. run.
  destruct (0 <? String.length (read (ledger w) ("artwork_" +:+ toString key)))%nat.
  - cbn. destruct (decode _) as [v|e]; cbn.
    + destruct (toRecord key v) as [r|e]; cbn.
      * eexists [_]. split; [reflexivity | repeat constructor].
      * eexists [_; _]. rewrite app_nil_r. split; [reflexivity | repeat constructor].
    + eexists [_; _]. rewrite app_nil_r. split; [reflexivity | repeat constructor].
  - cbn. eexists [_]. rewrite app_nil_r. split; [reflexivity | repeat constructor].
Qed.

Lemma option_list_omap {A B} (f : A -> option B) (x : A) (l : list A) :
  option_list (f x) ++ omap f l = omap f (x :: l).
Proof. cbn. destruct (f x); reflexivity. Qed.

Lemma for_of_loadOne_run (c : Contract) (ks : list json) :
  forall (lst : list Artwork.t) (w : World),
  exists evs,
    for_of ks (loadOne c) lst w
    = (Ret (lst ++ omap (fetched (ledger w)) ks),
       {| app := app w; ledger := ledger w; log := evs ++ log w |})
    /\ Forall (fun e => is_write e = false) evs.
Proof.
  induction ks as [|key ks IH]; intros lst w.
  - exists []. cbn. rewrite app_nil_r. destruct w; split; [reflexivity | constructor].
  - destruct (loadOne_run c lst key w) as (evs1 & E1 & F1).
    destruct (IH (lst ++ option_list (fetched (ledger w) key))
                 {| app := app w; ledger := ledger w; log := evs1 ++ log w |})
      as (evs2 & E2 & F2).
    exists (evs2 ++ evs1). split.
    + cbn [for_of]. unfold mbind, M_bind. rewrite E1, E2. cbn.
      rewrite <- !app_assoc. rewrite option_list_omap. reflexivity.
    + apply Forall_app; split; assumption.
Qed.

Lemma readKeys_run (c : Contract) (complaint : string) (w : World) :
  exists evs,
    readKeys c complaint w
    = (Ret (index (ledger w)),
       {| app := app w; ledger := ledger w; log := evs ++ log w |})
    /\ Forall (fun e => is_write e = false) evs.
Proof.
  unfold readKeys, index. run.
  destruct (0 <? String.length (read (ledger w) "artwork_keys"))%nat; cbn.
  - destruct (decode _) as [v|e]; cbn.
    + eexists [_]. split; [reflexivity | repeat constructor].
    + eexists [_; _]. split; [reflexivity | repeat constructor].
  - eexists [_]. split; [reflexivity | repeat constructor].
Qed.

(** A refresh never throws, does not touch the ledger, writes nothing, and
    leaves the component in the state [refresh_app] describes. *)
Lemma loadArtworks_run (w : World) :
  exists evs,
    loadArtworks w
    = (Ret tt,
       {| app := refresh_app (ledger w) (app w); ledger := ledger w;
          log := evs ++ log w |})
    /\ Forall (fun e => is_write e = false) evs.
Proof.
  unfold loadArtworks, refresh_app, refreshed.
  unfold try_finally, try_catch, setIsRefreshing, modify_app,
    getContractReadOnly, isAvailable, mbind at 1 2 3, M_bind at 1 2 3.
  cbn.
  destruct (has_reader (ledger w)); cbn.
  2:{ exists []. split; [reflexivity | constructor]. }
  destruct (available (ledger w)); cbn.
  2:{ eexists [_; _]. split; [reflexivity | repeat constructor]. }
  unfold mbind, M_bind.
  match goal with
  | |- context [readKeys ?c ?m ?w0] =>
      destruct (readKeys_run c m w0) as (evs1 & E1 & F1); rewrite E1
  end.
  cbn. unfold lift.
  destruct (iterate (index (ledger w))) as [ks|e]; cbn.
  - match goal with
    | |- context [for_of ks ?b ?l ?w0] =>
        destruct (for_of_loadOne_run contract_handle ks l w0) as (evs2 & E2 & F2);
        rewrite E2
    end.
    cbn. exists (evs2 ++ evs1 ++ [isAvailable_call true]). split.
    + rewrite <- !app_assoc. reflexivity.
    + rewrite !Forall_app. repeat split; try assumption. repeat constructor.
  - exists (console_error "Error loading artworks:" :: evs1 ++ [isAvailable_call true]).
    split.
    + cbn. rewrite <- !app_assoc. reflexivity.
    + constructor; [reflexivity|]. rewrite Forall_app. split; [assumption|repeat constructor].
Qed.

Lemma refresh_app_transactionStatus (L : Ledger) (s : AppState) :
  transactionStatus (refresh_app L s) = transactionStatus s.
Proof. unfold refresh_app. destruct (refreshed L); reflexivity. Qed.

Lemma refresh_app_uploading (L : Ledger) (s : AppState) :
  uploading (refresh_app L s) = uploading s.
Proof. unfold refresh_app. destruct (refreshed L); reflexivity. Qed.

Lemma refresh_app_artworks (L : Ledger) (s : AppState) :
  artworks (refresh_app L s) = default (artworks s) (refreshed L).
Proof. unfold refresh_app. destruct (refreshed L); reflexivity. Qed.

Lemma writes_nil (evs : list event) :
  Forall (fun e => is_write e = false) evs -> writes evs = [].
Proof.
  unfold writes. induction 1 as [|e evs He _ IH]; [reflexivity|].
  cbn. rewrite List.filter_app, IH. cbn. rewrite He. reflexivity.
Qed.

Lemma writes_app (evs1 evs2 : list event) :
  writes (evs1 ++ evs2) = writes evs2 ++ writes evs1.
Proof. unfold writes. rewrite rev_app_distr, List.filter_app. reflexivity. Qed.

Lemma writes_cons (e : event) (evs : list event) :
  writes (e :: evs) = writes evs ++ (if is_write e then [e] else []).
Proof. unfold writes. cbn. rewrite List.filter_app. cbn. destruct (is_write e); reflexivity. Qed.

Lemma setData_run (c : Contract) (key bytes : string) (w : World) :
  setData c key bytes w
  = (match next_fault (ledger w) with Some m => Throw (Error m) | None => Ret tt end,
     {| app := app w; ledger := after_write (ledger w) key bytes;
        log := setData_call key bytes (next_fault (ledger w)) :: log w |}).
Proof.
  unfold setData, after_write, next_fault.
  destruct (write_faults (ledger w)) as [|[m|] ?]; reflexivity.
Qed.

(** A transition on a record whose blob decodes: the blob is read, the
    overlaid object is written back under the same key, and if the write
    is acknowledged a refresh follows. *)
Lemma markAs_decoded (newStatus done failed : string) (artworkId : json)
      (w : World) (v : json) :
  provider (app w) = true ->
  has_signer (ledger w) = true ->
  let key := "artwork_" +:+ toString artworkId in
  let blob := read (ledger w) key in
  (String.length blob =? 0)%nat = false ->
  decode blob = Ret v ->
  let bytes := encode (JObj (set_prop (spread v) "status" (JStr newStatus))) in
  exists evs s',
    markAs newStatus done failed artworkId w
    = (Ret tt,
       {| app := s'; ledger := after_write (ledger w) key bytes;
          log := evs ++ setData_call key bytes (next_fault (ledger w))
                     :: getData_call key blob :: log w |})
    /\ Forall (fun e => is_write e = false) evs
    /\ match next_fault (ledger w) with
       | None => shows s' Tx.success done
       | Some m => shows s' Tx.error (failed +:+ message_or_unknown (Error m))
       end.
Proof.
  intros Hp Hs key blob Hlen Hdec bytes.
  unfold markAs. unfold mbind at 1, M_bind at 1, get_app.
  rewrite Hp. cbn [negb].
  unfold mbind at 1, M_bind at 1, setTransactionStatus, modify_app.
  unfold try_catch.
  unfold mbind at 1, M_bind at 1, getContractWithSigner. cbn [ledger].
  rewrite Hs.
  unfold mbind at 1, M_bind at 1, getData. cbn [ledger app log].
  fold key. fold blob. rewrite Hlen.
  unfold mbind at 1, M_bind at 1, lift. rewrite Hdec.
  fold bytes.
  unfold mbind at 1, M_bind at 1. rewrite setData_run. cbn [ledger app log].
  destruct (next_fault (ledger w)) as [m|] eqn:Hf.
  - exists [], (with_transactionStatus
                  {| Tx.visible := true; Tx.status := Tx.error;
                     Tx.message := failed +:+ message_or_unknown (Error m) |}
                  (with_transactionStatus
                     {| Tx.visible := true; Tx.status := Tx.pending;
                        Tx.message := "Processing encrypted data with FHE..." |} (app w))).
    split; [reflexivity | split; [constructor | reflexivity]].
  - unfold mbind at 1, M_bind at 1. cbn [ledger app log fst snd].
    match goal with
    | |- context [loadArtworks ?w0] =>
        destruct (loadArtworks_run w0) as (evs & E & F); rewrite E
    end.
    eexists evs, _. split; [reflexivity | split; [assumption |]].
    unfold shows. rewrite refresh_app_transactionStatus. reflexivity.
Qed.

Lemma uploadArtwork_run (now_id now_ts : Z) (suffix : string) (w : World) :
  provider (app w) = true ->
  exists w' evs,
    uploadArtwork now_id now_ts suffix w = (Ret tt, w')
    /\ log w' = evs ++ log w
    /\ uploading (app w') = false
    /\ upload_end w (string_of_Z now_id +:+ "-" +:+ suffix) now_ts w' evs.
Proof.
  intros Hp.
  unfold uploadArtwork. unfold mbind at 1, M_bind at 1, get_app.
  rewrite Hp. cbn [negb].
  unfold mbind at 1, M_bind at 1, setUploading, modify_app.
  unfold mbind at 1, M_bind at 1, setTransactionStatus, modify_app.
  unfold try_finally, try_catch.
  unfold mbind at 1, M_bind at 1, lift.
  destruct (btoa _) as [b64|e].
  2:{ cbn. eexists _, []. repeat split.
      apply (upload_aborted _ _ _ _ _ e); reflexivity. }
  unfold mbind at 1, M_bind at 1, getContractWithSigner. cbn [ledger].
  destruct (has_signer (ledger w)).
  2:{ cbn. eexists _, []. repeat split.
      apply (upload_aborted _ _ _ _ _ (Error "Failed to get contract with signer"));
        reflexivity. }
  unfold mbind at 1, M_bind at 1. rewrite setData_run. cbn [ledger app log].
  unfold after_write.
  destruct (next_fault (ledger w)) as [m|] eqn:Hf1.
  { cbn. eexists _, [_]. repeat split.
    apply (upload_record_refused _ _ _ _ _ b64 m); try reflexivity; assumption. }
  unfold mbind at 1, M_bind at 1.
  match goal with
  | |- context [readKeys ?c ?msg ?w0] =>
      destruct (readKeys_run c msg w0) as (evs1 & E1 & F1); rewrite E1
  end.
  cbn [ledger app log].
  unfold mbind at 1, M_bind at 1.
  set (artworkId := string_of_Z now_id +:+ "-" +:+ suffix) in *.
  set (L1 := write (ledger w) ("artwork_" +:+ artworkId) _) in *.
  destruct (push (index L1) (JStr artworkId)) as [keys'|e] eqn:Hpush.
  2:{ cbn. eexists _, (evs1 ++ [_]). repeat split.
      - cbn. rewrite <- app_assoc. reflexivity.
      - apply (upload_index_unusable _ _ _ _ _ b64 e); try reflexivity; try assumption.
        rewrite writes_app, (writes_nil _ F1), app_nil_r. reflexivity. }
  unfold mbind at 1, M_bind at 1. rewrite setData_run. cbn [ledger app log].
  unfold after_write.
  destruct (next_fault L1) as [m|] eqn:Hf2.
  { cbn. eexists _, (_ :: evs1 ++ [_]). repeat split.
    - cbn. rewrite <- app_assoc. reflexivity.
    - apply (upload_index_refused _ _ _ _ _ b64 keys' m); try reflexivity; try assumption.
      rewrite writes_cons, writes_app, (writes_nil _ F1), app_nil_r. reflexivity. }
  unfold mbind at 1, M_bind at 1. cbn [ledger app log].
  match goal with
  | |- context [loadArtworks ?w0] =>
      destruct (loadArtworks_run w0) as (evs2 & E2 & F2); rewrite E2
  end.
  cbn. eexists _, (evs2 ++ _ :: evs1 ++ [_]). repeat split.
  - cbn. rewrite <- !app_assoc. cbn. rewrite <- app_assoc. reflexivity.
  - apply (upload_done _ _ _ _ _ b64 keys'); try reflexivity; try assumption.
    + rewrite writes_app, writes_cons, writes_app, (writes_nil _ F1), (writes_nil _ F2).
      reflexivity.
    + cbn. rewrite refresh_app_artworks. reflexivity.
    + unfold shows. cbn. rewrite refresh_app_transactionStatus. reflexivity.
Qed.

(** *** Sorting *)

Lemma sort_insert_perm cmp (x : Artwork.t) (l : list Artwork.t) :
  sort_insert cmp x l ≡ₚ x :: l.
Proof.
  induction l as [|y l IH]; cbn; [reflexivity|].
  destruct (goes_after cmp x y); [|reflexivity].
  rewrite IH. apply Permutation_swap.
Qed.

Lemma Array_sort_perm cmp (l : list Artwork.t) : Array_sort cmp l ≡ₚ l.
Proof.
  unfold Array_sort. induction l as [|x l IH]; cbn; [reflexivity|].
  rewrite sort_insert_perm, IH. reflexivity.
Qed.

Lemma not_older_trans (a b c : Artwork.t) :
  not_older a b -> not_older b c -> not_older a c.
Proof.
  intros (p & q & Ep & Eq & Hqp) (q' & r & Eq' & Er & Hrq).
  rewrite Eq in Eq'. injection Eq' as <-.
  exists p, r. repeat split; [exact Ep | exact Er | lia].
Qed.

Lemma sort_insert_sorted (x : Artwork.t) (l : list Artwork.t) :
  (exists n, toNumber (Artwork.timestamp x) = Num n) ->
  Forall (fun r => exists n, toNumber (Artwork.timestamp r) = Num n) l ->
  StronglySorted not_older l ->
  StronglySorted not_older (sort_insert byTimestampDesc x l).
Proof.
  intros (p & Ep) Hnum Hsorted.
  induction Hsorted as [|y l Hl IH Hy]; cbn [sort_insert].
  - repeat constructor.
  - apply Forall_cons in Hnum as ((q & Eq) & Hnum).
    unfold goes_after, byTimestampDesc, minus. rewrite Eq, Ep.
    destruct (Z.ltb_spec 0 (q - p)) as [Hlt|Hge].
    + constructor; [apply IH; exact Hnum|].
      rewrite sort_insert_perm. constructor; [|exact Hy].
      exists q, p. repeat split; [exact Eq | exact Ep | lia].
    + assert (Hxy : not_older x y)
        by (exists p, q; repeat split; [exact Ep | exact Eq | lia]).
      constructor; [constructor; assumption|].
      constructor; [exact Hxy|].
      eapply Forall_impl; [exact Hy|].
      intros z Hz. exact (not_older_trans x y z Hxy Hz).
Qed.

(** With timestamps that convert to numbers the sort lists the records
    newest first. *)
Lemma Array_sort_sorted (l : list Artwork.t) :
  Forall (fun r => exists n, toNumber (Artwork.timestamp r) = Num n) l ->
  StronglySorted not_older (Array_sort byTimestampDesc l).
Proof.
  unfold Array_sort. induction 1 as [|x l Hx Hl IH]; cbn [foldr]; [constructor|].
  apply sort_insert_sorted; [exact Hx | | exact IH].
  fold (Array_sort byTimestampDesc l). rewrite Array_sort_perm. exact Hl.
Qed.

(** *** Refresh *)

Lemma refreshed_unavailable (L : Ledger) : available L = false -> refreshed L = None.
Proof. intros E. unfold refreshed. rewrite E, andb_false_r. reflexivity. Qed.

Lemma refreshed_iterable (L : Ledger) (ks : list json) :
  has_reader L = true -> available L = true -> iterate (index L) = Ret ks ->
  refreshed L = Some (Array_sort byTimestampDesc (omap (fetched L) ks)).
Proof. intros E1 E2 E3. unfold refreshed. rewrite E1, E2, E3. reflexivity. Qed.

Lemma refresh_app_twice (L : Ledger) (s : AppState) :
  refresh_app L (refresh_app L s) = refresh_app L s.
Proof. unfold refresh_app. destruct (refreshed L); reflexivity. Qed.

(** C3, as amended: when [isAvailable()] reports false, [loadArtworks]
    returns without raising, reads and writes no key, and leaves the record
    store as it was; the store is empty afterwards exactly when it was
    empty before. *)
Theorem loadArtworks_unavailable (w : World) :
  available (ledger w) = false ->
  exists w',
    loadArtworks w = (Ret tt, w')
    /\ artworks (app w') = artworks (app w)
    /\ ledger w' = ledger w
    /\ isRefreshing (app w') = false
    /\ (new_events w w' = []
        \/ new_events w w'
           = [console_error "Contract is not available"; isAvailable_call false]).
Proof.
  intros Hav. unfold loadArtworks. run.
  destruct (has_reader (ledger w)); cbn.
  - rewrite Hav. cbn. eexists. split; [reflexivity|]. cbn.
    repeat split. right. apply new_events_app. reflexivity.
  - eexists. split; [reflexivity|]. cbn.
    repeat split. left. apply (new_events_app _ _ []). reflexivity.
Qed.

(** What [fetched] yields, in terms of the blob: a record exactly when the
    blob is present and decodes to a value other than [null], and then the
    record carries the id and the five properties read off that value. *)
Lemma fetched_spec (L : Ledger) (key : json) (r : Artwork.t) :
  fetched L key = Some r
  <-> read L ("artwork_" +:+ toString key) <> EmptyString
      /\ exists v s,
          decode (read L ("artwork_" +:+ toString key)) = Ret v
          /\ v <> JNull
          /\ Artwork.id r = key
          /\ get_prop v "data" = Ret (Artwork.encryptedData r)
          /\ get_prop v "timestamp" = Ret (Artwork.timestamp r)
          /\ get_prop v "owner" = Ret (Artwork.owner r)
          /\ get_prop v "artworkName" = Ret (Artwork.artworkName r)
          /\ get_prop v "status" = Ret s
          /\ Artwork.status r = or_else s (val (JStr "pending")).
Proof.
  unfold fetched.
  assert (Hprop : forall v k, v <> JNull -> exists x, get_prop v k = Ret x).
  { intros v k Hv. destruct v; try (eexists; reflexivity). congruence. }
  split.
  - destruct (read L ("artwork_" +:+ toString key)) as [|c bytes] eqn:Eb;
      [discriminate|].
    cbn [String.length Nat.ltb Nat.leb].
    destruct (decode (String c bytes)) as [v|e] eqn:Ed; [|discriminate].
    cbn [mbind outcome_bind]. unfold toRecord.
    destruct v; cbn; try discriminate;
      intros E; injection E as <-; (split; [discriminate|]);
      eexists _, _; (split; [reflexivity|]); (split; [discriminate|]);
      cbn; repeat split.
  - intros (Hne & v & s0 & Hdec & Hv & Hid & Hd & Ht & Ho & Hn & Hs & Hst).
    destruct (read L ("artwork_" +:+ toString key)) as [|c bytes] eqn:Eb;
      [congruence|].
    cbn [String.length Nat.ltb Nat.leb]. rewrite Hdec.
    cbn [mbind outcome_bind]. unfold toRecord.
    rewrite Hd, Ht, Ho, Hn, Hs. cbn.
    destruct r as [i d t o n st]. cbn in *. subst i st. reflexivity.
Qed.

(** With a ledger that answers and an index a loop can walk, a refresh
    installs the sorted list of the records fetched for the indexed ids. *)
Lemma loadArtworks_installs (w : World) (ks : list json) :
  has_reader (ledger w) = true ->
  available (ledger w) = true ->
  iterate (index (ledger w)) = Ret ks ->
  exists w',
    loadArtworks w = (Ret tt, w')
    /\ ledger w' = ledger w
    /\ artworks (app w')
       = Array_sort byTimestampDesc (omap (fetched (ledger w)) ks).
Proof.
  intros Hr Hav Hks.
  destruct (loadArtworks_run w) as (evs & E & _).
  eexists. split; [exact E|]. cbn [app ledger].
  rewrite refresh_app_artworks, (refreshed_iterable _ ks Hr Hav Hks). cbn [default].
  split; reflexivity.
Qed.

(** C6, as amended: whatever the ledger holds, [loadArtworks] raises no
    error and leaves the ledger as it was. When the client is missing, the
    probe reports false or the index cannot be walked, the record store is
    kept as it was. Otherwise the store is replaced by the records of
    exactly those indexed ids whose blob is present and decodes to a value
    other than [null], one per occurrence in the index, each carrying its
    id and the properties of the decoded value; an id whose blob is absent
    or does not decode contributes nothing and stops nothing; the records
    are listed newest first when their timestamps convert to numbers; and
    when every indexed blob is absent the store is empty. *)
Theorem loadArtworks_best_effort (w : World) :
  exists w',
    loadArtworks w = (Ret tt, w')
    /\ ledger w' = ledger w
    /\ (has_reader (ledger w) = false
        \/ available (ledger w) = false
        \/ (exists e, iterate (index (ledger w)) = Throw e) ->
        artworks (app w') = artworks (app w))
    /\ (forall ks,
          has_reader (ledger w) = true ->
          available (ledger w) = true ->
          iterate (index (ledger w)) = Ret ks ->
          artworks (app w') ≡ₚ omap (fetched (ledger w)) ks
          /\ (forall r,
                r ∈ artworks (app w')
                <-> exists key,
                    key ∈ ks
                    /\ read (ledger w) ("artwork_" +:+ toString key) <> EmptyString
                    /\ exists v s,
                        decode (read (ledger w) ("artwork_" +:+ toString key)) = Ret v
                        /\ v <> JNull
                        /\ Artwork.id r = key
                        /\ get_prop v "data" = Ret (Artwork.encryptedData r)
                        /\ get_prop v "timestamp" = Ret (Artwork.timestamp r)
                        /\ get_prop v "owner" = Ret (Artwork.owner r)
                        /\ get_prop v "artworkName" = Ret (Artwork.artworkName r)
                        /\ get_prop v "status" = Ret s
                        /\ Artwork.status r = or_else s (val (JStr "pending")))
          /\ (forall key,
                read (ledger w) ("artwork_" +:+ toString key) = EmptyString ->
                fetched (ledger w) key = None)
          /\ (forall key e,
                decode (read (ledger w) ("artwork_" +:+ toString key)) = Throw e ->
                fetched (ledger w) key = None)
          /\ ((forall r, r ∈ artworks (app w') ->
                         exists n, toNumber (Artwork.timestamp r) = Num n) ->
              StronglySorted not_older (artworks (app w')))
          /\ ((forall key, key ∈ ks ->
                 read (ledger w) ("artwork_" +:+ toString key) = EmptyString) ->
              artworks (app w') = [])).
Proof.
  destruct (loadArtworks_run w) as (evs & E & _).
  eexists. split; [exact E|]. cbn [app ledger]. split; [reflexivity|].
  rewrite refresh_app_artworks. split.
  - unfold refreshed. intros [Hr | [Hav | (e & He)]].
    + rewrite Hr. reflexivity.
    + rewrite Hav, andb_false_r. reflexivity.
    + rewrite He. destruct (_ && _); reflexivity.
  - intros ks Hr Hav Hks.
    rewrite (refreshed_iterable _ ks Hr Hav Hks). cbn [default].
    assert (Habsent : forall key,
               read (ledger w) ("artwork_" +:+ toString key) = EmptyString ->
               fetched (ledger w) key = None).
    { intros key E0. unfold fetched. rewrite E0. reflexivity. }
    split; [apply Array_sort_perm|]. split; [|split; [|split; [|split]]].
    + intros r. rewrite Array_sort_perm. split.
      * intros Hr'. apply list_elem_of_omap in Hr' as (key & Hin & Hf).
        exists key. split; [exact Hin|]. apply fetched_spec. exact Hf.
      * intros (key & Hin & Hf). apply list_elem_of_omap.
        exists key. split; [exact Hin|]. apply fetched_spec. exact Hf.
    + exact Habsent.
    + intros key e E0. unfold fetched. rewrite E0.
      destruct (0 <? String.length _)%nat; reflexivity.
    + intros Hnum. apply Array_sort_sorted. apply Forall_forall.
      intros r Hin. apply Hnum. rewrite Array_sort_perm. exact Hin.
    + intros Hall.
      assert (E0 : omap (fetched (ledger w)) ks = []).
      { clear - Hall Habsent. induction ks as [|k ks IH]; [reflexivity|].
        cbn. rewrite (Habsent k) by (apply Hall; left).
        apply IH. intros key Hk. apply Hall. right. exact Hk. }
      rewrite E0. reflexivity.
Qed.

(** C8: two refreshes in a row over the same ledger: neither raises, neither
    changes the ledger, and the second leaves the record store (and the
    whole component state) exactly as the first left it, same records in
    the same order. *)
Theorem loadArtworks_idempotent (w : World) :
  exists w1 w2,
    loadArtworks w = (Ret tt, w1)
    /\ loadArtworks w1 = (Ret tt, w2)
    /\ ledger w1 = ledger w
    /\ ledger w2 = ledger w
    /\ artworks (app w2) = artworks (app w1)
    /\ app w2 = app w1.
Proof.
  destruct (loadArtworks_run w) as (evs1 & E1 & _).
  match type of E1 with _ = (_, ?w1) =>
    destruct (loadArtworks_run w1) as (evs2 & E2 & _)
  end.
  cbn [app ledger] in E2.
  eexists _, _. split; [exact E1|]. split; [exact E2|].
  cbn [app ledger]. rewrite refresh_app_twice. repeat split.
Qed.

(** C10, as amended: a blob that decodes to a value other than [null], and
    whose [status] is missing or falsy (the empty string included), yields a
    record of the store with status ["pending"]; it is neither skipped nor
    an error. *)
Theorem loadArtworks_defaults_status (w : World) (ks : list json) (key v : json)
        (s : value) :
  has_reader (ledger w) = true ->
  available (ledger w) = true ->
  iterate (index (ledger w)) = Ret ks ->
  key ∈ ks ->
  (0 <? String.length (read (ledger w) ("artwork_" +:+ toString key)))%nat = true ->
  decode (read (ledger w) ("artwork_" +:+ toString key)) = Ret v ->
  v <> JNull ->
  get_prop v "status" = Ret s ->
  truthy s = false ->
  exists w' r,
    loadArtworks w = (Ret tt, w')
    /\ r ∈ artworks (app w')
    /\ Artwork.id r = key
    /\ Artwork.status r = val (JStr "pending")
    /\ Ret (Artwork.encryptedData r) = get_prop v "data"
    /\ Ret (Artwork.timestamp r) = get_prop v "timestamp"
    /\ Ret (Artwork.owner r) = get_prop v "owner"
    /\ Ret (Artwork.artworkName r) = get_prop v "artworkName".
Proof.
  intros Hr Hav Hks Hin Hlen Hdec Hnull Hst Hfalsy.
  destruct (loadArtworks_installs w ks Hr Hav Hks) as (w' & E & _ & Hlist).
  assert (Hprop : forall k, exists x, get_prop v k = Ret x).
  { intros k. destruct v; try (eexists; reflexivity). congruence. }
  destruct (Hprop "data") as (d & Ed), (Hprop "timestamp") as (t & Et),
    (Hprop "owner") as (o & Eo), (Hprop "artworkName") as (n & En).
  exists w'. eexists. split; [exact E|]. split.
  - rewrite Hlist, Array_sort_perm. apply list_elem_of_omap.
    exists key. split; [exact Hin|].
    unfold fetched. rewrite Hlen, Hdec. cbn [mbind outcome_bind].
    unfold toRecord. rewrite Ed, Et, Eo, En, Hst. cbn. reflexivity.
  - cbn. unfold or_else. rewrite Hfalsy. repeat split; congruence.
Qed.

(** *** The view *)

Lemma isOwner_true (st : AppState) (address : value) :
  isOwner st address = Ret true ->
  exists s, address = val (JStr s) /\ toLowerCase (account st) = toLowerCase s.
Proof.
  unfold isOwner. destruct address as [|[]]; cbn; try discriminate.
  intros E. injection E as E. apply String.eqb_eq in E. eauto.
Qed.

Lemma artworkActions_shown (st : AppState) (a : Artwork.t) (bs : list button) (b : button) :
  artworkActions st a = Ret bs ->
  b ∈ bs ->
  isOwner st (Artwork.owner a) = Ret true
  /\ Artwork.status a = val (JStr "pending")
  /\ (b = MarkAuthentic (Artwork.id a) \/ b = MarkForgery (Artwork.id a)).
Proof.
  unfold artworkActions. destruct (isOwner st (Artwork.owner a)) as [own|e]; cbn; [|discriminate].
  destruct own; cbn.
  - destruct (strict_eq_str (Artwork.status a) "pending") eqn:Es; intros E; injection E as <-.
    + intros Hb. split; [reflexivity|]. split; [apply strict_eq_str_true, Es|].
      apply elem_of_cons in Hb as [->|Hb]; [left; reflexivity|].
      apply elem_of_cons in Hb as [->|Hb]; [right; reflexivity|].
      apply elem_of_nil in Hb. contradiction.
    + intros Hb. apply elem_of_nil in Hb. contradiction.
  - intros E. injection E as <-. intros Hb. apply elem_of_nil in Hb. contradiction.
Qed.

(** C1, as amended: the ownership test is made by the view. A record card
    carries the Mark Authentic and Mark as Forgery buttons only if the
    cached owner is a string that equals the connected account up to letter
    case; when the owner differs the card carries no button, so no
    transition is issued for that record. *)
Theorem buttons_only_for_owner (st : AppState) (a : Artwork.t) :
  (forall bs b,
      artworkActions st a = Ret bs -> b ∈ bs ->
      exists s, Artwork.owner a = val (JStr s)
                /\ toLowerCase (account st) = toLowerCase s)
  /\ (forall s,
        Artwork.owner a = val (JStr s) ->
        toLowerCase (account st) <> toLowerCase s ->
        artworkActions st a = Ret []).
Proof.
  split.
  - intros bs b E Hb.
    destruct (artworkActions_shown st a bs b E Hb) as (Ho & _ & _).
    apply isOwner_true. exact Ho.
  - intros s Eo Hne. unfold artworkActions, isOwner. rewrite Eo. cbn.
    apply String.eqb_neq in Hne. rewrite Hne. reflexivity.
Qed.

(** *** Transitions *)

(** What a transition does to a stored object. *)
Lemma markAs_object (newStatus done failed : string) (artworkId : json) (w : World)
      (o : list (string * json)) :
  provider (app w) = true ->
  has_signer (ledger w) = true ->
  read (ledger w) ("artwork_" +:+ toString artworkId) <> EmptyString ->
  decode (read (ledger w) ("artwork_" +:+ toString artworkId)) = Ret (JObj o) ->
  let key := "artwork_" +:+ toString artworkId in
  let updated := set_prop o "status" (JStr newStatus) in
  exists w',
    markAs newStatus done failed artworkId w = (Ret tt, w')
    /\ writes (new_events w w')
       = [setData_call key (encode (JObj updated)) (next_fault (ledger w))]
    /\ (next_fault (ledger w) = None ->
        store (ledger w') = <[key := encode (JObj updated)]> (store (ledger w)))
    /\ (forall key', key <> key' -> store (ledger w') !! key' = store (ledger w) !! key').
Proof.
  intros Hp Hs Hne Hdec key updated.
  assert (Hlen : (String.length (read (ledger w) key) =? 0)%nat = false).
  { destruct (String.length _ =? 0)%nat eqn:E; [|reflexivity].
    apply length_zero_empty in E. contradiction. }
  destruct (markAs_decoded newStatus done failed artworkId w (JObj o) Hp Hs Hlen Hdec)
    as (evs & s' & E & F & _).
  eexists. split; [exact E|]. cbn [ledger]. repeat split.
  - rewrite (new_events_app _ _
               (evs ++ [setData_call key (encode (JObj updated)) (next_fault (ledger w));
                        getData_call key (read (ledger w) key)]))
      by (cbn [log]; rewrite <- app_assoc; reflexivity).
    rewrite writes_app, (writes_nil _ F), app_nil_r. reflexivity.
  - intros Hf. unfold after_write. rewrite Hf. reflexivity.
  - intros key' Hk. apply after_write_other. exact Hk.
Qed.

(** C7: a transition on a stored record (a blob that is present and decodes
    to an object) issues exactly one write: under the same key, the fetched
    object with [status] set to the new value. Every other property of the
    object reads as before, the properties keep their order, and no other
    key of the store changes. *)
Theorem transition_overlays_status (artworkId : json) (w : World)
        (o : list (string * json)) :
  provider (app w) = true ->
  has_signer (ledger w) = true ->
  read (ledger w) ("artwork_" +:+ toString artworkId) <> EmptyString ->
  decode (read (ledger w) ("artwork_" +:+ toString artworkId)) = Ret (JObj o) ->
  forall (op : json -> M unit) (newStatus : string),
    (op = markAsAuthentic /\ newStatus = "authentic")
    \/ (op = markAsForgery /\ newStatus = "forgery") ->
    let key := "artwork_" +:+ toString artworkId in
    let updated := set_prop o "status" (JStr newStatus) in
    (exists w',
        op artworkId w = (Ret tt, w')
        /\ writes (new_events w w')
           = [setData_call key (encode (JObj updated)) (next_fault (ledger w))]
        /\ (next_fault (ledger w) = None ->
            store (ledger w') = <[key := encode (JObj updated)]> (store (ledger w)))
        /\ (forall key', key <> key' ->
                         store (ledger w') !! key' = store (ledger w) !! key'))
    /\ own_prop updated "status" = val (JStr newStatus)
    /\ (forall k, k <> "status" -> own_prop updated k = own_prop o k)
    /\ (own_prop o "status" <> undefined -> map fst updated = map fst o)
    /\ (own_prop o "status" = undefined -> updated = o ++ [("status", JStr newStatus)]).
Proof.
  intros Hp Hs Hne Hdec op newStatus Hop key updated.
  split; [|apply set_status_spec].
  destruct Hop as [[-> ->]|[-> ->]].
  - apply (markAs_object "authentic" "FHE verification completed - Artwork is authentic!"
             "Verification failed: "); assumption.
  - apply (markAs_object "forgery" "FHE analysis completed - Artwork is a forgery!"
             "Analysis failed: "); assumption.
Qed.

(** *** Uploads *)

Lemma uploadArtwork_total (now_id now_ts : Z) (suffix : string) (w : World) :
  exists w' evs,
    uploadArtwork now_id now_ts suffix w = (Ret tt, w')
    /\ new_events w w' = evs
    /\ ((provider (app w) = false
         /\ evs = [alert_call "Please connect wallet first"]
         /\ app w' = app w /\ ledger w' = ledger w)
        \/ (provider (app w) = true
            /\ uploading (app w') = false
            /\ upload_end w (string_of_Z now_id +:+ "-" +:+ suffix) now_ts w' evs)).
Proof.
  destruct (provider (app w)) eqn:Hp.
  - destruct (uploadArtwork_run now_id now_ts suffix w Hp) as (w' & evs & E & El & Hu & Hend).
    exists w', evs. split; [exact E|]. split; [apply new_events_app, El|].
    right. auto.
  - unfold uploadArtwork. unfold mbind at 1, M_bind at 1, get_app. rewrite Hp. cbn.
    eexists _, _. split; [reflexivity|]. split.
    + apply (new_events_app _ _ [alert_call "Please connect wallet first"]). reflexivity.
    + left. destruct w; auto.
Qed.

Lemma upload_end_writes (w w' : World) (artworkId : string) (now_ts : Z)
      (evs : list event) :
  upload_end w artworkId now_ts w' evs ->
  writes evs = []
  \/ exists b64 f,
      let record := setData_call ("artwork_" +:+ artworkId)
                      (encode (uploadedRecord (app w) b64 now_ts)) in
      writes evs = [record f]
      \/ exists keys' f', f = None /\ writes evs = [record None; setData_call "artwork_keys" (encode keys') f'].
Proof.
  intros [e Hw|b64 m _ Hw|b64 e _ Hw|b64 keys' m L1 _ _ _ Hw|b64 keys' L1 _ _ _ Hw].
  - left. exact Hw.
  - right. exists b64, (Some m). left. exact Hw.
  - right. exists b64, None. left. exact Hw.
  - right. exists b64, None. right. exists keys', (Some m). split; [reflexivity | exact Hw].
  - right. exists b64, None. right. exists keys', None. split; [reflexivity | exact Hw].
Qed.

(** C4: whenever a [setData] call made by [uploadArtwork] fails with a
    message [m], the operation still returns normally, the notification is
    visible with status error and the text derived from [m] ("Transaction
    rejected by user" when [m] mentions a user rejection, "Submission
    failed: ..." otherwise), the record store is the one from before the
    call, and the uploading flag is cleared. *)
Theorem upload_failure_surfaced (now_id now_ts : Z) (suffix : string)
        (w w' : World) (r : outcome unit) (key bytes m : string) :
  uploadArtwork now_id now_ts suffix w = (r, w') ->
  In (setData_call key bytes (Some m)) (new_events w w') ->
  r = Ret tt
  /\ shows (app w') Tx.error (submissionError (Error m))
  /\ (includes m "user rejected transaction" = true ->
      Tx.message (transactionStatus (app w')) = "Transaction rejected by user")
  /\ artworks (app w') = artworks (app w)
  /\ uploading (app w') = false.
Proof.
  intros E Hin.
  destruct (uploadArtwork_total now_id now_ts suffix w) as (w1 & evs & E1 & Ev & Hcase).
  rewrite E in E1. injection E1 as -> ->.
  rewrite Ev in Hin.
  destruct Hcase as [(_ & -> & _)|(_ & Hu & Hend)].
  { destruct Hin as [Hin|[]]. discriminate. }
  apply In_writes in Hin; [|reflexivity].
  assert (Hgoal : shows (app w1) Tx.error (submissionError (Error m))
                  /\ artworks (app w1) = artworks (app w)).
  { destruct Hend as [e Hw _ _ _|b64 m' _ Hw _ Ha Hs|b64 e _ Hw _ _ _ _
                     |b64 keys' m' L1 _ _ _ Hw _ Ha Hs|b64 keys' L1 _ _ _ Hw _ _ _];
      rewrite Hw in Hin; cbn in Hin.
    - contradiction.
    - destruct Hin as [Hin|[]]. injection Hin as _ _ ->. auto.
    - destruct Hin as [Hin|[]]. discriminate.
    - destruct Hin as [Hin|[Hin|[]]]; [discriminate|]. injection Hin as _ _ ->. auto.
    - destruct Hin as [Hin|[Hin|[]]]; discriminate. }
  destruct Hgoal as (Hs & Ha). repeat split; try assumption.
  intros Hinc. rewrite Hs. cbn. unfold submissionError. cbn [message].
  rewrite Hinc. reflexivity.
Qed.

(** C5: in a call of [uploadArtwork] with a connected provider, a write of
    the index is never issued before the write of the new record has been
    acknowledged; and when the call ends with the success notification its
    writes are, in this order, the acknowledged record and the acknowledged
    index, the index being the old one with the new id appended, so that
    afterwards the record key holds the record blob that the new index
    entry names. *)
Theorem upload_record_before_index (now_id now_ts : Z) (suffix : string)
        (w w' : World) (r : outcome unit) :
  provider (app w) = true ->
  uploadArtwork now_id now_ts suffix w = (r, w') ->
  let artworkId := string_of_Z now_id +:+ "-" +:+ suffix in
  let key := "artwork_" +:+ artworkId in
  (forall pre post bytes f,
      writes (new_events w w') = pre ++ setData_call "artwork_keys" bytes f :: post ->
      exists b64,
        pre = [setData_call key (encode (uploadedRecord (app w) b64 now_ts)) None])
  /\ (Tx.status (transactionStatus (app w')) = Tx.success ->
      exists b64 l,
        let record := encode (uploadedRecord (app w) b64 now_ts) in
        let keys' := JArr (l ++ [JStr artworkId]) in
        index (ledger w) = JArr l
        /\ writes (new_events w w')
           = [setData_call key record None;
              setData_call "artwork_keys" (encode keys') None]
        /\ read (ledger w') key = record
        /\ read (ledger w') "artwork_keys" = encode keys').
Proof.
  intros Hp E artworkId key.
  destruct (uploadArtwork_total now_id now_ts suffix w) as (w1 & evs & E1 & Ev & Hcase).
  rewrite E in E1. injection E1 as -> ->. rewrite Ev.
  destruct Hcase as [(Hp' & _)|(_ & _ & Hend)]; [congruence|].
  pose proof (record_key_not_index now_id suffix) as Hkey. fold artworkId key in Hkey.
  split.
  - intros pre post bytes f Hw.
    destruct (upload_end_writes _ _ _ _ _ Hend) as [Hn|(b64 & f0 & [H1|(keys' & f' & -> & H2)])].
    + rewrite Hn in Hw. destruct pre; discriminate.
    + cbv zeta in H1. rewrite H1 in Hw.
      destruct pre as [|p [|? ?]]; try discriminate.
      apply event_cons_inj in Hw as [Hk _].
      apply setData_call_inj in Hk as (Hk & _). contradiction.
    + cbv zeta in H2. rewrite H2 in Hw.
      destruct pre as [|p1 [|p2 [|? ?]]]; try discriminate.
      * apply event_cons_inj in Hw as [Hk _].
        apply setData_call_inj in Hk as (Hk & _). contradiction.
      * apply event_cons_inj in Hw as [<- _]. exists b64. reflexivity.
  - intros Hsucc.
    destruct Hend as [e _ _ _ Hs|b64 m _ _ _ _ Hs|b64 e _ _ _ _ _ Hs
                     |b64 keys' m L1 _ _ _ _ _ _ Hs|b64 keys' L1 Hf1 Hpush Hf2 Hw HL _ _];
      try (rewrite Hs in Hsucc; discriminate).
    assert (Hidx : index L1 = index (ledger w)).
    { unfold index, L1. rewrite read_write_ne by exact Hkey. reflexivity. }
    rewrite Hidx in Hpush. unfold push in Hpush.
    destruct (index (ledger w)) as [| | | |l|] eqn:Ei; try discriminate.
    injection Hpush as <-.
    exists b64, l. cbv zeta. split; [reflexivity|]. split; [exact Hw|].
    rewrite HL. split.
    + rewrite read_write_ne by (intros Hk; symmetry in Hk; contradiction).
      apply read_write_eq.
    + apply read_write_eq.
Qed.

(** C2, as amended: the one-way rule is kept by the view, not by the
    operations. [uploadArtwork] writes nothing but the new record, with
    status ["pending"], and the index; [loadArtworks] leaves the ledger as
    it is; a card carries the two transition buttons only while its cached
    status is ["pending"]; [markAsAuthentic] and [markAsForgery] do not
    look at the stored status: on an acknowledged write the stored object
    gets status ["authentic"] (["forgery"]) whatever its status was. *)
Theorem status_transitions (w : World) :
  (forall now_id now_ts suffix r w' e,
      uploadArtwork now_id now_ts suffix w = (r, w') ->
      In e (writes (new_events w w')) ->
      (exists b64 f,
          e = setData_call ("artwork_" +:+ (string_of_Z now_id +:+ "-" +:+ suffix))
                (encode (uploadedRecord (app w) b64 now_ts)) f
          /\ get_prop (uploadedRecord (app w) b64 now_ts) "status"
             = Ret (val (JStr "pending")))
      \/ (exists bytes f, e = setData_call "artwork_keys" bytes f))
  /\ (forall r w', loadArtworks w = (r, w') -> ledger w' = ledger w)
  /\ (forall a bs b,
        artworkActions (app w) a = Ret bs -> b ∈ bs ->
        Artwork.status a = val (JStr "pending"))
  /\ (forall artworkId o,
        provider (app w) = true ->
        has_signer (ledger w) = true ->
        next_fault (ledger w) = None ->
        read (ledger w) ("artwork_" +:+ toString artworkId) <> EmptyString ->
        decode (read (ledger w) ("artwork_" +:+ toString artworkId)) = Ret (JObj o) ->
        (exists w', markAsAuthentic artworkId w = (Ret tt, w')
                    /\ read (ledger w') ("artwork_" +:+ toString artworkId)
                       = encode (JObj (set_prop o "status" (JStr "authentic"))))
        /\ (exists w', markAsForgery artworkId w = (Ret tt, w')
                       /\ read (ledger w') ("artwork_" +:+ toString artworkId)
                          = encode (JObj (set_prop o "status" (JStr "forgery"))))).
Proof.
  split; [|split; [|split]].
  - intros now_id now_ts suffix r w' e E Hin.
    destruct (uploadArtwork_total now_id now_ts suffix w) as (w1 & evs & E1 & Ev & Hcase).
    rewrite E in E1. injection E1 as -> ->. rewrite Ev in Hin.
    destruct Hcase as [(_ & -> & _)|(_ & _ & Hend)]; [contradiction|].
    destruct (upload_end_writes _ _ _ _ _ Hend) as [Hn|(b64 & f0 & [H1|(keys' & f' & -> & H2)])].
    + rewrite Hn in Hin. contradiction.
    + cbv zeta in H1. rewrite H1 in Hin. destruct Hin as [<-|[]]. left. eauto.
    + cbv zeta in H2. rewrite H2 in Hin. destruct Hin as [<-|[<-|[]]]; [left|right]; eauto.
  - intros r w' E. destruct (loadArtworks_run w) as (evs & E1 & _).
    rewrite E in E1. injection E1 as -> ->. reflexivity.
  - intros a bs b E Hb. apply (artworkActions_shown _ _ _ _ E Hb).
  - intros artworkId o Hp Hs Hf Hne Hdec. split.
    + destruct (markAs_object "authentic" "FHE verification completed - Artwork is authentic!"
                  "Verification failed: " artworkId w o Hp Hs Hne Hdec)
        as (w' & E & _ & Hst & _).
      exists w'. split; [exact E|]. unfold read. rewrite (Hst Hf), lookup_insert_eq. reflexivity.
    + destruct (markAs_object "forgery" "FHE analysis completed - Artwork is a forgery!"
                  "Analysis failed: " artworkId w o Hp Hs Hne Hdec)
        as (w' & E & _ & Hst & _).
      exists w'. split; [exact E|]. unfold read. rewrite (Hst Hf), lookup_insert_eq. reflexivity.
Qed.

End Properties.

(** *** The contract *)

(** C9: for every [uint32] input, [computeConfidence] is [min(x, 100)]: the
    input itself up to 100, and 100 above; the result is again a [uint32],
    and it is the confidence that the decryption callback stores. *)
Theorem computeConfidence_saturates (x : Z) :
  ForgeryNetFHE.is_uint32 x ->
  ForgeryNetFHE.computeConfidence x = Z.min x 100
  /\ (x <= 100 -> ForgeryNetFHE.computeConfidence x = x)
  /\ (100 < x -> ForgeryNetFHE.computeConfidence x = 100)
  /\ ForgeryNetFHE.is_uint32 (ForgeryNetFHE.computeConfidence x)
  /\ (forall artwork,
        ForgeryNetFHE.confidence (ForgeryNetFHE.deriveResult artwork x) = Z.min x 100).
Proof.
  unfold ForgeryNetFHE.is_uint32, ForgeryNetFHE.uint32_max, ForgeryNetFHE.deriveResult,
    ForgeryNetFHE.computeConfidence.
  intros Hx. cbn [ForgeryNetFHE.confidence].
  destruct (Z.gtb_spec x 100); repeat split; intros; lia.
Qed.


(* ===================================================================== *)
(** ** Concrete runs *)
(* ===================================================================== *)

(** The concrete platform on a few inputs. *)
Example parse_stringify_record :
  JS.parse (JS.stringify (mona_lisa "pending")) = Ret (mona_lisa "pending").
Proof. vm_compute. reflexivity. Qed.

Example stringify_array :
  JS.stringify (JArr [JNum 1; JNum (-20); JNull; JBool true; JArr []]) = "[1,-20,null,true,[]]".
Proof. vm_compute. reflexivity. Qed.

Example parse_nested :
  JS.parse " [1 , [2,3] ,{ } , false ] "
  = Ret (JArr [JNum 1; JArr [JNum 2; JNum 3]; JObj []; JBool false]).
Proof. vm_compute. reflexivity. Qed.

Example parse_rejects_trailing_comma :
  JS.parse "[1,]" = Throw (Error "Unexpected token in JSON").
Proof. vm_compute. reflexivity. Qed.

Example base64_vectors :
  JS.base64 "Man" = "TWFu" /\ JS.base64 "Ma" = "TWE=" /\ JS.base64 "M" = "TQ==".
Proof. repeat split; vm_compute; reflexivity. Qed.

Example spread_array_then_status :
  set_prop (spread (JArr [JNum 7; JNum 8])) "status" (JStr "authentic")
  = [("0", JNum 7); ("1", JNum 8); ("status", JStr "authentic")].
Proof. vm_compute. reflexivity. Qed.

Example index_keys_come_first :
  set_prop [("1", JNull); ("b", JNum 1)] "0" (JStr "x")
  = [("0", JStr "x"); ("1", JNull); ("b", JNum 1)].
Proof. vm_compute. reflexivity. Qed.

Example newest_first :
  map Artwork.id
      (Array_sort (@byTimestampDesc js)
         [ {| Artwork.id := JStr "old"; Artwork.encryptedData := undefined;
              Artwork.timestamp := val (JNum 10); Artwork.owner := undefined;
              Artwork.artworkName := undefined; Artwork.status := undefined |};
           {| Artwork.id := JStr "new"; Artwork.encryptedData := undefined;
              Artwork.timestamp := val (JNum 30); Artwork.owner := undefined;
              Artwork.artworkName := undefined; Artwork.status := undefined |};
           {| Artwork.id := JStr "mid"; Artwork.encryptedData := undefined;
              Artwork.timestamp := val (JNum 20); Artwork.owner := undefined;
              Artwork.artworkName := undefined; Artwork.status := undefined |} ])
  = [JStr "new"; JStr "mid"; JStr "old"].
Proof. vm_compute. reflexivity. Qed.

Lemma run_eta {A} (m : M A) (w : World) : m w = ((m w).1, (m w).2).
Proof. destruct (m w); reflexivity. Qed.

(** C1 as stated fails: the account [0xBBB] calls [markAsAuthentic] on the
    record of [0xAAA]; the call reports success and the stored record is
    now authentic. *)
Lemma stranger_marks_authentic :
  @decode js (read (ledger stranger_world) "artwork_a") = Ret (mona_lisa "pending")
  /\ isOwner (app stranger_world) (val (JStr "0xAAA")) = Ret false
  /\ (@markAsAuthentic js (JStr "a") stranger_world).1 = Ret tt
  /\ Tx.status (transactionStatus (app (@markAsAuthentic js (JStr "a") stranger_world).2))
     = Tx.success
  /\ @decode js (read (ledger (@markAsAuthentic js (JStr "a") stranger_world).2) "artwork_a")
     = Ret (mona_lisa "authentic").
Proof. repeat split; vm_compute; reflexivity. Qed.

(** C2 as stated fails: the stored record is authentic, the stale card still
    carries the buttons, and [markAsForgery] turns the stored record into a
    forgery. *)
Lemma settled_record_marked_again :
  @decode js (read (ledger settled_world) "artwork_a") = Ret (mona_lisa "authentic")
  /\ artworkActions (app settled_world) (mona_lisa_card "pending")
     = Ret [MarkAuthentic (JStr "a"); MarkForgery (JStr "a")]
  /\ (@onClick js (MarkForgery (JStr "a")) settled_world).1 = Ret tt
  /\ @decode js (read (ledger (@onClick js (MarkForgery (JStr "a")) settled_world).2)
                   "artwork_a")
     = Ret (mona_lisa "forgery").
Proof. repeat split; vm_compute; reflexivity. Qed.

(** C3 as stated fails: the probe reports false, the refresh returns
    normally, and the record store still holds the cached record. *)
Lemma unavailable_keeps_cache :
  available (ledger cut_off_world) = false
  /\ (@loadArtworks js cut_off_world).1 = Ret tt
  /\ artworks (app (@loadArtworks js cut_off_world).2) = [mona_lisa_card "pending"]
  /\ artworks (app (@loadArtworks js cut_off_world).2) <> [].
Proof.
  repeat split; try (vm_compute; reflexivity).
  vm_compute. discriminate.
Qed.

(** C6 as stated fails: the index is [["a"]], the record [a] is missing and
    the probe reports false; the refresh raises nothing, yet the record
    store is not empty: it still holds the cached record. *)
Lemma dangling_index_unavailable :
  available (ledger dangling_cut_off_world) = false
  /\ @index js (ledger dangling_cut_off_world) = JArr [JStr "a"]
  /\ read (ledger dangling_cut_off_world) "artwork_a" = EmptyString
  /\ (@loadArtworks js dangling_cut_off_world).1 = Ret tt
  /\ artworks (app (@loadArtworks js dangling_cut_off_world).2)
     = [mona_lisa_card "pending"]
  /\ artworks (app (@loadArtworks js dangling_cut_off_world).2) <> [].
Proof.
  repeat split; try (vm_compute; reflexivity).
  vm_compute. discriminate.
Qed.

(** C10 as stated fails: the blob [null] parses as JSON and has no status,
    yet the refresh skips it. *)
Lemma null_blob_skipped :
  read (ledger null_world) "artwork_a" = "null"
  /\ @decode js "null" = Ret JNull
  /\ @iterate (@index js (ledger null_world)) = Ret [JStr "a"]
  /\ (@loadArtworks js null_world).1 = Ret tt
  /\ artworks (app (@loadArtworks js null_world).2) = [].
Proof. repeat split; vm_compute; reflexivity. Qed.

(** [loadArtworks_unavailable] on the cut-off ledger. *)
Lemma loadArtworks_unavailable_witness :
  exists w',
    @loadArtworks js cut_off_world = (Ret tt, w')
    /\ artworks (app w') = [mona_lisa_card "pending"]
    /\ ledger w' = ledger cut_off_world.
Proof.
  destruct (@loadArtworks_unavailable js cut_off_world eq_refl) as (w' & E & Ha & HL & _).
  exists w'. split; [exact E|]. split; [exact Ha | exact HL].
Defined.

(** Scenario A: [loadArtworks_best_effort] where the index is [["a"]] and
    the record [a] is missing; and a refresh over two stored records, which
    lists both, the newer one first. *)
Lemma loadArtworks_best_effort_witness :
  (exists w', @loadArtworks js dangling_world = (Ret tt, w') /\ artworks (app w') = [])
  /\ (exists w',
        @loadArtworks js two_record_world = (Ret tt, w')
        /\ artworks (app w') ≡ₚ [the_scream_card; mona_lisa_card "pending"]
        /\ StronglySorted (@not_older js) (artworks (app w'))).
Proof.
  split.
  - assert (Hks : iterate (@index js (ledger dangling_world)) = Ret [JStr "a"])
      by (vm_compute; reflexivity).
    destruct (@loadArtworks_best_effort js dangling_world) as (w' & E & _ & _ & Hiter).
    destruct (Hiter [JStr "a"] eq_refl eq_refl Hks) as (_ & _ & _ & _ & _ & Hempty).
    exists w'. split; [exact E|]. apply Hempty.
    intros key Hkey. apply list_elem_of_singleton in Hkey. subst key.
    vm_compute. reflexivity.
  - assert (Hks : iterate (@index js (ledger two_record_world)) = Ret [JStr "b"; JStr "a"])
      by (vm_compute; reflexivity).
    assert (Hl : omap (@fetched js (ledger two_record_world)) [JStr "b"; JStr "a"]
                 = [the_scream_card; mona_lisa_card "pending"])
      by (vm_compute; reflexivity).
    destruct (@loadArtworks_best_effort js two_record_world) as (w' & E & _ & _ & Hiter).
    destruct (Hiter [JStr "b"; JStr "a"] eq_refl eq_refl Hks)
      as (Hperm & _ & _ & _ & Hsorted & _).
    rewrite Hl in Hperm.
    exists w'. split; [exact E|]. split; [exact Hperm|].
    apply Hsorted. intros r Hin. rewrite Hperm in Hin.
    apply elem_of_cons in Hin as [-> | Hin].
    + exists 1600000000. vm_compute. reflexivity.
    + apply list_elem_of_singleton in Hin. subst r.
      exists 1700000000. vm_compute. reflexivity.
Defined.

(** [loadArtworks_defaults_status] on a record without a status. *)
Lemma loadArtworks_defaults_status_witness :
  exists w' r,
    @loadArtworks js unlabelled_world = (Ret tt, w')
    /\ r ∈ artworks (app w')
    /\ Artwork.id r = JStr "a"
    /\ Artwork.status r = val (JStr "pending").
Proof.
  assert (Hks : iterate (@index js (ledger unlabelled_world)) = Ret [JStr "a"])
    by (vm_compute; reflexivity).
  assert (Hin : JStr "a" ∈ [JStr "a"]) by (apply list_elem_of_singleton; reflexivity).
  assert (Hlen : (0 <? String.length (read (ledger unlabelled_world)
                                        ("artwork_" +:+ toString (JStr "a"))))%nat = true)
    by (vm_compute; reflexivity).
  assert (Hdec : @decode js (read (ledger unlabelled_world)
                               ("artwork_" +:+ toString (JStr "a"))) = Ret unlabelled)
    by (vm_compute; reflexivity).
  assert (Hnull : unlabelled <> JNull) by discriminate.
  destruct (@loadArtworks_defaults_status js unlabelled_world [JStr "a"] (JStr "a")
              unlabelled undefined eq_refl eq_refl Hks Hin Hlen Hdec Hnull eq_refl eq_refl)
    as (w' & r & E & Hr & Hid & Hst & _).
  exists w', r. auto.
Defined.

(** [buttons_only_for_owner]: the owner's card carries the buttons, the
    stranger's card of the same record carries none. *)
Lemma buttons_only_for_owner_witness :
  (exists s, Artwork.owner (mona_lisa_card "pending") = val (JStr s)
             /\ toLowerCase (account (app owner_world)) = toLowerCase s)
  /\ artworkActions (app stranger_world) (mona_lisa_card "pending") = Ret [].
Proof.
  split.
  - apply (proj1 (buttons_only_for_owner (app owner_world) (mona_lisa_card "pending"))
             [MarkAuthentic (JStr "a"); MarkForgery (JStr "a")] (MarkAuthentic (JStr "a"))).
    + reflexivity.
    + apply list_elem_of_here.
  - apply (proj2 (buttons_only_for_owner (app stranger_world) (mona_lisa_card "pending"))
             "0xAAA").
    + reflexivity.
    + vm_compute. discriminate.
Defined.

(** [transition_overlays_status]: the owner marks the pending record
    authentic. *)
Lemma transition_overlays_status_witness :
  exists w',
    @markAsAuthentic js (JStr "a") owner_world = (Ret tt, w')
    /\ writes (new_events owner_world w')
       = [setData_call "artwork_a" (@encode js (mona_lisa "authentic")) None]
    /\ read (ledger w') "artwork_keys" = read (ledger owner_world) "artwork_keys".
Proof.
  assert (Hne : read (ledger owner_world) ("artwork_" +:+ toString (JStr "a")) <> EmptyString)
    by (vm_compute; discriminate).
  assert (Hdec : @decode js (read (ledger owner_world) ("artwork_" +:+ toString (JStr "a")))
                 = Ret (mona_lisa "pending"))
    by (vm_compute; reflexivity).
  destruct (@transition_overlays_status js (JStr "a") owner_world _ eq_refl eq_refl Hne Hdec
              (@markAsAuthentic js) "authentic" (or_introl (conj eq_refl eq_refl)))
    as ((w' & E & Hw & _ & Hother) & _).
  exists w'. split; [exact E|]. split; [exact Hw|].
  unfold read. rewrite (Hother "artwork_keys"); [reflexivity|].
  vm_compute. discriminate.
Defined.

(** [upload_failure_surfaced]: the wallet user declines the record write. *)
Lemma upload_failure_surfaced_witness :
  shows (app (@uploadArtwork js example_now_id example_now_ts example_suffix declined_world).2)
        Tx.error "Transaction rejected by user"
  /\ artworks (app (@uploadArtwork js example_now_id example_now_ts example_suffix
                      declined_world).2) = [].
Proof.
  pose proof (run_eta (@uploadArtwork js example_now_id example_now_ts example_suffix)
                declined_world) as E.
  assert (Hin : In (setData_call "artwork_1700000000123-k3j9x2a"
                      (@encode js (uploadedRecord (app declined_world)
                                     (JS.base64 (JS.stringify
                                        (Form.to_json (newArtworkData (app declined_world)))))
                                     example_now_ts))
                      (Some "user rejected transaction (action=sendTransaction)"))
                   (new_events declined_world
                      (@uploadArtwork js example_now_id example_now_ts example_suffix
                         declined_world).2))
    by (vm_compute; left; reflexivity).
  destruct (@upload_failure_surfaced js _ _ _ _ _ _ _ _ _ E Hin) as (_ & Hs & _ & Ha & _).
  split; [exact Hs | exact Ha].
Defined.

(** Scenario B: [upload_record_before_index] for an upload to an empty
    ledger. *)
Lemma upload_record_before_index_witness :
  exists b64,
    writes (new_events empty_world
              (@uploadArtwork js example_now_id example_now_ts example_suffix empty_world).2)
    = [setData_call "artwork_1700000000123-k3j9x2a"
         (@encode js (uploadedRecord (app empty_world) b64 example_now_ts)) None;
       setData_call "artwork_keys"
         (@encode js (JArr [JStr "1700000000123-k3j9x2a"])) None].
Proof.
  pose proof (run_eta (@uploadArtwork js example_now_id example_now_ts example_suffix)
                empty_world) as E.
  destruct (@upload_record_before_index js example_now_id example_now_ts example_suffix
              empty_world _ _ eq_refl E) as (Hbefore & Hdone).
  destruct Hdone as (b64 & l & Hl & Hw & _); [vm_compute; reflexivity|].
  assert (El : l = []).
  { assert (Hi : @index js (ledger empty_world) = JArr []) by (vm_compute; reflexivity).
    rewrite Hi in Hl. injection Hl as <-. reflexivity. }
  subst l.
  destruct (Hbefore
              [setData_call "artwork_1700000000123-k3j9x2a"
                 (@encode js (uploadedRecord (app empty_world) b64 example_now_ts)) None]
              [] (@encode js (JArr [JStr "1700000000123-k3j9x2a"])) None Hw)
    as (b64' & _).
  exists b64. exact Hw.
Defined.

(** [status_transitions] on the owner's world: an upload writes a pending
    record, and the pending record can be marked a forgery. *)
Lemma status_transitions_witness :
  (exists w', @markAsForgery js (JStr "a") owner_world = (Ret tt, w')
              /\ read (ledger w') "artwork_a" = @encode js (mona_lisa "forgery"))
  /\ Artwork.status (mona_lisa_card "pending") = val (JStr "pending")
  /\ ledger (@loadArtworks js owner_world).2 = ledger owner_world
  /\ ((exists b64 f,
         setData_call "artwork_keys" (@encode js (JArr [JStr "a"; JStr "1700000000123-k3j9x2a"]))
                      None
         = setData_call ("artwork_" +:+ (string_of_Z example_now_id +:+ "-" +:+ example_suffix))
             (@encode js (uploadedRecord (app owner_world) b64 example_now_ts)) f
         /\ get_prop (uploadedRecord (app owner_world) b64 example_now_ts) "status"
            = Ret (val (JStr "pending")))
      \/ (exists bytes f,
             setData_call "artwork_keys"
               (@encode js (JArr [JStr "a"; JStr "1700000000123-k3j9x2a"])) None
             = setData_call "artwork_keys" bytes f)).
Proof.
  destruct (@status_transitions js owner_world) as (Hupload & Hload & Hview & Hmark).
  split; [|split; [|split]]; cycle 3.
  - apply (Hupload example_now_id example_now_ts example_suffix _ _ _
             (run_eta (@uploadArtwork js example_now_id example_now_ts example_suffix)
                owner_world)).
    vm_compute. right. left. reflexivity.
  - assert (Hne : read (ledger owner_world) ("artwork_" +:+ toString (JStr "a"))
                  <> EmptyString)
      by (vm_compute; discriminate).
    assert (Hdec : @decode js (read (ledger owner_world) ("artwork_" +:+ toString (JStr "a")))
                   = Ret (mona_lisa "pending"))
      by (vm_compute; reflexivity).
    destruct (Hmark (JStr "a") _ eq_refl eq_refl eq_refl Hne Hdec) as (_ & w' & E & Hr).
    exists w'. split; [exact E | exact Hr].
  - apply (Hview (mona_lisa_card "pending")
             [MarkAuthentic (JStr "a"); MarkForgery (JStr "a")] (MarkForgery (JStr "a"))).
    + reflexivity.
    + apply list_elem_of_further, list_elem_of_here.
  - apply (Hload (@loadArtworks js owner_world).1). apply run_eta.
Defined.

(** [computeConfidence_saturates] at 250. *)
Lemma computeConfidence_saturates_witness :
  ForgeryNetFHE.computeConfidence 250 = 100.
Proof.
  assert (Hx : ForgeryNetFHE.is_uint32 250).
  { unfold ForgeryNetFHE.is_uint32, ForgeryNetFHE.uint32_max. lia. }
  destruct (computeConfidence_saturates 250 Hx) as (_ & _ & Hcap & _).
  apply Hcap. lia.
Defined.

(* ===================================================================== *)
(** ** Further properties of the component *)
(* ===================================================================== *)

Section Component.
Context `{Runtime}.

#[local] Arguments String.append : simpl never.
#[local] Arguments String.length : simpl never.
#[local] Arguments toString : simpl never.
#[local] Arguments decode : simpl never.
#[local] Arguments read : simpl never.
#[local] Arguments Nat.ltb : simpl never.
#[local] Arguments refresh_app : simpl never.
#[local] Arguments new_events : simpl never.

(** How a transition with a connected provider ends: without a signer,
    on a missing blob, on a blob that does not decode, or with the one
    write of [markAs_decoded]. *)
Lemma markAs_run (newStatus done failed : string) (artworkId : json) (w : World) :
  provider (app w) = true ->
  let key := "artwork_" +:+ toString artworkId in
  exists w' evs,
    markAs newStatus done failed artworkId w = (Ret tt, w')
    /\ log w' = evs ++ log w
    /\ ((exists msg,
           shows (app w') Tx.error (failed +:+ msg)
           /\ store (ledger w') = store (ledger w)
           /\ artworks (app w') = artworks (app w)
           /\ (writes evs = []
               \/ exists bytes m, writes evs = [setData_call key bytes (Some m)]))
        \/ (exists bytes,
              shows (app w') Tx.success done
              /\ next_fault (ledger w) = None
              /\ ledger w' = write (ledger w) key bytes
              /\ writes evs = [setData_call key bytes None])).
Proof.
  intros Hp key.
  destruct (has_signer (ledger w)) eqn:Hs.
  2:{ unfold markAs. unfold mbind at 1, M_bind at 1, get_app. rewrite Hp. cbn [negb].
      unfold mbind at 1, M_bind at 1, setTransactionStatus, modify_app, try_catch.
      unfold mbind at 1, M_bind at 1, getContractWithSigner. cbn [ledger].
      rewrite Hs. cbn. eexists _, []. split; [reflexivity|]. split; [reflexivity|].
      left. exists (message_or_unknown (Error "Failed to get contract with signer")).
      cbn. repeat split. left. reflexivity. }
  destruct (String.length (read (ledger w) key) =? 0)%nat eqn:Hlen.
  { unfold markAs. unfold mbind at 1, M_bind at 1, get_app. rewrite Hp. cbn [negb].
    unfold mbind at 1, M_bind at 1, setTransactionStatus, modify_app, try_catch.
    unfold mbind at 1, M_bind at 1, getContractWithSigner. cbn [ledger].
    rewrite Hs.
    unfold mbind at 1, M_bind at 1, getData. cbn [ledger app log].
    fold key. rewrite Hlen. cbn.
    eexists _, [_]. split; [reflexivity|]. split; [reflexivity|].
    left. exists (message_or_unknown (Error "Artwork not found")).
    cbn. repeat split. left. reflexivity. }
  destruct (decode (read (ledger w) key)) as [v|e] eqn:Hdec.
  2:{ unfold markAs. unfold mbind at 1, M_bind at 1, get_app. rewrite Hp. cbn [negb].
      unfold mbind at 1, M_bind at 1, setTransactionStatus, modify_app, try_catch.
      unfold mbind at 1, M_bind at 1, getContractWithSigner. cbn [ledger].
      rewrite Hs.
      unfold mbind at 1, M_bind at 1, getData. cbn [ledger app log].
      fold key. rewrite Hlen.
      unfold mbind at 1, M_bind at 1, lift. rewrite Hdec. cbn.
      eexists _, [_]. split; [reflexivity|]. split; [reflexivity|].
      left. exists (message_or_unknown e). cbn. repeat split. left. reflexivity. }
  set (bytes := encode (JObj (set_prop (spread v) "status" (JStr newStatus)))).
  unfold markAs. unfold mbind at 1, M_bind at 1, get_app. rewrite Hp. cbn [negb].
  unfold mbind at 1, M_bind at 1, setTransactionStatus, modify_app, try_catch.
  unfold mbind at 1, M_bind at 1, getContractWithSigner. cbn [ledger].
  rewrite Hs.
  unfold mbind at 1, M_bind at 1, getData. cbn [ledger app log].
  fold key. rewrite Hlen.
  unfold mbind at 1, M_bind at 1, lift. rewrite Hdec. fold bytes.
  unfold mbind at 1, M_bind at 1. rewrite setData_run. cbn [ledger app log].
  unfold after_write. destruct (next_fault (ledger w)) as [m|] eqn:Hf.
  - cbn. eexists _, [_; _]. split; [reflexivity|]. split; [reflexivity|].
    left. exists (message_or_unknown (Error m)). cbn. repeat split.
    right. exists bytes, m. reflexivity.
  - unfold mbind at 1, M_bind at 1. cbn [ledger app log fst snd].
    match goal with
    | |- context [loadArtworks ?w0] =>
        destruct (loadArtworks_run w0) as (evs & E & F); rewrite E
    end.
    eexists _, (evs ++ [setData_call key bytes None;
                        getData_call key (read (ledger w) key)]).
    split; [reflexivity|]. split; [cbn; rewrite <- app_assoc; reflexivity|].
    right. exists bytes. cbn [app ledger]. repeat split.
    + unfold shows. rewrite refresh_app_transactionStatus. reflexivity.
    + rewrite writes_app, (writes_nil _ F), app_nil_r. reflexivity.
Qed.



(** X2: [handleSubmit] calls [uploadArtwork] only when both the artwork
    name and the hyperspectral data are filled in; with either of them
    empty it raises the "Please fill required fields" alert and nothing
    else happens: no contract call, no change of the component. *)
Theorem handleSubmit_requires_fields (now_id now_ts : Z) (suffix : string) (w : World) :
  (Form.artworkName (newArtworkData (app w)) = EmptyString
   \/ Form.hyperspectralData (newArtworkData (app w)) = EmptyString ->
   handleSubmit now_id now_ts suffix w
   = (Ret tt, {| app := app w; ledger := ledger w;
                 log := alert_call "Please fill required fields" :: log w |}))
  /\ (Form.artworkName (newArtworkData (app w)) <> EmptyString ->
      Form.hyperspectralData (newArtworkData (app w)) <> EmptyString ->
      handleSubmit now_id now_ts suffix w = uploadArtwork now_id now_ts suffix w).
Proof.
  unfold handleSubmit, get_app. split.
  - intros HE. unfold mbind, M_bind. cbv beta iota.
    destruct HE as [E|E]; rewrite E.
    + rewrite String.eqb_refl. reflexivity.
    + rewrite String.eqb_refl, orb_true_r. reflexivity.
  - intros H1 H2. apply String.eqb_neq in H1, H2.
    unfold mbind at 1, M_bind at 1. cbv beta iota.
    rewrite H1, H2. reflexivity.
Qed.

(** X3: a transition on an id whose blob is missing reads the key once,
    writes nothing, leaves the ledger and the record store as they were,
    and shows the error "Verification failed: Artwork not found"
    ("Analysis failed: ..." for [markAsForgery]). *)
Theorem transition_of_missing_record (artworkId : json) (w : World) :
  provider (app w) = true ->
  has_signer (ledger w) = true ->
  read (ledger w) ("artwork_" +:+ toString artworkId) = EmptyString ->
  forall (op : json -> M unit) (failed : string),
    (op = markAsAuthentic /\ failed = "Verification failed: ")
    \/ (op = markAsForgery /\ failed = "Analysis failed: ") ->
    exists w',
      op artworkId w = (Ret tt, w')
      /\ shows (app w') Tx.error (failed +:+ "Artwork not found")
      /\ ledger w' = ledger w
      /\ artworks (app w') = artworks (app w)
      /\ new_events w w'
         = [getData_call ("artwork_" +:+ toString artworkId) EmptyString].
Proof.
  intros Hp Hs Hread op failed Hop.
  assert (Hgen : forall newStatus done,
            exists w',
              markAs newStatus done failed artworkId w = (Ret tt, w')
              /\ shows (app w') Tx.error (failed +:+ "Artwork not found")
              /\ ledger w' = ledger w
              /\ artworks (app w') = artworks (app w)
              /\ new_events w w'
                 = [getData_call ("artwork_" +:+ toString artworkId) EmptyString]).
  { intros newStatus done.
    unfold markAs. unfold mbind at 1, M_bind at 1, get_app. rewrite Hp. cbn [negb].
    unfold mbind at 1, M_bind at 1, setTransactionStatus, modify_app, try_catch.
    unfold mbind at 1, M_bind at 1, getContractWithSigner. cbn [ledger].
    rewrite Hs.
    unfold mbind at 1, M_bind at 1, getData. cbn [ledger app log].
    rewrite Hread. cbn.
    eexists. split; [reflexivity|]. cbn. repeat split.
    apply (new_events_app _ _ [getData_call _ _]). reflexivity. }
  destruct Hop as [[-> ->]|[-> ->]].
  - exact (Hgen "authentic" "FHE verification completed - Artwork is authentic!").
  - exact (Hgen "forgery" "FHE analysis completed - Artwork is a forgery!").
Qed.

(** X4: a transition never rejects, and a transition that ends with the
    error notification has changed no blob of the ledger and no record of
    the store: it is all or nothing. When it ends with the success
    notification it made exactly one write, acknowledged, under the key of
    the record. *)
Theorem transition_all_or_nothing (artworkId : json) (w w' : World) (r : outcome unit)
        (op : json -> M unit) :
  op = markAsAuthentic \/ op = markAsForgery ->
  op artworkId w = (r, w') ->
  r = Ret tt
  /\ (Tx.status (transactionStatus (app w')) = Tx.error ->
      store (ledger w') = store (ledger w)
      /\ artworks (app w') = artworks (app w))
  /\ (provider (app w) = true ->
      Tx.status (transactionStatus (app w')) = Tx.success ->
      exists bytes,
        writes (new_events w w')
        = [setData_call ("artwork_" +:+ toString artworkId) bytes None]
        /\ ledger w' = write (ledger w) ("artwork_" +:+ toString artworkId) bytes).
Proof.
  intros Hop E.
  assert (Hgen : forall newStatus done failed,
            markAs newStatus done failed artworkId w = (r, w') ->
            r = Ret tt
            /\ (Tx.status (transactionStatus (app w')) = Tx.error ->
                store (ledger w') = store (ledger w)
                /\ artworks (app w') = artworks (app w))
            /\ (provider (app w) = true ->
                Tx.status (transactionStatus (app w')) = Tx.success ->
                exists bytes,
                  writes (new_events w w')
                  = [setData_call ("artwork_" +:+ toString artworkId) bytes None]
                  /\ ledger w'
                     = write (ledger w) ("artwork_" +:+ toString artworkId) bytes)).
  { intros newStatus done failed E0.
    destruct (provider (app w)) eqn:Hp.
    - destruct (markAs_run newStatus done failed artworkId w Hp)
        as (w1 & evs & E1 & El & Hcase).
      rewrite E0 in E1. injection E1 as -> ->.
      split; [reflexivity|]. split.
      + intros Herr.
        destruct Hcase as [(msg & _ & Hst & Ha & _)|(bytes & Hs & _)]; [auto|].
        rewrite Hs in Herr. discriminate.
      + intros _ Hsucc.
        destruct Hcase as [(msg & Hs & _)|(bytes & _ & _ & HL & Hw)].
        * rewrite Hs in Hsucc. discriminate.
        * exists bytes. rewrite (new_events_app _ _ _ El). auto.
    - unfold markAs in E0. unfold mbind at 1, M_bind at 1, get_app in E0.
      rewrite Hp in E0. cbn in E0. injection E0 as <- <-.
      split; [reflexivity|]. split; [auto | discriminate]. }
  destruct Hop as [->| ->].
  - exact (Hgen "authentic" "FHE verification completed - Artwork is authentic!"
             "Verification failed: " E).
  - exact (Hgen "forgery" "FHE analysis completed - Artwork is a forgery!"
             "Analysis failed: " E).
Qed.

Lemma next_fault_write (L : Ledger) (key bytes : string) :
  next_fault (write L key bytes) = next_fault (refuse L).
Proof. reflexivity. Qed.

Lemma index_write_other (L : Ledger) (key bytes : string) :
  key <> "artwork_keys" -> index (write L key bytes) = index L.
Proof. intros Hk. unfold index. rewrite read_write_ne by exact Hk. reflexivity. Qed.

(** X5: an upload never rejects, and an upload that ends with the error
    notification has left the index blob, every blob other than the one of
    the new record, and the record store as they were. When the failure is
    a refused index write, the record blob written just before stays on
    the ledger, named by no index entry. *)
Theorem failed_upload_keeps_index (now_id now_ts : Z) (suffix : string)
        (w w' : World) (r : outcome unit) :
  uploadArtwork now_id now_ts suffix w = (r, w') ->
  let key := "artwork_" +:+ (string_of_Z now_id +:+ "-" +:+ suffix) in
  r = Ret tt
  /\ (Tx.status (transactionStatus (app w')) = Tx.error ->
      read (ledger w') "artwork_keys" = read (ledger w) "artwork_keys"
      /\ (forall key', key <> key' -> store (ledger w') !! key' = store (ledger w) !! key')
      /\ artworks (app w') = artworks (app w))
  /\ (forall bytes m,
        In (setData_call "artwork_keys" bytes (Some m)) (new_events w w') ->
        exists b64,
          read (ledger w') key = encode (uploadedRecord (app w) b64 now_ts)
          /\ read (ledger w') "artwork_keys" = read (ledger w) "artwork_keys").
Proof.
  intros E key.
  destruct (uploadArtwork_total now_id now_ts suffix w) as (w1 & evs & E1 & Ev & Hcase).
  rewrite E in E1. injection E1 as -> ->. rewrite Ev.
  pose proof (record_key_not_index now_id suffix) as Hkey. fold key in Hkey.
  split; [reflexivity|].
  destruct Hcase as [(_ & -> & Happ & HL)|(_ & _ & Hend)].
  { rewrite HL, Happ. split; [intros _; repeat split|].
    intros bytes m [Hin|[]]. discriminate. }
  fold key in Hend.
  destruct Hend as [e Hw HL Ha _|b64 m _ Hw HL Ha _|b64 e _ Hw HL _ Ha _
                   |b64 keys' m L1 _ _ _ Hw HL Ha _|b64 keys' L1 _ _ _ Hw _ _ Hs].
  - rewrite HL. split; [intros _; repeat split; exact Ha|]. intros bytes m Hin.
    apply In_writes in Hin; [|reflexivity]. rewrite Hw in Hin. contradiction.
  - rewrite HL. split; [intros _; repeat split; exact Ha|]. intros bytes m' Hin.
    apply In_writes in Hin; [|reflexivity]. rewrite Hw in Hin.
    destruct Hin as [Hin|[]]. apply setData_call_inj in Hin as (Hk & _). contradiction.
  - rewrite HL. split.
    + intros _. split; [apply read_write_ne, Hkey|]. split; [|exact Ha].
      intros key' Hk. cbn. apply lookup_insert_ne, Hk.
    + intros bytes m Hin.
      apply In_writes in Hin; [|reflexivity]. rewrite Hw in Hin.
      destruct Hin as [Hin|[]]. discriminate.
  - rewrite HL. split.
    + intros _. split; [apply (read_write_ne (ledger w)), Hkey|]. split; [|exact Ha].
      intros key' Hk. cbn. apply lookup_insert_ne, Hk.
    + intros bytes m' _. exists b64. split.
      * apply (read_write_eq (ledger w)).
      * apply (read_write_ne (ledger w)), Hkey.
  - split.
    + intros Herr. rewrite Hs in Herr. discriminate.
    + intros bytes m Hin.
      apply In_writes in Hin; [|reflexivity]. rewrite Hw in Hin.
      destruct Hin as [Hin|[Hin|[]]]; discriminate.
Qed.

(** An upload all of whose steps go through. *)
Lemma uploadArtwork_acked (now_id now_ts : Z) (suffix : string) (w : World)
      (b64 : string) (keys' : json) :
  provider (app w) = true ->
  btoa (JSON_stringify (Form.to_json (newArtworkData (app w)))) = Ret b64 ->
  has_signer (ledger w) = true ->
  next_fault (ledger w) = None ->
  next_fault (refuse (ledger w)) = None ->
  let artworkId := string_of_Z now_id +:+ "-" +:+ suffix in
  let L1 := write (ledger w) ("artwork_" +:+ artworkId)
              (encode (uploadedRecord (app w) b64 now_ts)) in
  push (index (ledger w)) (JStr artworkId) = Ret keys' ->
  exists w',
    uploadArtwork now_id now_ts suffix w = (Ret tt, w')
    /\ ledger w' = write L1 "artwork_keys" (encode keys')
    /\ artworks (app w') = default (artworks (app w)) (refreshed (ledger w'))
    /\ shows (app w') Tx.success "Encrypted data submitted securely!".
Proof.
  intros Hp Hb Hs Hf1 Hf2 artworkId L1 Hpush.
  pose proof (record_key_not_index now_id suffix) as Hkey. fold artworkId in Hkey.
  unfold uploadArtwork. unfold mbind at 1, M_bind at 1, get_app.
  rewrite Hp. cbn [negb].
  unfold mbind at 1, M_bind at 1, setUploading, modify_app.
  unfold mbind at 1, M_bind at 1, setTransactionStatus, modify_app.
  unfold try_finally, try_catch.
  unfold mbind at 1, M_bind at 1, lift. rewrite Hb.
  unfold mbind at 1, M_bind at 1, getContractWithSigner. cbn [ledger]. rewrite Hs.
  unfold mbind at 1, M_bind at 1. rewrite setData_run. cbn [ledger app log].
  unfold after_write. rewrite Hf1.
  unfold mbind at 1, M_bind at 1.
  match goal with
  | |- context [readKeys ?c ?msg ?w0] =>
      destruct (readKeys_run c msg w0) as (evs1 & E1 & F1); rewrite E1
  end.
  cbn [ledger app log]. fold artworkId. unfold uploadedRecord in L1. fold L1.
  assert (Hidx : index L1 = index (ledger w)) by apply (index_write_other _ _ _ Hkey).
  rewrite Hidx, Hpush.
  unfold mbind at 1, M_bind at 1.
  unfold mbind at 1, M_bind at 1. rewrite setData_run. cbn [ledger app log].
  assert (Hf2' : next_fault L1 = None) by exact Hf2.
  unfold after_write. rewrite !Hf2'.
  unfold mbind at 1, M_bind at 1. cbn [ledger app log].
  match goal with
  | |- context [loadArtworks ?w0] =>
      destruct (loadArtworks_run w0) as (evs2 & E2 & F2); rewrite E2
  end.
  cbn. eexists. split; [reflexivity|]. cbn. repeat split.
  - rewrite refresh_app_artworks. reflexivity.
  - unfold shows. cbn. rewrite refresh_app_transactionStatus. reflexivity.
Qed.

(** X6: when the index blob is present but does not decode, a successful
    upload replaces it by an index that lists the new id alone: whatever
    the old blob held is overwritten. *)
Theorem upload_over_corrupt_index (now_id now_ts : Z) (suffix : string) (w : World)
        (b64 : string) (e : exn) :
  provider (app w) = true ->
  btoa (JSON_stringify (Form.to_json (newArtworkData (app w)))) = Ret b64 ->
  has_signer (ledger w) = true ->
  next_fault (ledger w) = None ->
  next_fault (refuse (ledger w)) = None ->
  read (ledger w) "artwork_keys" <> EmptyString ->
  decode (read (ledger w) "artwork_keys") = Throw e ->
  let artworkId := string_of_Z now_id +:+ "-" +:+ suffix in
  exists w',
    uploadArtwork now_id now_ts suffix w = (Ret tt, w')
    /\ shows (app w') Tx.success "Encrypted data submitted securely!"
    /\ read (ledger w') "artwork_keys" = encode (JArr [JStr artworkId])
    /\ read (ledger w') ("artwork_" +:+ artworkId)
       = encode (uploadedRecord (app w) b64 now_ts).
Proof.
  intros Hp Hb Hs Hf1 Hf2 Hne Hdec artworkId.
  pose proof (record_key_not_index now_id suffix) as Hkey. fold artworkId in Hkey.
  assert (Hidx : index (ledger w) = JArr []).
  { unfold index. rewrite Hdec. destruct (0 <? _)%nat; reflexivity. }
  destruct (uploadArtwork_acked now_id now_ts suffix w b64 (JArr [JStr artworkId])
              Hp Hb Hs Hf1 Hf2) as (w' & E & HL & _ & Hshow).
  { rewrite Hidx. reflexivity. }
  exists w'. split; [exact E|]. split; [exact Hshow|]. rewrite HL. split.
  - apply read_write_eq.
  - rewrite read_write_ne by (intros Hk; symmetry in Hk; contradiction).
    apply read_write_eq.
Qed.

Lemma nonempty_length (s : string) : s <> EmptyString -> (0 <? String.length s)%nat = true.
Proof. destruct s; [congruence | reflexivity]. Qed.

Lemma nonempty_length_eqb (s : string) :
  s <> EmptyString -> (String.length s =? 0)%nat = false.
Proof. destruct s; [congruence | reflexivity]. Qed.

(** The record of an id whose blob is [encode v], when the platform decodes
    what it encodes. *)
Lemma fetched_encoded (L : Ledger) (key v : json) (r : Artwork.t) :
  read L ("artwork_" +:+ toString key) = encode v ->
  encode v <> EmptyString ->
  decode (encode v) = Ret v ->
  toRecord key v = Ret r ->
  fetched L key = Some r.
Proof.
  intros Hr Hne Hdec Hrec. unfold fetched.
  rewrite Hr, (nonempty_length _ Hne), Hdec. cbn [mbind outcome_bind].
  rewrite Hrec. reflexivity.
Qed.

Lemma index_encoded (L : Ledger) (keys : json) :
  read L "artwork_keys" = encode keys ->
  encode keys <> EmptyString ->
  decode (encode keys) = Ret keys ->
  index L = keys.
Proof.
  intros Hr Hne Hdec. unfold index. rewrite Hr, (nonempty_length _ Hne), Hdec. reflexivity.
Qed.

(** X7: after an upload all of whose steps go through, on a platform that
    decodes the two blobs it has just encoded, the record store lists the
    new record: its id is the fresh id, its owner the connected account,
    its name the name of the form, its timestamp the clock reading in
    seconds, and its status ["pending"]. *)
Theorem uploaded_record_listed (now_id now_ts : Z) (suffix : string) (w : World)
        (b64 : string) (l : list json) :
  provider (app w) = true ->
  btoa (JSON_stringify (Form.to_json (newArtworkData (app w)))) = Ret b64 ->
  has_signer (ledger w) = true ->
  has_reader (ledger w) = true ->
  available (ledger w) = true ->
  next_fault (ledger w) = None ->
  next_fault (refuse (ledger w)) = None ->
  index (ledger w) = JArr l ->
  let artworkId := string_of_Z now_id +:+ "-" +:+ suffix in
  let record := uploadedRecord (app w) b64 now_ts in
  let keys' := JArr (l ++ [JStr artworkId]) in
  encode record <> EmptyString ->
  decode (encode record) = Ret record ->
  encode keys' <> EmptyString ->
  decode (encode keys') = Ret keys' ->
  exists w',
    uploadArtwork now_id now_ts suffix w = (Ret tt, w')
    /\ {| Artwork.id := JStr artworkId;
          Artwork.encryptedData := val (JStr ("FHE-" +:+ b64));
          Artwork.timestamp := val (JNum (now_ts / 1000));
          Artwork.owner := val (JStr (account (app w)));
          Artwork.artworkName := val (JStr (Form.artworkName (newArtworkData (app w))));
          Artwork.status := val (JStr "pending") |} ∈ artworks (app w').
Proof.
  intros Hp Hb Hs Hr Hav Hf1 Hf2 Hidx artworkId record keys' Hne1 Hd1 Hne2 Hd2.
  pose proof (record_key_not_index now_id suffix) as Hkey. fold artworkId in Hkey.
  destruct (uploadArtwork_acked now_id now_ts suffix w b64 keys' Hp Hb Hs Hf1 Hf2)
    as (w' & E & HL & Ha & _).
  { rewrite Hidx. reflexivity. }
  exists w'. split; [exact E|]. rewrite Ha.
  fold artworkId record in HL.
  assert (Hidx' : index (ledger w') = keys').
  { apply index_encoded; try assumption. rewrite HL. apply read_write_eq. }
  rewrite (refreshed_iterable (ledger w') (l ++ [JStr artworkId])).
  - cbn [default]. rewrite Array_sort_perm. apply list_elem_of_omap.
    exists (JStr artworkId). split; [apply elem_of_app; right; apply list_elem_of_here|].
    apply (fetched_encoded _ _ record); try assumption; [|reflexivity].
    rewrite HL. change (toString (JStr artworkId)) with artworkId.
    rewrite read_write_ne by (intros Hk; symmetry in Hk; contradiction).
    apply read_write_eq.
  - rewrite HL. exact Hr.
  - rewrite HL. exact Hav.
  - rewrite Hidx'. reflexivity.
Qed.

(** A transition all of whose steps go through. *)
Lemma markAs_acked (newStatus done failed : string) (artworkId : json) (w : World)
      (v : json) :
  provider (app w) = true ->
  has_signer (ledger w) = true ->
  next_fault (ledger w) = None ->
  let key := "artwork_" +:+ toString artworkId in
  read (ledger w) key <> EmptyString ->
  decode (read (ledger w) key) = Ret v ->
  let bytes := encode (JObj (set_prop (spread v) "status" (JStr newStatus))) in
  exists w',
    markAs newStatus done failed artworkId w = (Ret tt, w')
    /\ ledger w' = write (ledger w) key bytes
    /\ artworks (app w') = default (artworks (app w)) (refreshed (ledger w'))
    /\ account (app w') = account (app w).
Proof.
  intros Hp Hs Hf key Hne Hdec bytes.
  unfold markAs. unfold mbind at 1, M_bind at 1, get_app. rewrite Hp. cbn [negb].
  unfold mbind at 1, M_bind at 1, setTransactionStatus, modify_app, try_catch.
  unfold mbind at 1, M_bind at 1, getContractWithSigner. cbn [ledger].
  rewrite Hs.
  unfold mbind at 1, M_bind at 1, getData. cbn [ledger app log].
  fold key. rewrite (nonempty_length_eqb _ Hne).
  unfold mbind at 1, M_bind at 1, lift. rewrite Hdec. fold bytes.
  unfold mbind at 1, M_bind at 1. rewrite setData_run. cbn [ledger app log].
  unfold after_write. rewrite Hf.
  unfold mbind at 1, M_bind at 1. cbn [ledger app log fst snd].
  match goal with
  | |- context [loadArtworks ?w0] =>
      destruct (loadArtworks_run w0) as (evs & E & F); rewrite E
  end.
  eexists. split; [reflexivity|]. cbn [app ledger]. repeat split.
  - rewrite refresh_app_artworks. reflexivity.
  - unfold refresh_app. destruct (refreshed _); reflexivity.
Qed.

(** X8: after a transition all of whose steps go through on an indexed
    record, with the ledger readable and available and on a platform that
    decodes the blob it has just encoded, the refreshed record store lists
    the record with the new status, and the card of that refreshed record,
    whenever it renders, carries no transition button. *)
Theorem transition_listed_and_final (artworkId : json) (w : World)
        (o : list (string * json)) (ks : list json) :
  provider (app w) = true ->
  has_signer (ledger w) = true ->
  has_reader (ledger w) = true ->
  available (ledger w) = true ->
  next_fault (ledger w) = None ->
  read (ledger w) ("artwork_" +:+ toString artworkId) <> EmptyString ->
  decode (read (ledger w) ("artwork_" +:+ toString artworkId)) = Ret (JObj o) ->
  "artwork_" +:+ toString artworkId <> "artwork_keys" ->
  iterate (index (ledger w)) = Ret ks ->
  artworkId ∈ ks ->
  forall (op : json -> M unit) (newStatus : string),
    (op = markAsAuthentic /\ newStatus = "authentic")
    \/ (op = markAsForgery /\ newStatus = "forgery") ->
    let updated := JObj (set_prop o "status" (JStr newStatus)) in
    encode updated <> EmptyString ->
    decode (encode updated) = Ret updated ->
    exists w' r,
      op artworkId w = (Ret tt, w')
      /\ r ∈ artworks (app w')
      /\ Artwork.id r = artworkId
      /\ Artwork.status r = val (JStr newStatus)
      /\ (forall bs, artworkActions (app w') r = Ret bs -> bs = []).
Proof.
  intros Hp Hs Hr Hav Hf Hne Hdec Hkey Hks Hin op newStatus Hop updated Hne' Hdec'.
  assert (Hgen : forall done failed,
            truthy (val (JStr newStatus)) = true ->
            strict_eq_str (val (JStr newStatus)) "pending" = false ->
            exists w' r,
              markAs newStatus done failed artworkId w = (Ret tt, w')
              /\ r ∈ artworks (app w')
              /\ Artwork.id r = artworkId
              /\ Artwork.status r = val (JStr newStatus)
              /\ (forall bs, artworkActions (app w') r = Ret bs -> bs = [])).
  { intros done failed Htruthy Hnotpending.
    destruct (markAs_acked newStatus done failed artworkId w (JObj o) Hp Hs Hf Hne Hdec)
      as (w' & E & HL & Ha & _).
    cbn [spread] in HL. fold updated in HL.
    destruct (set_status_spec o (JStr newStatus)) as (Hst & _).
    set (r := {| Artwork.id := artworkId;
                 Artwork.encryptedData := own_prop (set_prop o "status" (JStr newStatus)) "data";
                 Artwork.timestamp :=
                   own_prop (set_prop o "status" (JStr newStatus)) "timestamp";
                 Artwork.owner := own_prop (set_prop o "status" (JStr newStatus)) "owner";
                 Artwork.artworkName :=
                   own_prop (set_prop o "status" (JStr newStatus)) "artworkName";
                 Artwork.status := val (JStr newStatus) |}).
    assert (Hrec : toRecord artworkId updated = Ret r).
    { unfold toRecord, updated. cbn [get_prop mbind outcome_bind mret outcome_ret].
      rewrite Hst. unfold or_else. rewrite Htruthy. reflexivity. }
    exists w', r. split; [exact E|]. split; [|split; [reflexivity|split; [reflexivity|]]].
    - rewrite Ha, (refreshed_iterable (ledger w') ks).
      + cbn [default]. rewrite Array_sort_perm. apply list_elem_of_omap.
        exists artworkId. split; [exact Hin|].
        apply (fetched_encoded _ _ updated); try assumption.
        rewrite HL. apply read_write_eq.
      + rewrite HL. exact Hr.
      + rewrite HL. exact Hav.
      + rewrite HL, (index_write_other _ _ _ Hkey). exact Hks.
    - intros bs. unfold artworkActions.
      destruct (isOwner (app w') (Artwork.owner r)) as [own|e];
        cbn [mbind outcome_bind]; [|discriminate].
      change (Artwork.status r) with (val (JStr newStatus)).
      rewrite Hnotpending, andb_false_r. intros E0. injection E0 as <-. reflexivity. }
  destruct Hop as [[-> ->]|[-> ->]].
  - exact (Hgen "FHE verification completed - Artwork is authentic!" "Verification failed: "
             eq_refl eq_refl).
  - exact (Hgen "FHE analysis completed - Artwork is a forgery!" "Analysis failed: "
             eq_refl eq_refl).
Qed.

(** X9: with the ledger available, a refresh over an index blob that is
    absent or does not decode replaces the record store by the empty list
    (unlike a refresh over an unavailable ledger, which keeps it). *)
Theorem refresh_without_index (w : World) :
  has_reader (ledger w) = true ->
  available (ledger w) = true ->
  read (ledger w) "artwork_keys" = EmptyString
  \/ (exists e, decode (read (ledger w) "artwork_keys") = Throw e) ->
  exists w',
    loadArtworks w = (Ret tt, w')
    /\ artworks (app w') = []
    /\ ledger w' = ledger w.
Proof.
  intros Hr Hav Hidx.
  assert (Hi : index (ledger w) = JArr []).
  { unfold index. destruct Hidx as [-> | [e ->]]; [reflexivity|].
    destruct (0 <? _)%nat; reflexivity. }
  destruct (loadArtworks_run w) as (evs & E & _).
  eexists. split; [exact E|]. cbn [app ledger]. split; [|reflexivity].
  rewrite refresh_app_artworks, (refreshed_iterable _ []); [reflexivity|assumption..|].
  rewrite Hi. reflexivity.
Qed.

Lemma readKeys_reads_index (c : Contract) (complaint : string) (w : World) :
  exists evs,
    readKeys c complaint w
    = (Ret (index (ledger w)),
       {| app := app w; ledger := ledger w; log := evs ++ log w |})
    /\ Forall (fun e => forall key bytes, e = getData_call key bytes -> key = "artwork_keys")
              evs.
Proof.
  unfold readKeys, index.
  unfold try_catch, getData, lift, console_error_, emit, mbind, M_bind, mret, M_ret. cbn.
  destruct (0 <? String.length (read (ledger w) "artwork_keys"))%nat; cbn.
  - destruct (decode _) as [v|e]; cbn.
    + eexists [_]. split; [reflexivity|]. repeat constructor. congruence.
    + eexists [_; _]. split; [reflexivity|]. repeat constructor; congruence.
  - eexists [_]. split; [reflexivity|]. repeat constructor. congruence.
Qed.

(** X10: with the ledger available, a refresh over an index blob that
    decodes to something a [for ... of] loop cannot walk (a number, an
    object, [null], a boolean) raises nothing, reads no record and keeps the
    record store as it was. *)
Theorem refresh_with_unwalkable_index (w : World) (keys : json) :
  has_reader (ledger w) = true ->
  available (ledger w) = true ->
  index (ledger w) = keys ->
  (forall l, keys <> JArr l) ->
  (forall s, keys <> JStr s) ->
  exists w',
    loadArtworks w = (Ret tt, w')
    /\ artworks (app w') = artworks (app w)
    /\ ledger w' = ledger w
    /\ (forall key bytes,
          key <> "artwork_keys" -> ~ In (getData_call key bytes) (new_events w w')).
Proof.
  intros Hr Hav Hidx Harr Hstr.
  assert (Hit : exists e, iterate keys = Throw e).
  { destruct keys; cbn; eauto; [exfalso; eapply Hstr | exfalso; eapply Harr]; reflexivity. }
  destruct Hit as (e & Hit).
  unfold loadArtworks.
  unfold try_finally, try_catch, setIsRefreshing, modify_app,
    getContractReadOnly, isAvailable, mbind at 1 2 3, M_bind at 1 2 3.
  cbn. rewrite Hr. cbn. rewrite Hav. cbn.
  unfold mbind, M_bind.
  match goal with
  | |- context [readKeys ?c ?m ?w0] =>
      destruct (readKeys_reads_index c m w0) as (evs1 & E1 & F1); rewrite E1
  end.
  cbn. unfold lift. rewrite Hidx, Hit. cbn.
  eexists. split; [reflexivity|]. cbn. repeat split.
  rewrite (new_events_app _ _ (console_error "Error loading artworks:"
                                 :: evs1 ++ [isAvailable_call true]))
    by (cbn; rewrite <- app_assoc; reflexivity).
  intros key bytes Hk [Hin|Hin]; [discriminate|].
  apply in_app_or in Hin as [Hin|[Hin|[]]]; [|discriminate].
  rewrite Forall_forall in F1. apply list_elem_of_In in Hin.
  apply Hk. eapply F1; [exact Hin | reflexivity].
Qed.

(** X11: the busy flags are always released: whatever a refresh meets, it
    returns with [isRefreshing] and [loading] cleared, and an upload with a
    connected provider returns with [uploading] cleared, failed or not. *)
Theorem busy_flags_released (w : World) :
  (forall r w', loadArtworks w = (r, w') ->
                r = Ret tt /\ isRefreshing (app w') = false /\ loading (app w') = false)
  /\ (forall now_id now_ts suffix r w',
        uploadArtwork now_id now_ts suffix w = (r, w') ->
        r = Ret tt
        /\ uploading (app w') = (if provider (app w) then false else uploading (app w))).
Proof.
  split.
  - intros r w' E. destruct (loadArtworks_run w) as (evs & E1 & _).
    rewrite E in E1. injection E1 as -> ->. cbn [app].
    unfold refresh_app. destruct (refreshed (ledger w)); repeat split.
  - intros now_id now_ts suffix r w' E.
    destruct (uploadArtwork_total now_id now_ts suffix w) as (w1 & evs & E1 & _ & Hcase).
    rewrite E in E1. injection E1 as -> ->. split; [reflexivity|].
    destruct Hcase as [(-> & _ & -> & _)|(-> & Hu & _)]; [reflexivity | exact Hu].
Qed.

End Component.

(** *** The view model *)

Lemma lower_char_idempotent (c : ascii) : lower_char (lower_char c) = lower_char c.
Proof. destruct c as [[] [] [] [] [] [] [] []]; reflexivity. Qed.

Lemma toLowerCase_idempotent (s : string) : toLowerCase (toLowerCase s) = toLowerCase s.
Proof.
  induction s as [|c s IH]; [reflexivity|].
  cbn [toLowerCase]. rewrite lower_char_idempotent, IH. reflexivity.
Qed.



Lemma Array_filter_Throw {A} (p : A -> outcome bool) (l : list A) (a : A) (e : exn) :
  a ∈ l -> p a = Throw e -> exists e', Array_filter p l = Throw e'.
Proof.
  intros Hin Hp. induction l as [|x l IH]; [apply elem_of_nil in Hin; contradiction|].
  cbn. apply elem_of_cons in Hin as [<-|Hin].
  - rewrite Hp. eauto.
  - destruct (p x) as [keep|e0]; [|eauto].
    destruct (IH Hin) as (e' & ->). eauto.
Qed.


(** X13: a single cached record whose name is not a string makes
    [filteredArtworks] throw, whatever the search term and whatever the
    other records are: the list does not render. *)
Theorem filteredArtworks_throws_on_nameless (searchTerm : string) (st : AppState)
        (a : Artwork.t) :
  a ∈ artworks st ->
  (forall s, Artwork.artworkName a <> val (JStr s)) ->
  exists e, filteredArtworks searchTerm st = Throw e.
Proof.
  intros Hin Hname. unfold filteredArtworks.
  assert (Hthrow : exists e, matchesSearch searchTerm a = Throw e).
  { unfold matchesSearch.
    destruct (Artwork.artworkName a) as [|[]]; cbn; eauto.
    exfalso. eapply Hname. reflexivity. }
  destruct Hthrow as (e & He). eapply Array_filter_Throw; eassumption.
Qed.

Lemma strict_eq_str_unique (v : value) (s1 s2 : string) :
  strict_eq_str v s1 = true -> strict_eq_str v s2 = true -> s1 = s2.
Proof.
  intros E1 E2. apply strict_eq_str_true in E1, E2. congruence.
Qed.

(** X14: the three dashboard counters count disjoint sets of records: their
    sum never exceeds the number of records, it equals it when every cached
    status is one of the three literals, and the divisor of the status
    chart is at least 1 and at least every counter, so no bar is a division
    by zero nor wider than the chart. *)
Theorem counters_partition (st : AppState) :
  (authenticCount st + forgeryCount st + pendingCount st <= length (artworks st))%nat
  /\ (Forall (fun a => Artwork.status a = val (JStr "authentic")
                       \/ Artwork.status a = val (JStr "forgery")
                       \/ Artwork.status a = val (JStr "pending")) (artworks st) ->
      (authenticCount st + forgeryCount st + pendingCount st = length (artworks st))%nat)
  /\ (1 <= chartTotal st)%nat
  /\ (authenticCount st <= chartTotal st)%nat
  /\ (forgeryCount st <= chartTotal st)%nat
  /\ (pendingCount st <= chartTotal st)%nat
  /\ (artworks st = [] ->
      authenticCount st = 0%nat /\ forgeryCount st = 0%nat /\ pendingCount st = 0%nat
      /\ chartTotal st = 1%nat).
Proof.
  unfold authenticCount, forgeryCount, pendingCount, chartTotal, count_status.
  assert (Hsum : (length (List.filter (fun a => strict_eq_str (Artwork.status a) "authentic")
                            (artworks st))
                  + length (List.filter (fun a => strict_eq_str (Artwork.status a) "forgery")
                              (artworks st))
                  + length (List.filter (fun a => strict_eq_str (Artwork.status a) "pending")
                              (artworks st))
                  <= length (artworks st))%nat).
  { induction (artworks st) as [|a l IH]; cbn [List.filter length]; [lia|].
    destruct (strict_eq_str (Artwork.status a) "authentic") eqn:E1;
      destruct (strict_eq_str (Artwork.status a) "forgery") eqn:E2;
      destruct (strict_eq_str (Artwork.status a) "pending") eqn:E3;
      cbn [length]; try lia;
      try (pose proof (strict_eq_str_unique _ _ _ E1 E2); discriminate);
      try (pose proof (strict_eq_str_unique _ _ _ E1 E3); discriminate);
      try (pose proof (strict_eq_str_unique _ _ _ E2 E3); discriminate). }
  split; [exact Hsum|]. split.
  - intros Hall. clear Hsum. induction Hall as [|a l Ha _ IH]; [reflexivity|].
    cbn [List.filter].
    destruct Ha as [-> | [-> | ->]];
      cbn [strict_eq_str String.eqb Ascii.eqb Bool.eqb andb length]; lia.
  - destruct (artworks st) as [|a l] eqn:El.
    + cbn. repeat split; lia.
    + cbn [length Nat.eqb]. cbn [length] in Hsum. repeat split; try lia; discriminate.
Qed.


(* ===================================================================== *)
(** ** Properties of the contract *)
(* ===================================================================== *)

Module ConsortiumProperties.
Import Consortium.

Section Contract.
Context `{FHE}.

Lemma lookup_foldl_delete {A} (ids : list Z) (m : gmap Z A) (k : Z) :
  foldl (fun shares sid => delete sid shares) m ids !! k
  = if decide (k ∈ ids) then None else m !! k.
Proof.
  revert m. induction ids as [|i ids IH]; intros m; cbn [foldl].
  - rewrite decide_False by apply not_elem_of_nil. reflexivity.
  - rewrite IH. destruct (decide (k = i)) as [->|Hne].
    + rewrite lookup_delete_eq.
      rewrite (decide_True (P := i ∈ i :: ids)) by apply list_elem_of_here.
      destruct (decide (i ∈ ids)); reflexivity.
    + rewrite lookup_delete_ne by congruence.
      destruct (decide (k ∈ ids)) as [Hin|Hnin].
      * rewrite decide_True by (apply list_elem_of_further, Hin). reflexivity.
      * rewrite decide_False; [reflexivity|].
        intros Hin. apply elem_of_cons in Hin as [?|?]; contradiction.
Qed.

Lemma counter_monotone (env : Env) (c : call) (st : State) :
  0 <= artworkCounter st ->
  artworkCounter st <= artworkCounter (exec env c st)
  /\ (0 <= shareCounter st -> shareCounter st <= shareCounter (exec env c st)).
Proof.
  intros H0. destruct c; cbn.
  - unfold uploadEncryptedArtwork. destruct (_ =? _); cbn; lia.
  - unfold submitEncryptedModelShare.
    destruct (negb _); [cbn; lia|]. destruct (_ =? _); cbn; lia.
  - unfold requestAggregatedResultDecryption. destruct (negb _); cbn; lia.
  - unfold onAggregatesDecrypted. destruct (_ =? _); [cbn; lia|].
    destruct (negb _); [cbn; lia|]. destruct (abi_decode_uint32 _); cbn; lia.
  - lia.
Qed.

Lemma well_formed_deployed : well_formed deployed.
Proof.
  split; cbn.
  - unfold uint256_max. lia.
  - unfold uint256_max. lia.
  - intros i a E. rewrite lookup_empty in E. discriminate.
  - intros i Hi. lia.
  - intros sid s E. rewrite lookup_empty in E. discriminate.
  - intros a l E. rewrite lookup_empty in E. discriminate.
Qed.

Lemma well_formed_exec (env : Env) (c : call) (st : State) :
  well_formed st -> well_formed (exec env c st).
Proof.
  intros [Hc Hsc Ha Hall Hs Hl]. destruct c as [fp meta|artwork d|reqId artwork|rid ct pf|artwork];
    cbn [exec].
  - (* upload *)
    unfold uploadEncryptedArtwork.
    destruct (artworkCounter st =? uint256_max) eqn:Emax; cbn [state_after];
      [split; assumption|].
    apply Z.eqb_neq in Emax.
    split; cbn; try lia; try assumption.
    + intros i a E. destruct (decide (i = artworkCounter st + 1)) as [->|Hne].
      * rewrite lookup_insert_eq in E. injection E as <-. cbn. lia.
      * rewrite lookup_insert_ne in E by congruence.
        destruct (Ha i a E). lia.
    + intros i Hi. destruct (decide (i = artworkCounter st + 1)) as [->|Hne].
      * rewrite lookup_insert_eq. eauto.
      * rewrite lookup_insert_ne by congruence. apply Hall. lia.
    + intros sid s E. destruct (Hs sid s E). lia.
  - (* submit *)
    unfold submitEncryptedModelShare.
    destruct (negb _) eqn:Evalid; cbn [state_after]; [split; assumption|].
    destruct (shareCounter st =? uint256_max) eqn:Emax; cbn [state_after];
      [split; assumption|].
    apply Z.eqb_neq in Emax. apply negb_false_iff, andb_true_iff in Evalid as [E1 E2].
    apply Z.ltb_lt in E1. apply Z.leb_le in E2.
    assert (Hfresh : forall l a, sharesByArtwork st !! a = Some l ->
                                 shareCounter st + 1 ∉ l).
    { intros l a El Hin. destruct (Hl a l El) as (_ & Hm).
      destruct (Hm _ Hin) as (s & Es & _). destruct (Hs _ _ Es). lia. }
    split; cbn; try lia; try assumption.
    + intros sid s E. destruct (decide (sid = shareCounter st + 1)) as [->|Hne].
      * rewrite lookup_insert_eq in E. injection E as <-. cbn. lia.
      * rewrite lookup_insert_ne in E by congruence. destruct (Hs sid s E). lia.
    + intros a l E. destruct (decide (a = artwork)) as [->|Hne].
      * rewrite lookup_insert_eq in E. injection E as <-. unfold sharesOf.
        destruct (sharesByArtwork st !! artwork) as [l0|] eqn:El0; cbn [default].
        -- destruct (Hl _ _ El0) as (Hnd & Hm). split.
           ++ apply NoDup_app. split; [exact Hnd|]. split; [|apply NoDup_singleton].
              intros x Hx Hx'. apply list_elem_of_singleton in Hx'. subst x.
              exact (Hfresh _ _ El0 Hx).
           ++ intros sid Hin. apply elem_of_app in Hin as [Hin|Hin].
              ** destruct (Hm _ Hin) as (s & Es & Ea). exists s. split; [|exact Ea].
                 rewrite lookup_insert_ne; [exact Es|].
                 intros <-. exact (Hfresh _ _ El0 Hin).
              ** apply list_elem_of_singleton in Hin. subst sid.
                 rewrite lookup_insert_eq. eexists. split; reflexivity.
        -- split; [apply NoDup_singleton|].
           intros sid Hin. apply list_elem_of_singleton in Hin. subst sid.
           rewrite lookup_insert_eq. eexists. split; reflexivity.
      * rewrite lookup_insert_ne in E by congruence.
        destruct (Hl _ _ E) as (Hnd & Hm). split; [exact Hnd|].
        intros sid Hin. destruct (Hm _ Hin) as (s & Es & Ea). exists s. split; [|exact Ea].
        rewrite lookup_insert_ne; [exact Es|]. intros <-. exact (Hfresh _ _ E Hin).
  - (* request *)
    unfold requestAggregatedResultDecryption.
    destruct (negb _); cbn [state_after]; split; assumption.
  - (* callback *)
    unfold onAggregatesDecrypted.
    destruct (_ =? 0); cbn [state_after]; [split; assumption|].
    destruct (negb _); cbn [state_after]; [split; assumption|].
    destruct (abi_decode_uint32 ct); cbn [state_after]; split; assumption.
  - (* prune *)
    cbn [pruneShares state_after]. split; cbn; try assumption.
    + intros sid s E. rewrite lookup_foldl_delete in E.
      destruct (decide _); [discriminate|]. exact (Hs _ _ E).
    + intros a l E. destruct (decide (a = artwork)) as [->|Hne].
      * rewrite lookup_delete_eq in E. discriminate.
      * rewrite lookup_delete_ne in E by congruence.
        destruct (Hl _ _ E) as (Hnd & Hm). split; [exact Hnd|].
        intros sid Hin. destruct (Hm _ Hin) as (s & Es & Ea). exists s. split; [|exact Ea].
        rewrite lookup_foldl_delete. rewrite decide_False; [exact Es|].
        intros Hin'. unfold sharesOf in Hin'.
        destruct (sharesByArtwork st !! artwork) as [l0|] eqn:El0; cbn in Hin';
          [|apply elem_of_nil in Hin'; contradiction].
        destruct (Hl _ _ El0) as (_ & Hm0). destruct (Hm0 _ Hin') as (s0 & Es0 & Ea0).
        congruence.
Qed.

Lemma reachable_well_formed (st : State) : reachable st -> well_formed st.
Proof.
  induction 1; [apply well_formed_deployed | apply well_formed_exec; assumption].
Qed.

Lemma grounded_deployed : isInitialized euint32_zero = false -> grounded deployed.
Proof.
  intros Hz. split; cbn.
  - intros a. unfold aggregateOf. cbn. rewrite lookup_empty. cbn. congruence.
  - intros r a E. rewrite lookup_empty in E. discriminate.
  - intros a r E. rewrite lookup_empty in E. discriminate.
Qed.

Lemma grounded_exec (env : Env) (c : call) (st : State) :
  0 <= artworkCounter st ->
  grounded st -> grounded (exec env c st).
Proof.
  intros Hc [Hagg Hreq Hres].
  destruct c as [fp meta|artwork d|reqId artwork|rid ct pf|artwork]; cbn [exec].
  - unfold uploadEncryptedArtwork.
    destruct (artworkCounter st =? uint256_max); cbn [state_after]; [split; assumption|].
    split; cbn.
    + intros a Ha. specialize (Hagg a Ha). lia.
    + intros r a E. specialize (Hreq r a E). lia.
    + intros a r E. destruct (Hres a r E) as (Hr & Hv). split; [lia | exact Hv].
  - unfold submitEncryptedModelShare.
    destruct (negb _) eqn:Evalid; cbn [state_after]; [split; assumption|].
    destruct (shareCounter st =? uint256_max); cbn [state_after]; [split; assumption|].
    apply negb_false_iff, andb_true_iff in Evalid as [E1 E2].
    apply Z.ltb_lt in E1. apply Z.leb_le in E2.
    split; cbn; [|assumption..].
    intros a. unfold aggregateOf. cbn.
    destruct (decide (a = artwork)) as [->|Hne].
    + intros _. lia.
    + rewrite lookup_insert_ne by congruence. apply Hagg.
  - unfold requestAggregatedResultDecryption.
    destruct (negb _) eqn:Einit; cbn [state_after]; [split; assumption|].
    apply negb_false_iff in Einit.
    split; cbn; [assumption| |assumption].
    intros r a E. destruct (decide (r = reqId)) as [->|Hne].
    + rewrite lookup_insert_eq in E. injection E as <-. apply Hagg, Einit.
    + rewrite lookup_insert_ne in E by congruence. exact (Hreq r a E).
  - unfold onAggregatesDecrypted.
    destruct (requestOf st rid =? 0) eqn:Ezero; cbn [state_after]; [split; assumption|].
    destruct (negb _); cbn [state_after]; [split; assumption|].
    destruct (abi_decode_uint32 ct) as [v|] eqn:Edec; cbn [state_after];
      [|split; assumption].
    apply Z.eqb_neq in Ezero.
    assert (Hvalid : 1 <= requestOf st rid <= artworkCounter st).
    { unfold requestOf in *.
      destruct (decryptionRequestToArtwork st !! rid) as [a|] eqn:Er; cbn in *;
        [exact (Hreq _ _ Er) | congruence]. }
    split; cbn; [assumption..|].
    intros a r E. destruct (decide (a = requestOf st rid)) as [->|Hne].
    + rewrite lookup_insert_eq in E. injection E as <-. split; [exact Hvalid|]. eauto.
    + rewrite lookup_insert_ne in E by congruence. exact (Hres a r E).
  - cbn [pruneShares state_after]. split; assumption.
Qed.

Lemma reachable_grounded (st : State) :
  isInitialized euint32_zero = false -> reachable st -> grounded st.
Proof.
  intros Hz. induction 1 as [|st env c Hreach IH]; [apply grounded_deployed, Hz|].
  apply grounded_exec; [|exact IH].
  apply (wf_artworkCounter _ (reachable_well_formed _ Hreach)).
Qed.

(** X16: in every state the contract can reach, the stored artworks are
    exactly the ids 1 to [artworkCounter], each artwork carries its own id,
    and the next upload, unless the counter is at its maximum, returns
    [artworkCounter + 1], stores the artwork under that id and announces
    it. *)
Theorem artwork_ids_sequential (st : State) :
  reachable st ->
  (forall i, is_Some (artworks st !! i) <-> 1 <= i <= artworkCounter st)
  /\ (forall i a, artworks st !! i = Some a -> id a = i)
  /\ (forall env fingerprint meta,
        artworkCounter st < uint256_max ->
        exists st',
          uploadEncryptedArtwork env fingerprint meta st
          = Ok (artworkCounter st + 1) st'
               [ArtworkUploaded (artworkCounter st + 1) (timestamp env)]
          /\ artworkCounter st' = artworkCounter st + 1
          /\ artworks st' !! (artworkCounter st + 1)
             = Some {| id := artworkCounter st + 1; encryptedFingerprint := fingerprint;
                       encryptedMeta := meta; uploadedAt := timestamp env |}
          /\ (forall i, i <> artworkCounter st + 1 -> artworks st' !! i = artworks st !! i)).
Proof.
  intros Hreach. destruct (reachable_well_formed _ Hreach) as [Hc _ Ha Hall _ _].
  split; [|split].
  - intros i. split; [|apply Hall].
    intros [a E]. apply (Ha i a E).
  - intros i a E. apply (Ha i a E).
  - intros env fp meta Hlt. unfold uploadEncryptedArtwork.
    assert (E : (artworkCounter st =? uint256_max) = false) by (apply Z.eqb_neq; lia).
    rewrite E. eexists. split; [reflexivity|]. cbn. split; [reflexivity|].
    split; [apply lookup_insert_eq|].
    intros i Hi. apply lookup_insert_ne. congruence.
Qed.

(** X17: in every reachable state the list of share ids of an artwork has
    no repetition, every listed id is a stored share submitted for that very
    artwork, only uploaded artworks have shares, and no share id is listed
    under two artworks. *)
Theorem shares_belong_to_their_artwork (st : State) :
  reachable st ->
  forall a,
    NoDup (listSharesForArtwork a st)
    /\ (forall sid, sid ∈ listSharesForArtwork a st ->
                    1 <= a <= artworkCounter st
                    /\ 1 <= sid <= shareCounter st
                    /\ exists s, modelShares st !! sid = Some s /\ artworkId s = a)
    /\ (forall a' sid, sid ∈ listSharesForArtwork a st ->
                       sid ∈ listSharesForArtwork a' st -> a' = a).
Proof.
  intros Hreach a. destruct (reachable_well_formed _ Hreach) as [_ _ _ _ Hs Hl].
  assert (Hmem : forall b sid, sid ∈ listSharesForArtwork b st ->
                               exists s, modelShares st !! sid = Some s /\ artworkId s = b).
  { intros b sid Hin. unfold listSharesForArtwork, sharesOf in Hin.
    destruct (sharesByArtwork st !! b) as [l|] eqn:El; cbn in Hin;
      [|apply elem_of_nil in Hin; contradiction].
    destruct (Hl _ _ El) as (_ & Hm). exact (Hm _ Hin). }
  split; [|split].
  - unfold listSharesForArtwork, sharesOf.
    destruct (sharesByArtwork st !! a) as [l|] eqn:El; cbn; [|apply NoDup_nil_2].
    apply (Hl _ _ El).
  - intros sid Hin. destruct (Hmem _ _ Hin) as (s & Es & Ea).
    destruct (Hs _ _ Es) as (Hsid & Hart). subst a. eauto.
  - intros a' sid Hin Hin'. destruct (Hmem _ _ Hin) as (s & Es & Ea).
    destruct (Hmem _ _ Hin') as (s' & Es' & Ea'). congruence.
Qed.

(** X18: [pruneShares] never reverts; in a reachable state it empties the
    list of the artwork and deletes each of its shares, leaves the lists
    and the shares of every other artwork as they were, and keeps the
    encrypted aggregate, the revealed results, the artworks and both
    counters. *)
Theorem pruneShares_frame (st : State) (a : Z) :
  reachable st ->
  exists st',
    pruneShares a st = Ok tt st' []
    /\ listSharesForArtwork a st' = []
    /\ (forall sid, sid ∈ listSharesForArtwork a st -> modelShares st' !! sid = None)
    /\ (forall a', a' <> a ->
                  listSharesForArtwork a' st' = listSharesForArtwork a' st
                  /\ forall sid, sid ∈ listSharesForArtwork a' st ->
                                 modelShares st' !! sid = modelShares st !! sid)
    /\ (forall x, getEncryptedAggregate x st' = getEncryptedAggregate x st)
    /\ (forall x, getAggregatedResult x st' = getAggregatedResult x st)
    /\ artworks st' = artworks st
    /\ artworkCounter st' = artworkCounter st
    /\ shareCounter st' = shareCounter st.
Proof.
  intros Hreach.
  destruct (shares_belong_to_their_artwork st Hreach a) as (_ & _ & Hdisj).
  eexists. split; [reflexivity|]. cbn. repeat split.
  - unfold listSharesForArtwork, sharesOf. cbn. rewrite lookup_delete_eq. reflexivity.
  - intros sid Hin. rewrite lookup_foldl_delete. rewrite decide_True; [reflexivity|exact Hin].
  - unfold listSharesForArtwork, sharesOf. cbn. rewrite lookup_delete_ne by congruence.
    reflexivity.
  - intros sid Hin. rewrite lookup_foldl_delete. rewrite decide_False; [reflexivity|].
    intros Hin'. apply H0. exact (Hdisj a' sid Hin' Hin).
Qed.

(** One accepted submission. *)
Lemma submit_accepted (env : Env) (artwork : Z) (d : euint32) (st : State) :
  1 <= artwork <= artworkCounter st ->
  shareCounter st < uint256_max ->
  let started :=
    if isInitialized (aggregateOf st artwork) then aggregateOf st artwork
    else asEuint32 0 in
  let st' := exec env (Submit artwork d) st in
  aggregateOf st' artwork = FHE_add started d
  /\ (forall a, a <> artwork -> aggregateOf st' a = aggregateOf st a)
  /\ sharesOf st' artwork = sharesOf st artwork ++ [shareCounter st + 1]
  /\ shareCounter st' = shareCounter st + 1
  /\ artworkCounter st' = artworkCounter st.
Proof.
  intros Hvalid Hlt started st'. unfold st', started. cbn [exec].
  unfold submitEncryptedModelShare.
  assert (E1 : negb ((0 <? artwork) && (artwork <=? artworkCounter st)) = false).
  { apply negb_false_iff, andb_true_iff. split; [apply Z.ltb_lt | apply Z.leb_le]; lia. }
  assert (E2 : (shareCounter st =? uint256_max) = false) by (apply Z.eqb_neq; lia).
  rewrite E1, E2. cbn [state_after]. unfold aggregateOf, sharesOf. cbn.
  rewrite !lookup_insert_eq. cbn. repeat split.
  - destruct (isInitialized _); reflexivity.
  - intros a Ha. rewrite lookup_insert_ne by congruence. reflexivity.
Qed.

Lemma submit_all_initialised (env : Env) (artwork : Z) (ds : list euint32) :
  (forall a b, isInitialized (FHE_add a b) = true) ->
  forall st,
    1 <= artwork <= artworkCounter st ->
    shareCounter st + Z.of_nat (length ds) <= uint256_max ->
    isInitialized (aggregateOf st artwork) = true ->
    let st' := submit_all env artwork ds st in
    aggregateOf st' artwork = fold_left FHE_add ds (aggregateOf st artwork)
    /\ (forall a, a <> artwork -> aggregateOf st' a = aggregateOf st a)
    /\ length (sharesOf st' artwork) = (length (sharesOf st artwork) + length ds)%nat
    /\ shareCounter st' = shareCounter st + Z.of_nat (length ds).
Proof.
  intros Hadd. induction ds as [|d ds IH]; intros st Hvalid Hbound Hinit; cbn [submit_all].
  - cbn. repeat split; lia.
  - cbn [length] in Hbound.
    destruct (submit_accepted env artwork d st Hvalid) as (Hagg & Hother & Hlist & Hsc & Hac);
      [lia|].
    rewrite Hinit in Hagg.
    destruct (IH (exec env (Submit artwork d) st)) as (IHagg & IHother & IHlist & IHsc).
    + rewrite Hac. exact Hvalid.
    + rewrite Hsc. lia.
    + rewrite Hagg. apply Hadd.
    + cbv zeta. rewrite IHagg, Hagg, IHlist, Hlist, IHsc, Hsc, length_app. cbn [length fold_left].
      repeat split; try lia.
      intros a Ha. rewrite IHother, Hother by exact Ha. reflexivity.
Qed.

(** X19: when the library's additions return initialised handles, the
    decisions submitted in a row for an uploaded artwork are all folded
    into its aggregate, in the order of submission, starting from the
    stored aggregate if there is one and from the encryption of 0
    otherwise; the artwork gains one share id per decision and the
    aggregates of the other artworks do not move. *)
Theorem aggregate_accumulates (env : Env) (artwork : Z) (d : euint32) (ds : list euint32)
        (st : State) :
  (forall a b, isInitialized (FHE_add a b) = true) ->
  1 <= artwork <= artworkCounter st ->
  shareCounter st + Z.of_nat (length (d :: ds)) <= uint256_max ->
  let started :=
    if isInitialized (getEncryptedAggregate artwork st)
    then getEncryptedAggregate artwork st
    else asEuint32 0 in
  let st' := submit_all env artwork (d :: ds) st in
  getEncryptedAggregate artwork st' = fold_left FHE_add (d :: ds) started
  /\ (forall a, a <> artwork -> getEncryptedAggregate a st' = getEncryptedAggregate a st)
  /\ length (listSharesForArtwork artwork st')
     = (length (listSharesForArtwork artwork st) + length (d :: ds))%nat
  /\ shareCounter st' = shareCounter st + Z.of_nat (length (d :: ds)).
Proof.
  intros Hadd Hvalid Hbound started st'. unfold st', started, getEncryptedAggregate,
    listSharesForArtwork. cbn [submit_all]. cbn [length] in Hbound.
  destruct (submit_accepted env artwork d st Hvalid) as (Hagg & Hother & Hlist & Hsc & Hac);
    [lia|].
  destruct (submit_all_initialised env artwork ds Hadd (exec env (Submit artwork d) st))
    as (IHagg & IHother & IHlist & IHsc).
  - rewrite Hac. exact Hvalid.
  - rewrite Hsc. lia.
  - rewrite Hagg. apply Hadd.
  - cbv zeta in *. rewrite IHagg, Hagg, IHlist, Hlist, IHsc, Hsc, length_app.
    cbn [length fold_left]. repeat split; try lia.
    intros a Ha. rewrite IHother, Hother by exact Ha. reflexivity.
Qed.

(** X20: in every reachable state, when an unwritten slot is not an
    initialised handle and decoded cleartexts are 32-bit, the result of an
    artwork is either the unrevealed default, or a revealed result of an
    uploaded artwork whose verdict and confidence come from one decoded
    aggregate [v]: the confidence is [min(v, 100)], between 0 and 100, and
    the verdict is "likely_authentic" exactly when the confidence is 0. *)
Theorem revealed_results_sound (st : State) (a : Z) :
  isInitialized euint32_zero = false ->
  (forall cleartexts v, abi_decode_uint32 cleartexts = Some v -> 0 <= v < 2 ^ 32) ->
  reachable st ->
  getAggregatedResult a st = (false, EmptyString, 0)
  \/ (1 <= a <= artworkCounter st
      /\ exists v verdict,
          0 <= v < 2 ^ 32
          /\ getAggregatedResult a st = (true, verdict, Z.min v 100)
          /\ 0 <= Z.min v 100 <= 100
          /\ (verdict = "likely_authentic" \/ verdict = "likely_forgery")
          /\ (verdict = "likely_authentic" <-> Z.min v 100 = 0)).
Proof.
  intros Hz Hdec Hreach. destruct (reachable_grounded st Hz Hreach) as [_ _ Hres].
  unfold getAggregatedResult, resultOf.
  destruct (results st !! a) as [r|] eqn:Er; cbn [default]; [|left; reflexivity].
  right. destruct (Hres a r Er) as (Hvalid & ct & v & Hv & ->).
  split; [exact Hvalid|]. specialize (Hdec ct v Hv).
  exists v, (if v >? 0 then "likely_forgery" else "likely_authentic").
  split; [exact Hdec|].
  assert (Hconf : ForgeryNetFHE.computeConfidence v = Z.min v 100).
  { unfold ForgeryNetFHE.computeConfidence. destruct (Z.gtb_spec v 100); lia. }
  cbn. rewrite Hconf. split; [reflexivity|]. split; [lia|].
  destruct (Z.gtb_spec v 0) as [Hpos|Hzero].
  - split; [right; reflexivity|]. split; [discriminate | lia].
  - split; [left; reflexivity|]. split; [lia | reflexivity].
Qed.

(** X21: in every reachable state, when an unwritten slot is not an
    initialised handle, a share or a decryption request for an id that is
    not an uploaded artwork reverts ("Invalid artwork", "No aggregate"), a
    callback for an unregistered request reverts ("Unknown request"), and
    a callback that goes through reveals, for the uploaded artwork of the
    request, the verdict and the capped confidence of the decoded
    aggregate. *)
Theorem decryption_only_for_uploaded (st : State) :
  isInitialized euint32_zero = false ->
  reachable st ->
  (forall env a d,
      ~ 1 <= a <= artworkCounter st ->
      submitEncryptedModelShare env a d st = Revert "Invalid artwork")
  /\ (forall reqId a,
        ~ 1 <= a <= artworkCounter st ->
        requestAggregatedResultDecryption reqId a st = Revert "No aggregate")
  /\ (forall requestId cleartexts proof,
        decryptionRequestToArtwork st !! requestId = None ->
        onAggregatesDecrypted requestId cleartexts proof st = Revert "Unknown request")
  /\ (forall requestId cleartexts proof st' events,
        onAggregatesDecrypted requestId cleartexts proof st = Ok tt st' events ->
        exists a v,
          decryptionRequestToArtwork st !! requestId = Some a
          /\ 1 <= a <= artworkCounter st
          /\ abi_decode_uint32 cleartexts = Some v
          /\ getAggregatedResult a st'
             = (true, if v >? 0 then "likely_forgery" else "likely_authentic",
                ForgeryNetFHE.computeConfidence v)).
Proof.
  intros Hz Hreach. destruct (reachable_grounded st Hz Hreach) as [Hagg Hreq _].
  split; [|split; [|split]].
  - intros env a d Hout. unfold submitEncryptedModelShare.
    destruct ((0 <? a) && (a <=? artworkCounter st)) eqn:E; [|reflexivity].
    apply andb_true_iff in E as [E1 E2]. apply Z.ltb_lt in E1. apply Z.leb_le in E2. lia.
  - intros reqId a Hout. unfold requestAggregatedResultDecryption.
    destruct (isInitialized (aggregateOf st a)) eqn:E; [|reflexivity].
    exfalso. apply Hout, Hagg, E.
  - intros rid ct pf E. unfold onAggregatesDecrypted, requestOf. rewrite E. reflexivity.
  - intros rid ct pf st' events. unfold onAggregatesDecrypted, requestOf. cbv zeta.
    destruct (decryptionRequestToArtwork st !! rid) as [a|] eqn:Er;
      cbn [from_option Datatypes.id]; [|cbn; discriminate].
    destruct (a =? 0); [discriminate|].
    destruct (negb _); [discriminate|].
    destruct (abi_decode_uint32 ct) as [v|]; [|discriminate].
    intros E. injection E as <- _. exists a, v.
    split; [reflexivity|]. split; [exact (Hreq _ _ Er)|]. split; [reflexivity|].
    unfold getAggregatedResult, resultOf. cbn. rewrite lookup_insert_eq. reflexivity.
Qed.

End Contract.
End ConsortiumProperties.


(* ===================================================================== *)
(** ** Further concrete runs *)
(* ===================================================================== *)


(** [handleSubmit_requires_fields] with the hyperspectral data left empty,
    and with the form filled in. *)
Lemma handleSubmit_requires_fields_witness :
  @handleSubmit js example_now_id example_now_ts example_suffix blank_form_world
  = (Ret tt, {| app := app blank_form_world; ledger := ledger blank_form_world;
                log := [alert_call "Please fill required fields"] |})
  /\ @handleSubmit js example_now_id example_now_ts example_suffix empty_world
     = @uploadArtwork js example_now_id example_now_ts example_suffix empty_world.
Proof.
  split.
  - apply (proj1 (@handleSubmit_requires_fields js example_now_id example_now_ts
                    example_suffix blank_form_world)).
    right. reflexivity.
  - apply (proj2 (@handleSubmit_requires_fields js example_now_id example_now_ts
                    example_suffix empty_world)); vm_compute; discriminate.
Defined.

(** [transition_of_missing_record]: the index names [a], the record is
    missing. *)
Lemma transition_of_missing_record_witness :
  exists w',
    @markAsAuthentic js (JStr "a") dangling_world = (Ret tt, w')
    /\ shows (app w') Tx.error "Verification failed: Artwork not found"
    /\ ledger w' = ledger dangling_world.
Proof.
  assert (Hread : read (ledger dangling_world) ("artwork_" +:+ toString (JStr "a"))
                  = EmptyString) by (vm_compute; reflexivity).
  destruct (@transition_of_missing_record js (JStr "a") dangling_world eq_refl eq_refl Hread
              (@markAsAuthentic js) "Verification failed: "
              (or_introl (conj eq_refl eq_refl)))
    as (w' & E & Hs & HL & _).
  exists w'. split; [exact E|]. split; [exact Hs | exact HL].
Defined.

(** [transition_all_or_nothing] on a blob that does not decode. *)
Lemma transition_all_or_nothing_witness :
  store (ledger (@markAsForgery js (JStr "keys") corrupt_index_world).2)
  = store (ledger corrupt_index_world).
Proof.
  destruct (@transition_all_or_nothing js (JStr "keys") corrupt_index_world _ _
              (@markAsForgery js) (or_intror eq_refl)
              (run_eta (@markAsForgery js (JStr "keys")) corrupt_index_world))
    as (_ & Herr & _).
  apply Herr. vm_compute. reflexivity.
Defined.

(** [failed_upload_keeps_index]: the record write is acknowledged, the
    index write is refused. *)
Lemma failed_upload_keeps_index_witness :
  read (ledger (@uploadArtwork js example_now_id example_now_ts example_suffix
                  index_refused_world).2) "artwork_keys"
  = read (ledger index_refused_world) "artwork_keys"
  /\ exists b64,
      read (ledger (@uploadArtwork js example_now_id example_now_ts example_suffix
                      index_refused_world).2) "artwork_1700000000123-k3j9x2a"
      = @encode js (uploadedRecord (app index_refused_world) b64 example_now_ts).
Proof.
  destruct (@failed_upload_keeps_index js example_now_id example_now_ts example_suffix
              index_refused_world _ _
              (run_eta (@uploadArtwork js example_now_id example_now_ts example_suffix)
                 index_refused_world))
    as (_ & Herr & Horphan).
  split.
  - apply Herr. vm_compute. reflexivity.
  - destruct (Horphan (@encode js (JArr [JStr "a"; JStr "1700000000123-k3j9x2a"]))
                "nonce too low") as (b64 & Hb & _).
    + vm_compute. left. reflexivity.
    + exists b64. exact Hb.
Defined.

(** [upload_over_corrupt_index]: the index blob is not JSON. *)
Lemma upload_over_corrupt_index_witness :
  exists w',
    @uploadArtwork js example_now_id example_now_ts example_suffix corrupt_index_world
    = (Ret tt, w')
    /\ read (ledger w') "artwork_keys" = @encode js (JArr [JStr "1700000000123-k3j9x2a"]).
Proof.
  assert (Hne : read (ledger corrupt_index_world) "artwork_keys" <> EmptyString)
    by (vm_compute; discriminate).
  destruct (@upload_over_corrupt_index js example_now_id example_now_ts example_suffix
              corrupt_index_world _ (Error "Unexpected token in JSON")
              eq_refl eq_refl eq_refl eq_refl eq_refl Hne)
    as (w' & E & _ & Hidx & _).
  { vm_compute. reflexivity. }
  exists w'. split; [exact E | exact Hidx].
Defined.

(** Scenario B: [uploaded_record_listed] for an upload to an empty ledger. *)
Lemma uploaded_record_listed_witness :
  exists w' r,
    @uploadArtwork js example_now_id example_now_ts example_suffix empty_world = (Ret tt, w')
    /\ r ∈ artworks (app w')
    /\ Artwork.artworkName r = val (JStr "Starry Night")
    /\ Artwork.owner r = val (JStr "0xABC")
    /\ Artwork.status r = val (JStr "pending").
Proof.
  assert (Hidx : @index js (ledger empty_world) = JArr []) by (vm_compute; reflexivity).
  destruct (@uploaded_record_listed js example_now_id example_now_ts example_suffix
              empty_world _ [] eq_refl eq_refl eq_refl eq_refl eq_refl eq_refl eq_refl Hidx)
    as (w' & E & Hin).
  - vm_compute. discriminate.
  - vm_compute. reflexivity.
  - vm_compute. discriminate.
  - vm_compute. reflexivity.
  - eexists w', _. split; [exact E|]. split; [exact Hin|]. repeat split.
Defined.

(** [transition_listed_and_final]: the owner marks the pending record
    authentic. *)
Lemma transition_listed_and_final_witness :
  exists w' r,
    @markAsAuthentic js (JStr "a") owner_world = (Ret tt, w')
    /\ r ∈ artworks (app w')
    /\ Artwork.status r = val (JStr "authentic")
    /\ artworkActions (app w') r = Ret [].
Proof.
  assert (Hne : read (ledger owner_world) ("artwork_" +:+ toString (JStr "a")) <> EmptyString)
    by (vm_compute; discriminate).
  assert (Hdec : @decode js (read (ledger owner_world) ("artwork_" +:+ toString (JStr "a")))
                 = Ret (mona_lisa "pending"))
    by (vm_compute; reflexivity).
  assert (Hkey : "artwork_" +:+ toString (JStr "a") <> "artwork_keys")
    by (vm_compute; discriminate).
  assert (Hks : iterate (@index js (ledger owner_world)) = Ret [JStr "a"])
    by (vm_compute; reflexivity).
  assert (Hin : JStr "a" ∈ [JStr "a"]) by apply list_elem_of_here.
  destruct (@transition_listed_and_final js (JStr "a") owner_world _ [JStr "a"]
              eq_refl eq_refl eq_refl eq_refl eq_refl Hne Hdec Hkey Hks Hin
              (@markAsAuthentic js) "authentic" (or_introl (conj eq_refl eq_refl)))
    as (w' & r & E & Hr & Hid & Hst & Hfinal).
  - vm_compute. discriminate.
  - vm_compute. reflexivity.
  - exists w', r. split; [exact E|]. split; [exact Hr|]. split; [exact Hst|].
    destruct (artworkActions (app w') r) as [bs|e] eqn:Ea.
    + rewrite (Hfinal bs eq_refl). reflexivity.
    + exfalso. clear Hfinal. revert Ea. unfold artworkActions.
      assert (Ho : Artwork.owner r = val (JStr "0xAAA")).
      { clear - E Hr.
        assert (Hw : w' = (@markAsAuthentic js (JStr "a") owner_world).2)
          by (rewrite E; reflexivity).
        subst w'. revert Hr. vm_compute. intros Hr.
        apply list_elem_of_singleton in Hr. subst r. reflexivity. }
      rewrite Ho. cbn. destruct (_ && _); discriminate.
Defined.

(** [refresh_without_index]: no index blob, one cached record. *)
Lemma refresh_without_index_witness :
  exists w', @loadArtworks js no_index_world = (Ret tt, w') /\ artworks (app w') = [].
Proof.
  destruct (@refresh_without_index js no_index_world eq_refl eq_refl)
    as (w' & E & Ha & _).
  - left. vm_compute. reflexivity.
  - exists w'. split; [exact E | exact Ha].
Defined.

(** [refresh_with_unwalkable_index]: the index blob is the number 5. *)
Lemma refresh_with_unwalkable_index_witness :
  exists w',
    @loadArtworks js number_index_world = (Ret tt, w')
    /\ artworks (app w') = [mona_lisa_card "pending"].
Proof.
  assert (Hidx : @index js (ledger number_index_world) = JNum 5) by (vm_compute; reflexivity).
  destruct (@refresh_with_unwalkable_index js number_index_world (JNum 5) eq_refl eq_refl Hidx)
    as (w' & E & Ha & _).
  - intros l. discriminate.
  - intros s. discriminate.
  - exists w'. split; [exact E | exact Ha].
Defined.

(** [busy_flags_released] for a refusal and for a refresh given up. *)
Lemma busy_flags_released_witness :
  uploading (app (@uploadArtwork js example_now_id example_now_ts example_suffix
                    declined_world).2) = false
  /\ isRefreshing (app (@loadArtworks js cut_off_world).2) = false.
Proof.
  split.
  - destruct (@busy_flags_released js declined_world) as (_ & Hup).
    destruct (Hup _ _ _ _ _ (run_eta (@uploadArtwork js example_now_id example_now_ts
                                        example_suffix) declined_world)) as (_ & Hu).
    exact Hu.
  - destruct (@busy_flags_released js cut_off_world) as (Hload & _).
    destruct (Hload _ _ (run_eta (@loadArtworks js) cut_off_world)) as (_ & Hr & _).
    exact Hr.
Defined.


(** [filteredArtworks_throws_on_nameless]: one record without a name among
    the two. *)
Lemma filteredArtworks_throws_on_nameless_witness :
  exists e,
    filteredArtworks "mona"
      (visitor "0xaaa" [mona_lisa_card "pending"; nameless_card; the_scream_card])
    = Throw e.
Proof.
  apply (filteredArtworks_throws_on_nameless "mona"
           (visitor "0xaaa" [mona_lisa_card "pending"; nameless_card; the_scream_card])
           nameless_card).
  - apply list_elem_of_further, list_elem_of_here.
  - intros s. discriminate.
Defined.

(** [counters_partition] on the two cached records. *)
Lemma counters_partition_witness :
  (authenticCount two_cards + forgeryCount two_cards + pendingCount two_cards)%nat
  = length (artworks two_cards).
Proof.
  destruct (counters_partition two_cards) as (_ & Hall & _).
  apply Hall. constructor.
  - right. right. reflexivity.
  - constructor; [|constructor].
    right. left. reflexivity.
Defined.

(** Every state reached by a list of calls is reachable. *)
Lemma run_calls_reachable (cs : list (@Consortium.call Consortium.plain))
      (st : @Consortium.State Consortium.plain) :
  Consortium.reachable st -> Consortium.reachable (run_calls cs st).
Proof.
  revert st. induction cs as [|c cs IH]; intros st Hst; [exact Hst|].
  cbn. apply IH. apply Consortium.reachable_exec. exact Hst.
Qed.

Lemma example_state_reachable : Consortium.reachable example_state.
Proof. apply run_calls_reachable. apply Consortium.reachable_deployed. Qed.

(** [artwork_ids_sequential] on the example run. *)
Lemma artwork_ids_sequential_witness :
  is_Some (Consortium.artworks example_state !! 2)
  /\ ~ is_Some (Consortium.artworks example_state !! 3).
Proof.
  destruct (ConsortiumProperties.artwork_ids_sequential example_state example_state_reachable)
    as (Hids & _).
  split.
  - apply Hids. vm_compute. split; discriminate.
  - intros Hsome. apply Hids in Hsome. revert Hsome. vm_compute.
    intros [_ Hle]. apply Hle. reflexivity.
Defined.

(** [shares_belong_to_their_artwork] on the example run. *)
Lemma shares_belong_to_their_artwork_witness :
  NoDup (Consortium.listSharesForArtwork 1 example_state)
  /\ exists s, Consortium.modelShares example_state !! 4 = Some s
               /\ Consortium.artworkId s = 1.
Proof.
  destruct (ConsortiumProperties.shares_belong_to_their_artwork example_state
              example_state_reachable 1) as (Hnd & Hmem & _).
  split; [exact Hnd|].
  destruct (Hmem 4) as (_ & _ & Hs); [|exact Hs].
  vm_compute. apply list_elem_of_further, list_elem_of_further, list_elem_of_here.
Defined.

(** [pruneShares_frame] on the example run. *)
Lemma pruneShares_frame_witness :
  exists st',
    Consortium.pruneShares 1 example_state = Consortium.Ok tt st' []
    /\ Consortium.listSharesForArtwork 1 st' = []
    /\ Consortium.listSharesForArtwork 2 st' = Consortium.listSharesForArtwork 2 example_state
    /\ Consortium.getEncryptedAggregate 1 st'
       = Consortium.getEncryptedAggregate 1 example_state.
Proof.
  destruct (ConsortiumProperties.pruneShares_frame example_state 1 example_state_reachable)
    as (st' & E & Hempty & _ & Hother & Hagg & _).
  exists st'. split; [exact E|]. split; [exact Hempty|]. split; [|apply Hagg].
  apply Hother. discriminate.
Defined.

(** [aggregate_accumulates]: three decisions for the first artwork after
    the two uploads. *)
Lemma aggregate_accumulates_witness :
  Consortium.getEncryptedAggregate 1
    (Consortium.submit_all example_env 1 example_decisions
       (run_calls (firstn 2 example_calls) Consortium.deployed))
  = Some 2.
Proof.
  destruct (@ConsortiumProperties.aggregate_accumulates Consortium.plain example_env 1
              (hd None example_decisions) (tl example_decisions)
              (run_calls (firstn 2 example_calls) Consortium.deployed))
    as (Hagg & _).
  - intros a b. reflexivity.
  - vm_compute. split; discriminate.
  - vm_compute. discriminate.
  - etransitivity; [exact Hagg|]. vm_compute. reflexivity.
Defined.

(** [revealed_results_sound] on the example run. *)
Lemma revealed_results_sound_witness :
  Consortium.getAggregatedResult 1 example_state = (true, "likely_forgery", 2)
  /\ Consortium.getAggregatedResult 2 example_state = (false, EmptyString, 0).
Proof.
  assert (Hdec : forall cleartexts v,
             @Consortium.abi_decode_uint32 Consortium.plain cleartexts = Some v ->
             0 <= v < 2 ^ 32).
  { intros ct v. cbn. destruct ct as [|c ct]; [discriminate|].
    destruct (digits_value 0 (String c ct)) as [n|] eqn:En; [|discriminate].
    destruct (Z.ltb_spec n (2 ^ 32)); [|discriminate].
    intros E. injection E as <-. split; [|assumption].
    assert (Hpos : forall s acc m, 0 <= acc -> digits_value acc s = Some m -> 0 <= m).
    { clear. induction s as [|c s IH]; cbn; intros acc m Hacc.
      - intros E. injection E as <-. exact Hacc.
      - unfold is_digit. destruct (_ && _) eqn:Ed; [|discriminate].
        apply andb_true_iff in Ed as [E1 E2]. apply Z.leb_le in E1.
        apply IH. lia. }
    apply (Hpos (String c ct) 0 n); [lia | exact En]. }
  split.
  - destruct (@ConsortiumProperties.revealed_results_sound Consortium.plain example_state 1
                eq_refl Hdec example_state_reachable) as [Hnone|(_ & _)].
    + revert Hnone. vm_compute. discriminate.
    + vm_compute. reflexivity.
  - vm_compute. reflexivity.
Defined.

(** [decryption_only_for_uploaded] on the example run. *)
Lemma decryption_only_for_uploaded_witness :
  Consortium.requestAggregatedResultDecryption 10 3 example_state
  = Consortium.Revert "No aggregate"
  /\ Consortium.onAggregatesDecrypted 8 "1" EmptyString example_state
     = Consortium.Revert "Unknown request".
Proof.
  destruct (@ConsortiumProperties.decryption_only_for_uploaded Consortium.plain example_state
              eq_refl example_state_reachable) as (_ & Hreq & Hcb & _).
  split.
  - apply Hreq. vm_compute. intros [_ Hle]. apply Hle. reflexivity.
  - apply Hcb. vm_compute. reflexivity.
Defined.
